(** * drone_show.py: trajectory loading, execution loop and landing

    A shallow embedding of [src/drone_show.py] and the properties of it
    that the specification states.

    Numbers.  Python floats are modelled by rationals ([Q]), the finite
    binary64 numbers among them; NaN is left out, and an infinity only
    appears as the overflow of the one quotient below.  Sums, differences
    and comparisons are written with the operations of [Q] and stand for
    the program's own; equality of computed coordinates is stated with
    [==] ([Qeq]).  The quotient of the drift-skip, whose truncation decides
    how far the cursor jumps, is rounded as binary64 rounds it
    ([b64_round]).

    Effects.  The coroutines talk to the vehicle, the clock, the LED and a
    local HTTP service.  They are embedded in a state-and-exception monad
    over a [session]: the session holds the answers the outside world will
    give ([script]), the calls made so far ([trace]), the two module
    globals and the locals of [perform_trajectory].

    What is taken for granted about the outside: logging and
    [LEDController.set_color] do not raise; a telemetry stream yields a
    first item or raises; [response.json()] on a body that is not JSON
    raises [requests.exceptions.JSONDecodeError], which is a
    [RequestException] (requests 2.27 and later); [pymap3d.ned2geodetic]
    returns. *)

From Stdlib Require Import QArith Qround Qabs ZArith List Bool String Lia Lqa Sorted.
Import ListNotations.

Local Open Scope Q_scope.

(** ** Numbers *)

Definition Qleb (a b : Q) : bool := Qle_bool a b.
Definition Qltb (a b : Q) : bool := negb (Qle_bool b a).

(** Python's [int(x)] on a float: truncation toward zero. *)
Definition py_int (x : Q) : Z :=
  if Qleb 0 x then Qfloor x else Qceiling x.

(** Python's [min(a, b)]: [b] when [b < a], else [a]. *)
Definition py_min (a b : Q) : Q := if Qltb b a then b else a.

(** ** Binary64 rounding *)

(** [2 ^ e] for an integer [e]. *)
Definition pow2 (e : Z) : Q :=
  if (0 <=? e)%Z then inject_Z (2 ^ e) else 1 / inject_Z (2 ^ (- e)).

(** The binary exponent of [a > 0]: the [e] with [2^e <= a < 2^(e+1)]. *)
Definition b64_exponent (a : Q) : Z :=
  let e0 := (Z.log2 (Qnum a) - Z.log2 (Zpos (Qden a)))%Z in
  if Qltb a (pow2 e0) then (e0 - 1)%Z else e0.

(** Rounding to the nearest integer, a tie to the even one. *)
Definition round_half_even (y : Q) : Z :=
  let f := Qfloor y in
  let r := y - inject_Z f in
  if Qltb r (1 # 2) then f
  else if Qltb (1 # 2) r then (f + 1)%Z
  else if Z.even f then f else (f + 1)%Z.

(** [a > 0] rounded to the nearest multiple of the unit in the last place:
    53 significant bits, the unit never below [2^-1074] (subnormals). *)
Definition b64_round_pos (a : Q) : Q :=
  let u := Z.max (b64_exponent a - 52) (- 1074) in
  inject_Z (round_half_even (a / pow2 u)) * pow2 u.

(** The binary64 number nearest to [x], ties to even; [None] is an
    infinity (the rounded magnitude reaches [2^1024]).  An arithmetic
    operation of IEEE 754 returns the exact result rounded so. *)
Definition b64_round (x : Q) : option Q :=
  if Qeq_bool x 0 then Some 0
  else
    let r := b64_round_pos (Qabs x) in
    if Qleb (pow2 1024) r then None
    else Some (if Qltb x 0 then - r else r).

(** ** Exceptions *)

Inductive exn : Type :=
| KeyError | ValueError | TypeError | IndexError | ZeroDivisionError
| OffboardError | ActionError | TelemetryError
| RequestException | RetryError | OverflowError | OtherError.

Inductive result (A : Type) : Type :=
| Ok (a : A)
| Err (e : exn).
Arguments Ok {A} a.
Arguments Err {A} e.

Definition rbind {A B} (r : result A) (k : A -> result B) : result B :=
  match r with
  | Ok a => k a
  | Err e => Err e
  end.

Declare Scope result_scope.
Delimit Scope result_scope with result.
Notation "'let?' x ':=' r 'in' k" := (rbind r (fun x => k))
  (at level 10, x pattern, r at level 100, k at level 200) : result_scope.

(** ** Trajectory rows and waypoints *)

(** What [csv.DictReader] holds under one key of a row, as [float] sees it:
    the key is not a column of the file ([Absent]); the row is shorter than
    the header, so the value is [None] ([Blank]); the text is not a number
    ([Garbled]); or it is a number, a finite one: the texts [inf] and
    [nan], which [float] also reads, are left out. *)
Inductive cell : Type :=
| Absent
| Blank
| Garbled
| Num (q : Q).

Record row : Type := mkRow {
  r_t : cell;
  r_px : cell; r_py : cell; r_pz : cell;
  r_vx : cell; r_vy : cell; r_vz : cell;
  r_ax : cell; r_ay : cell; r_az : cell;
  r_yaw : cell;
  r_mode : option string;
  r_ledr : cell; r_ledg : cell; r_ledb : cell
}.

(** The 15-tuple the loader appends and the loop unpacks. *)
Record waypoint : Type := mkWaypoint {
  wp_t : Q;
  wp_px : Q; wp_py : Q; wp_pz : Q;
  wp_vx : Q; wp_vy : Q; wp_vz : Q;
  wp_ax : Q; wp_ay : Q; wp_az : Q;
  wp_yaw : Q;
  wp_mode : string;
  wp_ledr : Z; wp_ledg : Z; wp_ledb : Z
}.

(** [float(row[key])] *)
Definition float_item (c : cell) : result Q :=
  match c with
  | Absent => Err KeyError
  | Blank => Err TypeError
  | Garbled => Err ValueError
  | Num q => Ok q
  end.

(** [float(row.get(key, 0.0))] *)
Definition float_get (c : cell) : result Q :=
  match c with
  | Absent => Ok 0
  | Blank => Err TypeError
  | Garbled => Err ValueError
  | Num q => Ok q
  end.

(** [row.get(key, 0)], the argument of [clamp_led_value] *)
Definition led_get (c : cell) : cell :=
  match c with
  | Absent => Num 0
  | _ => c
  end.

Definition mode_get (m : option string) : string :=
  match m with
  | Some s => s
  | None => "0"%string
  end.

Definition blender_north_west_up_to_ned (x_b y_b z_b : Q) : Q * Q * Q :=
  let n := x_b in
  let e := - y_b in
  let d := - z_b in
  (n, e, d).

Definition extract_initial_positions (first_waypoint : row) : result (Q * Q * Q) :=
  (let? initial_x := float_item (r_px first_waypoint) in
   let? initial_y := float_item (r_py first_waypoint) in
   let? initial_z := float_get (r_pz first_waypoint) in
   Ok (initial_x, initial_y, initial_z))%result.

(** One waypoint of [adjust_waypoints].  The three differences stand for
    the program's own subtractions, which binary64 rounds: nothing below
    relies on a law of exact subtraction that the rounded one lacks. *)
Definition adjust_waypoint (initial_x initial_y initial_z : Q) (w : waypoint) : waypoint :=
  mkWaypoint (wp_t w)
    (wp_px w - initial_x) (wp_py w - initial_y) (wp_pz w - initial_z)
    (wp_vx w) (wp_vy w) (wp_vz w)
    (wp_ax w) (wp_ay w) (wp_az w)
    (wp_yaw w) (wp_mode w) (wp_ledr w) (wp_ledg w) (wp_ledb w).

Definition adjust_waypoints (waypoints : list waypoint)
    (initial_x initial_y initial_z : Q) : list waypoint :=
  map (adjust_waypoint initial_x initial_y initial_z) waypoints.

Section Loader.

(** [clamp_led_value] lives in [drone_show_src.utils], which is not part of
    the sources at hand; it is taken as a parameter that returns a value
    for whatever the row holds. *)
Variable clamp_led_value : cell -> Z.

(** The body of the [for idx, row in enumerate(rows)] loops: the fields are
    decoded in the order of the source, and the first failure wins.  With
    [auto] the down coordinate is read with [row.get("pz", 0.0)], without
    it with [row["pz"]]. *)
Definition decode_row (auto : bool) (r : row) : result waypoint :=
  (let? t := float_item (r_t r) in
   let? px := float_item (r_px r) in
   let? py := float_item (r_py r) in
   let? pz := (if auto then float_get (r_pz r) else float_item (r_pz r)) in
   let? vx := float_item (r_vx r) in
   let? vy := float_item (r_vy r) in
   let? vz := float_item (r_vz r) in
   let? ax := float_item (r_ax r) in
   let? ay := float_item (r_ay r) in
   let? az := float_item (r_az r) in
   let? yaw := float_item (r_yaw r) in
   let ledr := clamp_led_value (led_get (r_ledr r)) in
   let ledg := clamp_led_value (led_get (r_ledg r)) in
   let ledb := clamp_led_value (led_get (r_ledb r)) in
   let mode := mode_get (r_mode r) in
   Ok (mkWaypoint t px py pz vx vy vz ax ay az yaw mode ledr ledg ledb))%result.

(** The loop itself: a [ValueError] or [KeyError] is logged and the row is
    dropped; anything else leaves the loop (and reaches the outer handler
    of [read_trajectory_file]). *)
Fixpoint collect_waypoints (auto : bool) (rows : list row) : result (list waypoint) :=
  match rows with
  | [] => Ok []
  | r :: rest =>
      match decode_row auto r with
      | Ok w =>
          match collect_waypoints auto rest with
          | Ok ws => Ok (w :: ws)
          | Err e => Err e
          end
      | Err ValueError => collect_waypoints auto rest
      | Err KeyError => collect_waypoints auto rest
      | Err e => Err e
      end
  end.

(** [read_trajectory_file] on the rows of the file; [None] is
    [sys.exit(1)]. *)
Definition read_trajectory_file (rows : list row) (auto_launch_position : bool)
    (initial_x initial_y : Q) : option (list waypoint) :=
  match rows with
  | [] => None
  | first :: _ =>
      if auto_launch_position then
        match extract_initial_positions first with
        | Err _ => None
        | Ok (init_n, init_e, init_d) =>
            match collect_waypoints true rows with
            | Ok waypoints => Some (adjust_waypoints waypoints init_n init_e init_d)
            | Err _ => None
            end
        end
      else
        let init_d := 0 in
        match collect_waypoints false rows with
        | Ok waypoints => Some (adjust_waypoints waypoints initial_x initial_y init_d)
        | Err _ => None
        end
  end.

End Loader.

(** ** Configuration

    [src.params.Params] is not part of the sources at hand: the settings the
    program reads are the fields of a record, and every definition below is
    parameterised by it. *)
Record Params : Type := mkParams {
  DRIFT_CHECK_PERIOD : Q;
  GROUND_ALTITUDE_THRESHOLD : Q;
  ENABLE_INITIAL_POSITION_CORRECTION : bool;
  INITIAL_CLIMB_ALTITUDE_THRESHOLD : Q;
  INITIAL_CLIMB_TIME_THRESHOLD : Q;
  INITIAL_CLIMB_MODE : string;
  INITIAL_CLIMB_VZ_DEFAULT : Q;
  USE_GLOBAL_SETPOINTS : bool;
  FEEDFORWARD_VELOCITY_ENABLED : bool;
  FEEDFORWARD_ACCELERATION_ENABLED : bool;
  MISSION_PROGRESS_THRESHOLD : Q;
  CONTROLLED_LANDING_TIME : Q;
  CONTROLLED_LANDING_ALTITUDE : Q;
  CONTROLLED_DESCENT_SPEED : Q;
  LANDING_TIMEOUT : Q;
  REQUIRE_GLOBAL_POSITION : bool;
  PREFLIGHT_MAX_RETRIES : nat
}.

(** ** The vehicle link: setpoints, commands, events, answers *)

Record PositionNedYaw : Type := mkPositionNedYaw {
  north_m : Q; east_m : Q; down_m : Q; yaw_deg : Q
}.

Record VelocityBodyYawspeed : Type := mkVelocityBodyYawspeed {
  forward_m_s : Q; right_m_s : Q; vb_down_m_s : Q; yawspeed_deg_s : Q
}.

Record VelocityNedYaw : Type := mkVelocityNedYaw {
  north_m_s : Q; east_m_s : Q; down_m_s : Q; vn_yaw_deg : Q
}.

Record AccelerationNed : Type := mkAccelerationNed {
  north_m_s2 : Q; east_m_s2 : Q; down_m_s2 : Q
}.

(** Always built with [AltitudeType.AMSL]. *)
Record PositionGlobalYaw : Type := mkPositionGlobalYaw {
  lat_deg : Q; lon_deg : Q; alt_m : Q; pg_yaw_deg : Q
}.

Inductive command : Type :=
| set_velocity_body (v : VelocityBodyYawspeed)
| set_position_ned (p : PositionNedYaw)
| set_position_velocity_ned (p : PositionNedYaw) (v : VelocityNedYaw)
| set_position_velocity_acceleration_ned
    (p : PositionNedYaw) (v : VelocityNedYaw) (a : AccelerationNed)
| set_position_global (g : PositionGlobalYaw)
| set_velocity_ned (v : VelocityNedYaw)
| offboard_start
| offboard_stop
| action_hold
| action_arm
| action_disarm
| action_land.

(** What the program does to the outside, in order.  A setpoint that
    [perform_trajectory] sends for the waypoint under the cursor is a
    [Dispatch] and carries the cursor; every other awaited command is a
    [Call]. *)
Inductive event : Type :=
| Call (c : command)
| Dispatch (index : nat) (c : command)
| Led (r g b : Z)
| Sleep (seconds : Q)
| HttpGet.

Inductive LandedState : Type :=
| UNKNOWN | ON_GROUND | IN_AIR | TAKING_OFF | LANDING.

(** The value of [response.json()]: an object, of which only the members
    [x], [y], [z] matter (numbers when present), or any other JSON value
    (array, string, number, [null]). *)
Inductive json : Type :=
| JObject (x y z : option Q)
| JOther.

(** What the outside answers to one call of the program. *)
Inductive response : Type :=
| Clock (now : Q)                 (* time.time() *)
| Done                            (* an awaited command returned *)
| Fails (e : exn)                 (* the call raised *)
| AttitudeEuler (yaw : Q)         (* first item of telemetry.attitude_euler() *)
| Landed (st : LandedState)       (* first item of telemetry.landed_state() *)
| HttpResponse (status_code : Z) (body : option json).
                                  (* requests.get returned; no body: not JSON *)

(** ** Session state *)

Record session : Type := mkSession {
  script : list response;
  trace : list event;
  (* module globals *)
  initial_position_drift : option PositionNedYaw;
  drift_delta : Q;
  (* locals of perform_trajectory *)
  waypoint_index : nat;
  landing_detected : bool;
  in_initial_climb : bool;
  initial_climb_completed : bool;
  initial_climb_start_time : Q;
  initial_climb_yaw : option Q;
  (* local landing_detected of controlled_landing *)
  cl_landing_detected : bool
}.

Definition with_script (x : list response) (s : session) : session :=
  mkSession x (trace s) (initial_position_drift s) (drift_delta s)
    (waypoint_index s) (landing_detected s) (in_initial_climb s)
    (initial_climb_completed s) (initial_climb_start_time s)
    (initial_climb_yaw s) (cl_landing_detected s).

Definition with_trace (x : list event) (s : session) : session :=
  mkSession (script s) x (initial_position_drift s) (drift_delta s)
    (waypoint_index s) (landing_detected s) (in_initial_climb s)
    (initial_climb_completed s) (initial_climb_start_time s)
    (initial_climb_yaw s) (cl_landing_detected s).

Definition with_initial_position_drift (x : option PositionNedYaw) (s : session) : session :=
  mkSession (script s) (trace s) x (drift_delta s)
    (waypoint_index s) (landing_detected s) (in_initial_climb s)
    (initial_climb_completed s) (initial_climb_start_time s)
    (initial_climb_yaw s) (cl_landing_detected s).

Definition with_drift_delta (x : Q) (s : session) : session :=
  mkSession (script s) (trace s) (initial_position_drift s) x
    (waypoint_index s) (landing_detected s) (in_initial_climb s)
    (initial_climb_completed s) (initial_climb_start_time s)
    (initial_climb_yaw s) (cl_landing_detected s).

Definition with_waypoint_index (x : nat) (s : session) : session :=
  mkSession (script s) (trace s) (initial_position_drift s) (drift_delta s)
    x (landing_detected s) (in_initial_climb s)
    (initial_climb_completed s) (initial_climb_start_time s)
    (initial_climb_yaw s) (cl_landing_detected s).

Definition with_landing_detected (x : bool) (s : session) : session :=
  mkSession (script s) (trace s) (initial_position_drift s) (drift_delta s)
    (waypoint_index s) x (in_initial_climb s)
    (initial_climb_completed s) (initial_climb_start_time s)
    (initial_climb_yaw s) (cl_landing_detected s).

Definition with_in_initial_climb (x : bool) (s : session) : session :=
  mkSession (script s) (trace s) (initial_position_drift s) (drift_delta s)
    (waypoint_index s) (landing_detected s) x
    (initial_climb_completed s) (initial_climb_start_time s)
    (initial_climb_yaw s) (cl_landing_detected s).

Definition with_initial_climb_completed (x : bool) (s : session) : session :=
  mkSession (script s) (trace s) (initial_position_drift s) (drift_delta s)
    (waypoint_index s) (landing_detected s) (in_initial_climb s)
    x (initial_climb_start_time s)
    (initial_climb_yaw s) (cl_landing_detected s).

Definition with_initial_climb_start_time (x : Q) (s : session) : session :=
  mkSession (script s) (trace s) (initial_position_drift s) (drift_delta s)
    (waypoint_index s) (landing_detected s) (in_initial_climb s)
    (initial_climb_completed s) x
    (initial_climb_yaw s) (cl_landing_detected s).

Definition with_initial_climb_yaw (x : option Q) (s : session) : session :=
  mkSession (script s) (trace s) (initial_position_drift s) (drift_delta s)
    (waypoint_index s) (landing_detected s) (in_initial_climb s)
    (initial_climb_completed s) (initial_climb_start_time s)
    x (cl_landing_detected s).

Definition with_cl_landing_detected (x : bool) (s : session) : session :=
  mkSession (script s) (trace s) (initial_position_drift s) (drift_delta s)
    (waypoint_index s) (landing_detected s) (in_initial_climb s)
    (initial_climb_completed s) (initial_climb_start_time s)
    (initial_climb_yaw s) x.

(** ** The monad of the coroutines *)

(** A computation returns, raises a Python exception, or is [Stuck]: the
    script had no answer (or an answer of the wrong kind) for a call, or a
    loop ran out of fuel. *)
Inductive outcome (A : Type) : Type :=
| Ret (a : A)
| Raise (e : exn)
| Stuck.
Arguments Ret {A} a.
Arguments Raise {A} e.
Arguments Stuck {A}.

Definition M (A : Type) : Type := session -> outcome A * session.

Definition ret {A} (a : A) : M A := fun s => (Ret a, s).

Definition bind {A B} (m : M A) (k : A -> M B) : M B :=
  fun s =>
    match m s with
    | (Ret a, s') => k a s'
    | (Raise e, s') => (Raise e, s')
    | (Stuck, s') => (Stuck, s')
    end.

Definition raise {A} (e : exn) : M A := fun s => (Raise e, s).

Definition stuck {A} : M A := fun s => (Stuck, s).

(** [try: m  except ... as e: handler e] *)
Definition try_except {A} (m : M A) (handler : exn -> M A) : M A :=
  fun s =>
    match m s with
    | (Raise e, s') => handler e s'
    | r => r
    end.

Definition get : M session := fun s => (Ret s, s).

Definition modify (f : session -> session) : M unit := fun s => (Ret tt, f s).

Definition of_result {A} (r : result A) : M A :=
  match r with
  | Ok a => ret a
  | Err e => raise e
  end.

Declare Scope monad_scope.
Delimit Scope monad_scope with monad.
Notation "x <- m ;; k" := (bind m (fun x => k))
  (at level 61, m at next level, right associativity) : monad_scope.
Notation "m ;; k" := (bind m (fun _ => k))
  (at level 61, right associativity) : monad_scope.

Local Open Scope monad_scope.

Definition emit (e : event) : M unit :=
  modify (fun s => with_trace (trace s ++ [e]) s).

Definition next_response : M response :=
  fun s =>
    match script s with
    | [] => (Stuck, s)
    | r :: rest => (Ret r, with_script rest s)
    end.

(** [time.time()] *)
Definition time_time : M Q :=
  r <- next_response ;;
  match r with
  | Clock now => ret now
  | _ => stuck
  end.

Definition answer : M unit :=
  r <- next_response ;;
  match r with
  | Done => ret tt
  | Fails e => raise e
  | _ => stuck
  end.

(** [await drone.<plugin>.<c>(...)] outside the waypoint dispatch *)
Definition await_call (c : command) : M unit :=
  emit (Call c) ;; answer.

(** the same for the setpoint of waypoint [index] *)
Definition await_dispatch (index : nat) (c : command) : M unit :=
  emit (Dispatch index c) ;; answer.

(** [async for e in drone.telemetry.attitude_euler(): ...; break] *)
Definition first_attitude_euler : M Q :=
  r <- next_response ;;
  match r with
  | AttitudeEuler yaw => ret yaw
  | Fails e => raise e
  | _ => stuck
  end.

(** [async for landed_state in drone.telemetry.landed_state(): ...; break] *)
Definition first_landed_state : M LandedState :=
  r <- next_response ;;
  match r with
  | Landed st => ret st
  | Fails e => raise e
  | _ => stuck
  end.

(** [requests.get(url, timeout=2)] *)
Definition requests_get : M (Z * option json) :=
  emit HttpGet ;;
  r <- next_response ;;
  match r with
  | HttpResponse status_code body => ret (status_code, body)
  | Fails e => raise e
  | _ => stuck
  end.

(** [led_controller.set_color(r, g, b)] *)
Definition set_color (r g b : Z) : M unit := emit (Led r g b).

(** [await asyncio.sleep(seconds)] *)
Definition asyncio_sleep (seconds : Q) : M unit := emit (Sleep seconds).

(** A loop is a [Fixpoint] on fuel.  Every iteration of every loop below
    asks the outside at least one thing, so one unit of fuel more than the
    script is long never runs out before the script does. *)
Definition fueled {A} (loop : nat -> M A) : M A :=
  fun s => loop (S (List.length (script s))) s.

Inductive flow : Type := Next | Break.

Definition is_on_ground (st : LandedState) : bool :=
  match st with
  | ON_GROUND => true
  | _ => false
  end.

(** The truth value of a dictionary-or-[None]. *)
Definition truthy {A} (x : option A) : bool :=
  match x with
  | Some _ => true
  | None => false
  end.

(** [waypoints[i]] *)
Definition item (waypoints : list waypoint) (i : nat) : result waypoint :=
  match nth_error waypoints i with
  | Some w => Ok w
  | None => Err IndexError
  end.

(** [waypoints[-1]] *)
Definition last_item (waypoints : list waypoint) : result waypoint :=
  item waypoints (List.length waypoints - 1).

(** ** Landing *)

Section Flight.

Variable P : Params.

(** [pymap3d.ned2geodetic(n, e, d, lat0, lon0, h0)], an outside library. *)
Variable ned2geodetic : Q -> Q -> Q -> Q -> Q -> Q -> Q * Q * Q.

Definition stop_offboard_mode : M unit :=
  try_except (await_call offboard_stop) (fun _ => ret tt).

(** The [while True] loop of [perform_landing]; [wait_for_landing] has the
    same loop.  It returns on the first "on ground" sample and on timeout. *)
Fixpoint landing_wait_loop (fuel : nat) (start_time : Q) : M unit :=
  match fuel with
  | O => stuck
  | S fuel' =>
      landed_state <- first_landed_state ;;
      if is_on_ground landed_state then ret tt
      else
        now <- time_time ;;
        if Qltb (LANDING_TIMEOUT P) (now - start_time) then ret tt
        else asyncio_sleep 1 ;; landing_wait_loop fuel' start_time
  end.

Definition perform_landing : M unit :=
  try_except
    (await_call action_land ;;
     start_time <- time_time ;;
     fueled (fun fuel => landing_wait_loop fuel start_time))
    (fun _ => ret tt).

Definition wait_for_landing : M unit :=
  start_time <- time_time ;;
  fueled (fun fuel => landing_wait_loop fuel start_time).

Definition disarm_drone : M unit :=
  try_except
    (await_call action_disarm ;;
     set_color 255 0 0)
    (fun _ => ret tt).

Definition descent_setpoint : command :=
  set_velocity_ned (mkVelocityNedYaw 0 0 (CONTROLLED_DESCENT_SPEED P) 0).

(** One pass through the [try] of the [while not landing_detected] loop of
    [controlled_landing]. *)
Definition controlled_landing_pass (landing_start_time : Q) : M flow :=
  await_call descent_setpoint ;;
  landed_state <- first_landed_state ;;
  (if is_on_ground landed_state
   then modify (with_cl_landing_detected true)
   else ret tt) ;;
  now <- time_time ;;
  if Qltb (LANDING_TIMEOUT P) (now - landing_start_time) then
    stop_offboard_mode ;;
    perform_landing ;;
    ret Break
  else
    asyncio_sleep (1 # 10) ;;
    ret Next.

Fixpoint controlled_landing_loop (fuel : nat) (landing_start_time : Q) : M unit :=
  match fuel with
  | O => stuck
  | S fuel' =>
      s <- get ;;
      if cl_landing_detected s then ret tt
      else
        fl <- try_except
                (controlled_landing_pass landing_start_time)
                (fun _ => set_color 255 0 0 ;; ret Break) ;;
        match fl with
        | Next => controlled_landing_loop fuel' landing_start_time
        | Break => ret tt
        end
  end.

(** What follows the loop of [controlled_landing]. *)
Definition controlled_landing_finish : M unit :=
  s <- get ;;
  (if cl_landing_detected s then
     stop_offboard_mode ;;
     disarm_drone
   else
     stop_offboard_mode ;;
     perform_landing) ;;
  set_color 0 255 0.

(** The first descent setpoint is sent in a [try] of its own, whose handler
    for [OffboardError] sets the LED red and returns; any other exception
    leaves [controlled_landing]. *)
Definition controlled_landing : M unit :=
  modify (with_cl_landing_detected false) ;;
  landing_start_time <- time_time ;;
  entered <- try_except
               (await_call descent_setpoint ;; ret true)
               (fun e =>
                  match e with
                  | OffboardError => set_color 255 0 0 ;; ret false
                  | _ => raise e
                  end) ;;
  if entered : bool then
    fueled (fun fuel => controlled_landing_loop fuel landing_start_time) ;;
    controlled_landing_finish
  else ret tt.

(** ** Arming *)

Definition compute_position_drift : M (option PositionNedYaw) :=
  try_except
    (response <- requests_get ;;
     let '(status_code, body) := response in
     if (status_code =? 200)%Z then
       match body with
       | None => raise RequestException
           (* response.json() raises requests.exceptions.JSONDecodeError,
              a RequestException *)
       | Some JOther => raise TypeError
           (* ned_data['x'] on a value that is not an object *)
       | Some (JObject x y z) =>
           match x, y, z with
           | Some x, Some y, Some z => ret (Some (mkPositionNedYaw x y z 0))
           | _, _, _ => raise KeyError
           end
       end
     else ret None)
    (fun e =>
       match e with
       | RequestException => ret None
       | KeyError => ret None
       | _ => raise e
       end).

(** The body of [arming_and_starting_offboard_mode]: one attempt.
    [home_position] is the dictionary of [pre_flight_checks] or [None]. *)
Definition arming_attempt (home_position : option (Q * Q * Q)) : M unit :=
  try_except
    (set_color 0 255 0 ;;
     (if REQUIRE_GLOBAL_POSITION P && truthy home_position then
        drift <- compute_position_drift ;;
        modify (with_initial_position_drift drift)
      else ret tt) ;;
     await_call action_hold ;;
     await_call action_arm ;;
     await_call (set_velocity_body (mkVelocityBodyYawspeed 0 0 0 0)) ;;
     await_call offboard_start ;;
     set_color 255 255 255)
    (fun e =>
       await_call action_disarm ;;
       set_color 255 0 0 ;;
       raise e).

(** [@retry(stop=stop_after_attempt(n), wait=wait_fixed(w))]: after a
    failed attempt, give up with [RetryError] when no attempt is left, else
    wait and try again. *)
Fixpoint retry_loop {A} (more : nat) (wait : Q) (m : M A) : M A :=
  try_except m
    (fun _ =>
       match more with
       | O => raise RetryError
       | S more' => asyncio_sleep wait ;; retry_loop more' wait m
       end).

Definition retry {A} (stop_after_attempt : nat) (wait_fixed : Q) (m : M A) : M A :=
  retry_loop (Nat.pred stop_after_attempt) wait_fixed m.

Definition arming_and_starting_offboard_mode (home_position : option (Q * Q * Q)) : M unit :=
  retry (PREFLIGHT_MAX_RETRIES P) 2 (arming_attempt home_position).

(** ** The execution loop *)

Definition DRIFT_CATCHUP_MAX_SEC : Q := 5 # 10.
Definition AHEAD_SLEEP_STEP_SEC : Q := 1 # 10.

(** The block that is written twice in the source, before the climb gate
    and after a skip: the position correction. *)
Definition corrected_position (drift : option PositionNedYaw) (w : waypoint) : Q * Q * Q :=
  if ENABLE_INITIAL_POSITION_CORRECTION P then
    match drift with
    | Some d => (wp_px w + north_m d, wp_py w + east_m d, wp_pz w + down_m d)
    | None => (wp_px w, wp_py w, wp_pz w)
    end
  else (wp_px w, wp_py w, wp_pz w).

Section Trajectory.

Variable waypoints : list waypoint.
Variable start_time : Q.
Variables launch_lat launch_lon launch_alt : Q.

Definition total_waypoints : nat := List.length waypoints.

(** Locals of [perform_trajectory] that are set once before the loop. *)
Variable csv_step : Q.
Variable trajectory_ends_high : bool.

Definition advance : M unit :=
  modify (fun s => with_waypoint_index (waypoint_index s + 1) s).

(** (1) the climb gate: sets [in_initial_climb], and
    [initial_climb_completed] the first time the gate opens. *)
Definition climb_gate (now pz : Q) : M unit :=
  s <- get ;;
  let time_in_climb := now - initial_climb_start_time s in
  if negb (initial_climb_completed s) then
    let actual_alt := - pz in
    let under_alt := Qltb actual_alt (INITIAL_CLIMB_ALTITUDE_THRESHOLD P) in
    let under_time := Qltb time_in_climb (INITIAL_CLIMB_TIME_THRESHOLD P) in
    modify (with_in_initial_climb (under_alt || under_time)) ;;
    if negb (under_alt || under_time)
    then modify (with_initial_climb_completed true)
    else ret tt
  else modify (with_in_initial_climb false).

(** the branch [if in_initial_climb:], up to its [continue] *)
Definition climb_send (w : waypoint) (px py pz : Q) : M flow :=
  s <- get ;;
  (if String.eqb (INITIAL_CLIMB_MODE P) "BODY_VELOCITY" then
     let vz_climb :=
       if Qltb (1 # 1000000) (Qabs (wp_vz w)) then wp_vz w
       else INITIAL_CLIMB_VZ_DEFAULT P in
     (match initial_climb_yaw s with
      | None => modify (with_initial_climb_yaw (Some (wp_yaw w)))
      | Some _ => ret tt
      end) ;;
     await_dispatch (waypoint_index s)
       (set_velocity_body (mkVelocityBodyYawspeed 0 0 (- vz_climb) 0))
   else
     yaw <- (match initial_climb_yaw s with
             | None =>
                 yaw <- first_attitude_euler ;;
                 modify (with_initial_climb_yaw (Some yaw)) ;;
                 ret yaw
             | Some yaw => ret yaw
             end) ;;
     await_dispatch (waypoint_index s)
       (set_position_ned (mkPositionNedYaw px py pz yaw))) ;;
  advance ;;
  ret Next.

(** (2) [skip_count = int(safe_drift / csv_step)]: the division raises on a
    zero divisor and returns the quotient rounded to binary64; [int]
    truncates it, and raises [OverflowError] on an infinity. *)
Definition skip_count_of (drift : Q) : result Z :=
  let safe_drift := py_min drift DRIFT_CATCHUP_MAX_SEC in
  if Qeq_bool csv_step 0 then Err ZeroDivisionError
  else
    match b64_round (safe_drift / csv_step) with
    | Some quotient => Ok (py_int quotient)
    | None => Err OverflowError
    end.

(** [min(waypoint_index + skip_count, total_waypoints - 1)] *)
Definition skip_target (index : nat) (skip_count : Z) : nat :=
  Nat.min (index + Z.to_nat skip_count) (total_waypoints - 1).

(** (4) the four ways of sending the setpoint *)
Definition dispatch (index : nat) (w : waypoint) (px py pz : Q) : M unit :=
  let '(lla_lat, lla_lon, lla_alt) :=
    ned2geodetic px py pz launch_lat launch_lon launch_alt in
  let raw_yaw := wp_yaw w in
  if USE_GLOBAL_SETPOINTS P then
    await_dispatch index
      (set_position_global (mkPositionGlobalYaw lla_lat lla_lon lla_alt raw_yaw))
  else
    let ln := mkPositionNedYaw px py pz raw_yaw in
    if FEEDFORWARD_VELOCITY_ENABLED P && FEEDFORWARD_ACCELERATION_ENABLED P then
      await_dispatch index
        (set_position_velocity_acceleration_ned ln
           (mkVelocityNedYaw (wp_vx w) (wp_vy w) (wp_vz w) raw_yaw)
           (mkAccelerationNed (wp_ax w) (wp_ay w) (wp_az w)))
    else if FEEDFORWARD_VELOCITY_ENABLED P then
      await_dispatch index
        (set_position_velocity_ned ln
           (mkVelocityNedYaw (wp_vx w) (wp_vy w) (wp_vz w) raw_yaw))
    else
      await_dispatch index (set_position_ned ln).

(** (5) progress and the landing trigger, then [waypoint_index += 1] *)
Definition landing_decision (t_wp current_alt_sp : Q) : M flow :=
  last <- of_result (last_item waypoints) ;;
  s <- get ;;
  let time_to_end := wp_t last - t_wp in
  let prog := inject_Z (Z.of_nat (waypoint_index s + 1))
              / inject_Z (Z.of_nat total_waypoints) in
  if negb trajectory_ends_high && Qleb (MISSION_PROGRESS_THRESHOLD P) prog then
    if Qleb time_to_end (CONTROLLED_LANDING_TIME P)
       || Qltb current_alt_sp (CONTROLLED_LANDING_ALTITUDE P) then
      controlled_landing ;;
      modify (with_landing_detected true) ;;
      ret Break
    else advance ;; ret Next
  else advance ;; ret Next.

(** The rest of Case A once the climb gate is open. *)
Definition cruise (w : waypoint) (px py pz : Q) : M flow :=
  s <- get ;;
  skip_count <- of_result (skip_count_of (drift_delta s)) ;;
  if (0 <? skip_count)%Z then
    let index := skip_target (waypoint_index s) skip_count in
    modify (with_waypoint_index index) ;;
    w' <- of_result (item waypoints index) ;;
    let '(px', py', pz') := corrected_position (initial_position_drift s) w' in
    dispatch index w' px' py' pz' ;;
    set_color (wp_ledr w') (wp_ledg w') (wp_ledb w') ;;
    landing_decision (wp_t w') (- pz')
  else
    dispatch (waypoint_index s) w px py pz ;;
    set_color (wp_ledr w) (wp_ledg w) (wp_ledb w) ;;
    landing_decision (wp_t w) (- pz).

(** Case A: on time or behind schedule *)
Definition on_time_or_late (now : Q) (w : waypoint) : M flow :=
  s <- get ;;
  let '(px, py, pz) := corrected_position (initial_position_drift s) w in
  climb_gate now pz ;;
  set_color (wp_ledr w) (wp_ledg w) (wp_ledb w) ;;
  s <- get ;;
  if in_initial_climb s then climb_send w px py pz
  else cruise w px py pz.

(** Case B: ahead of schedule *)
Definition ahead_of_schedule (t_wp elapsed : Q) : M flow :=
  let sleep_duration := t_wp - elapsed in
  if Qltb 0 sleep_duration then
    asyncio_sleep (py_min sleep_duration AHEAD_SLEEP_STEP_SEC) ;;
    ret Next
  else
    advance ;;
    ret Next.

(** The body of the [try] inside [while waypoint_index < total_waypoints]. *)
Definition iteration : M flow :=
  now <- time_time ;;
  s <- get ;;
  let elapsed := now - start_time in
  w <- of_result (item waypoints (waypoint_index s)) ;;
  let t_wp := wp_t w in
  modify (with_drift_delta (elapsed - t_wp)) ;;
  if Qleb 0 (elapsed - t_wp) then on_time_or_late now w
  else ahead_of_schedule t_wp elapsed.

(** The [try] with its two handlers, which do the same: LED red, [break]. *)
Definition guarded_iteration : M flow :=
  try_except iteration (fun _ => set_color 255 0 0 ;; ret Break).

Fixpoint trajectory_loop (fuel : nat) : M unit :=
  match fuel with
  | O => stuck
  | S fuel' =>
      s <- get ;;
      if (waypoint_index s <? total_waypoints)%nat then
        fl <- guarded_iteration ;;
        match fl with
        | Next => trajectory_loop fuel'
        | Break => ret tt
        end
      else ret tt
  end.

(** Post-trajectory landing handling, and the final green. *)
Definition post_trajectory : M unit :=
  s <- get ;;
  (if negb (landing_detected s) then
     if trajectory_ends_high then
       stop_offboard_mode ;;
       perform_landing ;;
       wait_for_landing
     else controlled_landing
   else ret tt) ;;
  set_color 0 255 0.

End Trajectory.

(** Time step between CSV rows (for the drift-skip calculation). *)
Definition csv_step_of (waypoints : list waypoint) : result Q :=
  if (1 <? total_waypoints waypoints)%nat then
    (let? w1 := item waypoints 1 in
     let? w0 := item waypoints 0 in
     Ok (wp_t w1 - wp_t w0))%result
  else Ok (DRIFT_CHECK_PERIOD P).

(** [final_altitude > Params.GROUND_ALTITUDE_THRESHOLD] *)
Definition trajectory_ends_high_of (waypoints : list waypoint) : result bool :=
  (let? last := last_item waypoints in
   let final_altitude := - wp_pz last in
   Ok (Qltb (GROUND_ALTITUDE_THRESHOLD P) final_altitude))%result.

Definition perform_trajectory (waypoints : list waypoint) (start_time : Q)
    (launch_lat launch_lon launch_alt : Q) : M unit :=
  modify (with_waypoint_index 0) ;;
  modify (with_landing_detected false) ;;
  modify (with_in_initial_climb true) ;;
  modify (with_initial_climb_completed false) ;;
  now <- time_time ;;
  modify (with_initial_climb_start_time now) ;;
  modify (with_initial_climb_yaw None) ;;
  csv_step <- of_result (csv_step_of waypoints) ;;
  trajectory_ends_high <- of_result (trajectory_ends_high_of waypoints) ;;
  fueled (trajectory_loop waypoints start_time launch_lat launch_lon launch_alt
            csv_step trajectory_ends_high) ;;
  post_trajectory trajectory_ends_high.

End Flight.

(** ** Sample data *)

Definition no_clamp (c : cell) : Z := 0%Z.

Definition sample_row (t px py pz : Q) : row :=
  mkRow (Num t) (Num px) (Num py) (Num pz)
    (Num 0) (Num 0) (Num 0) (Num 0) (Num 0) (Num 0) (Num 0)
    None Absent Absent Absent.

(** A row whose position decodes and whose velocity does not. *)
Definition garbled_velocity_row (t px py pz : Q) : row :=
  mkRow (Num t) (Num px) (Num py) (Num pz)
    Garbled (Num 0) (Num 0) (Num 0) (Num 0) (Num 0) (Num 0)
    None Absent Absent Absent.

Definition sample_waypoint (t px py pz : Q) : waypoint :=
  mkWaypoint t px py pz 0 0 0 0 0 0 0 "0" 0 0 0.

Definition demo_params : Params :=
  mkParams
    (1 # 2)          (* DRIFT_CHECK_PERIOD *)
    1                (* GROUND_ALTITUDE_THRESHOLD *)
    false            (* ENABLE_INITIAL_POSITION_CORRECTION *)
    0                (* INITIAL_CLIMB_ALTITUDE_THRESHOLD *)
    0                (* INITIAL_CLIMB_TIME_THRESHOLD *)
    "BODY_VELOCITY"  (* INITIAL_CLIMB_MODE *)
    1                (* INITIAL_CLIMB_VZ_DEFAULT *)
    false            (* USE_GLOBAL_SETPOINTS *)
    false            (* FEEDFORWARD_VELOCITY_ENABLED *)
    false            (* FEEDFORWARD_ACCELERATION_ENABLED *)
    (1 # 2)          (* MISSION_PROGRESS_THRESHOLD *)
    1                (* CONTROLLED_LANDING_TIME *)
    1                (* CONTROLLED_LANDING_ALTITUDE *)
    (1 # 2)          (* CONTROLLED_DESCENT_SPEED *)
    10               (* LANDING_TIMEOUT *)
    true             (* REQUIRE_GLOBAL_POSITION *)
    3.               (* PREFLIGHT_MAX_RETRIES *)

(** The same settings with a climb gate that holds for the first two
    seconds. *)
Definition climbing_params : Params :=
  mkParams (1 # 2) 1 false 0 2 "BODY_VELOCITY" 1 false false false
    (1 # 2) 1 1 (1 # 2) 10 true 3.

Definition flat_geodetic (n e d lat lon alt : Q) : Q * Q * Q := (lat + n, lon + e, alt - d).

(** A session at the head of the loop: cursor [index], nothing sent yet,
    the climb started at [climb_start]. *)
Definition loop_session (answers : list response) (index : nat)
    (climb_done : bool) (climb_start : Q) : session :=
  mkSession answers [] None 0 index false true climb_done climb_start None false.


(** The binary64 number that the text [0.1] reads as. *)
Definition tenth : Q := 3602879701896397 # 36028797018963968.







(** Three samples one second apart, five metres up. *)
Definition three_high : list waypoint :=
  [sample_waypoint 0 0 0 (- (5)); sample_waypoint 1 0 0 (- (5));
   sample_waypoint 2 0 0 (- (5))].


(** A reply of the position service with status 200 whose body is JSON but
    not an object. *)
Definition not_an_object : response := HttpResponse 200 (Some JOther).






(** Three iterations on [three_high], every command accepted. *)
Definition three_high_session : session :=
  loop_session [Clock 0; Done; Clock 1; Done; Clock 2; Done] 0 true 0.

Definition three_high_run : outcome unit * session :=
  trajectory_loop demo_params flat_geodetic three_high 0 0 0 0 1 true 7
    three_high_session.

(** The first climb setpoint is refused; the outside would have answered a
    second iteration. *)
Definition climb_error_session : session :=
  loop_session [Clock 0; Fails OffboardError; Clock 1; Done] 0 false 0.

Definition climb_error_raised : session :=
  mkSession [Clock 1; Done]
    [Led 0 0 0; Dispatch 0 (set_velocity_body (mkVelocityBodyYawspeed 0 0 (- (1)) 0))]
    None (0 - 0 - 0) 0 false true false 0 (Some 0) false.


(** The failures of the fetch that [compute_position_drift] turns into "no
    correction": the request raised a [RequestException] (timeout,
    connection error), the status is not 200, the body is not JSON, or the
    JSON object lacks one of [x], [y], [z]. *)
Definition handled_fetch_failure (r : response) : bool :=
  match r with
  | Fails RequestException => true
  | HttpResponse status_code body =>
      if (status_code =? 200)%Z then
        match body with
        | None => true
        | Some (JObject (Some _) (Some _) (Some _)) => false
        | Some (JObject _ _ _) => true
        | Some JOther => false
        end
      else true
  | _ => false
  end.

(** ** Vocabulary of the statements *)

(** The cursors of the waypoint setpoints in a trace, in order. *)
Definition dispatched (tr : list event) : list nat :=
  flat_map (fun e => match e with Dispatch i _ => [i] | _ => [] end) tr.

(** [m] relates every session it is run in to the session it leaves. *)
Definition sat {A} (R : session -> session -> Prop) (m : M A) : Prop :=
  forall s r s', m s = (r, s') -> R s s'.

(** Neither the cursor nor the dispatched setpoints change. *)
Definition quiet (s s' : session) : Prop :=
  waypoint_index s' = waypoint_index s /\
  dispatched (trace s') = dispatched (trace s).


(** What one pass through the loop body may do to the cursor and to the
    dispatched setpoints, [total] being the number of waypoints. *)
Definition iteration_post (total : nat) (s : session) (r : outcome flow)
    (s' : session) : Prop :=
  (waypoint_index s <= waypoint_index s')%nat /\
  (waypoint_index s' <= total)%nat /\
  exists d,
    dispatched (trace s') = dispatched (trace s) ++ d /\
    (List.length d <= 1)%nat /\
    Forall (fun i => (waypoint_index s <= i < total)%nat) d /\
    (r = Ret Next -> Forall (fun i => (i < waypoint_index s')%nat) d).

(** ** The fleet configuration: [read_config] *)

(** What [int(row[key])] sees under a key. *)
Inductive icell : Type :=
| IAbsent
| IBlank
| IGarbled
| INum (z : Z).

(** What [row[key]] holds when it is not converted: nothing under that key,
    or the text (or [None] for a short row). *)
Inductive tcell : Type :=
| TAbsent
| TValue (v : option string).

Record config_row : Type := mkConfigRow {
  c_hw_id : icell;
  c_pos_id : icell;
  c_x : cell;
  c_y : cell;
  c_ip : tcell;
  c_mavlink_port : icell;
  c_debug_port : icell;
  c_gcs_ip : tcell
}.

(** The namedtuple [Drone]. *)
Record Drone : Type := mkDrone {
  hw_id : Z;
  pos_id : Z;
  initial_x : Q;
  initial_y : Q;
  ip : option string;
  mavlink_port : Z;
  debug_port : Z;
  gcs_ip : option string
}.

(** [int(row[key])] *)
Definition int_item (c : icell) : result Z :=
  match c with
  | IAbsent => Err KeyError
  | IBlank => Err TypeError
  | IGarbled => Err ValueError
  | INum z => Ok z
  end.

(** [row[key]] *)
Definition text_item (c : tcell) : result (option string) :=
  match c with
  | TAbsent => Err KeyError
  | TValue v => Ok v
  end.

(** [hw_id == HW_ID], the global being [None] until it is read. *)
Definition is_hw_id (HW_ID : option Z) (z : Z) : bool :=
  match HW_ID with
  | Some h => (z =? h)%Z
  | None => false
  end.

(** The body of the [if hw_id == HW_ID:] block. *)
Definition decode_drone (z : Z) (r : config_row) : result Drone :=
  (let? pos := int_item (c_pos_id r) in
   let? x := float_item (c_x r) in
   let? y := float_item (c_y r) in
   let? ip := text_item (c_ip r) in
   let? mav := int_item (c_mavlink_port r) in
   let? dbg := int_item (c_debug_port r) in
   let? gcs := text_item (c_gcs_ip r) in
   Ok (mkDrone z pos x y ip mav dbg gcs))%result.

(** The body of the inner [try]: [None] when the row is of another drone. *)
Definition config_row_step (HW_ID : option Z) (r : config_row) : result (option Drone) :=
  (let? z := int_item (c_hw_id r) in
   if is_hw_id HW_ID z then
     let? d := decode_drone z r in Ok (Some d)
   else Ok None)%result.

(** [read_config] on the rows of the file: a [ValueError] in a row is
    logged and the next row is tried; any other exception reaches the
    outer handler, which returns [None]; so does the end of the file. *)
Fixpoint read_config (HW_ID : option Z) (rows : list config_row) : option Drone :=
  match rows with
  | [] => None
  | r :: rest =>
      match config_row_step HW_ID r with
      | Ok (Some d) => Some d
      | Ok None => read_config HW_ID rest
      | Err ValueError => read_config HW_ID rest
      | Err _ => None
      end
  end.

(** A row that the loop of [read_config] passes over. *)
Definition passed_over (HW_ID : option Z) (r : config_row) : Prop :=
  config_row_step HW_ID r = Ok None \/ config_row_step HW_ID r = Err ValueError.

(** The row decodes: the loop of the loader keeps it. *)
Definition decodes (clamp_led_value : cell -> Z) (auto : bool) (r : row) : bool :=
  match decode_row clamp_led_value auto r with
  | Ok _ => true
  | Err _ => false
  end.

(** The rows of a trajectory file that decode, in the order of the file. *)
Definition decodable (clamp_led_value : cell -> Z) (auto : bool) (rows : list row)
    : list waypoint :=
  flat_map (fun r => match decode_row clamp_led_value auto r with
                     | Ok w => [w]
                     | Err _ => []
                     end) rows.

(** ** More sample data *)

Definition sample_config_row (id : icell) (port : icell) : config_row :=
  mkConfigRow id (INum 1) (Num 2) (Num 3) (TValue (Some "10.0.0.1"%string))
    port (INum 13540) (TValue (Some "10.0.0.100"%string)).

Definition sample_drone (id : Z) : Drone :=
  mkDrone id 1 2 3 (Some "10.0.0.1"%string) 14550 13540 (Some "10.0.0.100"%string).

(** ** More vocabulary *)

(** The commands awaited outside the waypoint dispatch, in order. *)
Definition calls (tr : list event) : list command :=
  flat_map (fun e => match e with Call c => [c] | _ => [] end) tr.

(** The waits of a trace, in order. *)
Definition sleeps (tr : list event) : list Q :=
  flat_map (fun e => match e with Sleep d => [d] | _ => [] end) tr.

(** The trace only grows. *)
Definition extends (s s' : session) : Prop :=
  exists new, trace s' = trace s ++ new.

(** The globals and the locals of [perform_trajectory] are as they were. *)
Definition same_locals (s s' : session) : Prop :=
  initial_position_drift s' = initial_position_drift s /\
  drift_delta s' = drift_delta s /\
  waypoint_index s' = waypoint_index s /\
  landing_detected s' = landing_detected s /\
  in_initial_climb s' = in_initial_climb s /\
  initial_climb_completed s' = initial_climb_completed s /\
  initial_climb_start_time s' = initial_climb_start_time s /\
  initial_climb_yaw s' = initial_climb_yaw s.

Definition landing_rel (s s' : session) : Prop :=
  same_locals s s' /\ extends s s'.

(** A completed climb stays completed, and a yaw once held stays held. *)
Definition climb_stays_done (s s' : session) : Prop :=
  (initial_climb_completed s = true -> initial_climb_completed s' = true) /\
  (forall y, initial_climb_yaw s = Some y -> initial_climb_yaw s' = Some y).

(** No command outside the dispatch is sent, and no landing is recorded. *)
Definition keeps_calls (s s' : session) : Prop :=
  calls (trace s') = calls (trace s) /\
  landing_detected s' = landing_detected s.

(** The local [landing_detected] of [controlled_landing] is as it was. *)
Definition keeps_cl_landing_detected (s s' : session) : Prop :=
  cl_landing_detected s' = cl_landing_detected s.

(** The answers to passes of the loop of [controlled_landing] that end with
    a wait: per pass the descent setpoint accepted, a landed state, and the
    clock. *)
Definition descent_polls (polls : list (LandedState * Q)) : list response :=
  flat_map (fun p => [Done; Landed (fst p); Clock (snd p)]) polls.

(** What such passes send and wait. *)
Definition descent_events (P : Params) (polls : list (LandedState * Q)) : list event :=
  flat_map (fun _ => [Call (descent_setpoint P); Sleep (1 # 10)]) polls.

(** The answers of the outside are used up in order: what is left of the
    script is an end of what there was. *)
Definition consumes (s s' : session) : Prop :=
  exists used, script s = used ++ script s'.

Definition no_raise {A} (m : M A) : Prop :=
  forall s e s', m s <> (Raise e, s').

(** [m] breaks out of the loop only with a landing recorded. *)
Definition breaks_landed (m : M flow) : Prop :=
  forall s s', m s = (Ret Break, s') -> landing_detected s' = true.

(** The waits of the trace are as they were. *)
Definition keeps_sleeps (s s' : session) : Prop :=
  sleeps (trace s') = sleeps (trace s).

(** The commands of a successful arming sequence, in order. *)
Definition arming_commands : list event :=
  [Call action_hold; Call action_arm;
   Call (set_velocity_body (mkVelocityBodyYawspeed 0 0 0 0));
   Call offboard_start; Led 255 255 255].

(** ** Pre-flight checks *)

(** The exceptions met in [pre_flight_checks]: those of [exn], and the two
    built-in ones that it raises itself. *)
Inductive preflight_exn : Type :=
| Known (e : exn)
| TimeoutError
| RuntimeError.

Record Health : Type := mkHealth {
  is_global_position_ok : bool;
  is_home_position_ok : bool
}.

(** What the stream [drone.telemetry.health()] delivers next: an update,
    with the reading of [time.time()] taken when it is handled, or an
    exception. *)
Inductive health_update : Type :=
| HealthAt (now : Q) (health : Health)
| HealthFails (e : exn).

(** The outside of [pre_flight_checks]: the clock at its start, the health
    stream, the answer of [get_gps_global_origin()] and the first item of
    [drone.telemetry.position()] ([None] for a stream that ends without
    one), the positions as (latitude, longitude, altitude). *)
Record preflight_world : Type := mkPreflightWorld {
  pf_start_time : Q;
  pf_health : list health_update;
  pf_origin : result (Q * Q * Q);
  pf_position : option (result (Q * Q * Q))
}.

Inductive preflight_result : Type :=
| PfReturn (gps_origin : option (Q * Q * Q))
| PfRaise (e : preflight_exn).

(** Phase 1, the [async for health in drone.telemetry.health()] loop: the
    events, and [health_checks_passed] or the exception. *)
Fixpoint health_phase (PRE_FLIGHT_TIMEOUT start_time : Q) (updates : list health_update)
    : list event * (preflight_exn + bool) :=
  match updates with
  | [] => ([], inr false)
  | HealthFails e :: _ => ([], inl (Known e))
  | HealthAt now health :: rest =>
      if Qltb PRE_FLIGHT_TIMEOUT (now - start_time) then
        ([Led 255 0 0], inl TimeoutError)
      else if is_global_position_ok health && is_home_position_ok health then
        ([], inr true)
      else
        let '(tr, r) := health_phase PRE_FLIGHT_TIMEOUT start_time rest in
        (Sleep 1 :: tr, r)
  end.

(** Phase 2: the origin, with the fallback on a [TelemetryError]. *)
Definition origin_phase (w : preflight_world) : preflight_exn + option (Q * Q * Q) :=
  match pf_origin w with
  | Ok origin => inr (Some origin)
  | Err TelemetryError =>
      match pf_position w with
      | Some (Ok position) => inr (Some position)
      | Some (Err e) => inl (Known e)
      | None => inr None
      end
  | Err e => inl (Known e)
  end.

(** The [try] block of [pre_flight_checks]. *)
Definition pre_flight_try (P : Params) (PRE_FLIGHT_TIMEOUT : Q) (w : preflight_world)
    : list event * preflight_result :=
  if REQUIRE_GLOBAL_POSITION P then
    let '(tr, r) := health_phase PRE_FLIGHT_TIMEOUT (pf_start_time w) (pf_health w) in
    match r with
    | inl e => (tr, PfRaise e)
    | inr false => (tr, PfRaise RuntimeError)
    | inr true =>
        match origin_phase w with
        | inl e => (tr, PfRaise e)
        | inr None => (tr ++ [Led 255 0 0], PfRaise (Known ValueError))
        | inr (Some gps_origin) => (tr ++ [Led 0 255 0], PfReturn (Some gps_origin))
        end
    end
  else ([Led 0 255 0], PfReturn None).

(** [pre_flight_checks]: yellow, the [try] block, and the handler that sets
    the LED red and raises again. *)
Definition pre_flight_checks (P : Params) (PRE_FLIGHT_TIMEOUT : Q) (w : preflight_world)
    : list event * preflight_result :=
  let '(tr, r) := pre_flight_try P PRE_FLIGHT_TIMEOUT w in
  match r with
  | PfReturn gps_origin => (Led 255 255 0 :: tr, PfReturn gps_origin)
  | PfRaise e => (Led 255 255 0 :: tr ++ [Led 255 0 0], PfRaise e)
  end.

(** An update that keeps Phase 1 waiting: in time, and not yet healthy. *)
Definition keeps_waiting (PRE_FLIGHT_TIMEOUT start_time : Q) (u : health_update) : Prop :=
  exists now health,
    u = HealthAt now health /\
    now - start_time <= PRE_FLIGHT_TIMEOUT /\
    is_global_position_ok health && is_home_position_ok health = false.

(** Where the origin that is returned comes from. *)
Definition origin_of (w : preflight_world) (gps_origin : Q * Q * Q) : Prop :=
  pf_origin w = Ok gps_origin \/
  (pf_origin w = Err TelemetryError /\ pf_position w = Some (Ok gps_origin)).

(** The last LED colour of a trace. *)
Definition last_color (tr : list event) : option (Z * Z * Z) :=
  fold_left (fun acc e => match e with Led r g b => Some (r, g, b) | _ => acc end)
    tr None.

(** A healthy world: the second update is good, the origin is known. *)
Definition sample_world : preflight_world :=
  mkPreflightWorld 100
    [HealthAt 101 (mkHealth true false); HealthAt 102 (mkHealth true true)]
    (Ok (47, 8, 400)) None.

(** ** The mission: [run_drone] from Step 4 on *)

(** What Step 6 reads.  With a custom CSV: the rows of that file.  Without:
    the hardware id that [read_hw_id()] returns, the rows of the fleet
    configuration, and the rows of the trajectory file of each position
    id. *)
Inductive show_files : Type :=
| CustomCsv (rows : list row)
| SwarmCsv (HW_ID : option Z) (config : list config_row) (drone_csv : Z -> list row).

Section Mission.

Variable P : Params.
Variable ned2geodetic : Q -> Q -> Q -> Q -> Q -> Q -> Q * Q * Q.
Variable clamp_led_value : cell -> Z.

(** Step 6: load and adjust the trajectory; [None] is [sys.exit(1)]. *)
Definition load_trajectory (files : show_files) (auto_launch_position : bool)
    : option (list waypoint) :=
  match files with
  | CustomCsv rows =>
      read_trajectory_file clamp_led_value rows auto_launch_position 0 0
  | SwarmCsv HW_ID config drone_csv =>
      match HW_ID with
      | None => None
      | Some _ =>
          match read_config HW_ID config with
          | None => None
          | Some drone_config =>
              read_trajectory_file clamp_led_value (drone_csv (pos_id drone_config))
                auto_launch_position (initial_x drone_config) (initial_y drone_config)
          end
      end
  end.

(** Steps 4 to 7 of [run_drone], with the [except Exception] around them:
    the server runs, the drone is connected, [pre_flight_checks] has
    returned [home_position] and the launch position is captured.  The
    value is the exit code. *)
Definition run_drone (synchronized_start_time : option Q) (files : show_files)
    (auto_launch_position : bool) (home_position : option (Q * Q * Q))
    (launch_lat launch_lon launch_alt : Q) : M Z :=
  try_except
    (synchronized_start_time <-
       (match synchronized_start_time with
        | None => time_time
        | Some t => ret t
        end) ;;
     now <- time_time ;;
     (if Qltb now synchronized_start_time
      then asyncio_sleep (synchronized_start_time - now)
      else ret tt) ;;
     arming_and_starting_offboard_mode P home_position ;;
     match load_trajectory files auto_launch_position with
     | None => ret 1%Z
     | Some waypoints =>
         perform_trajectory P ned2geodetic waypoints synchronized_start_time
           launch_lat launch_lon launch_alt ;;
         ret 0%Z
     end)
    (fun _ => ret 1%Z).

End Mission.

(** ** Sample runs of the later sections *)

(** Three rows, the second with a velocity that does not decode. *)
Definition mixed_rows : list row :=
  [sample_row 0 1 2 (- (5)); garbled_velocity_row 1 1 2 (- (5));
   sample_row 2 1 2 (- (5))].

(** Every command of an arming attempt is accepted. *)
Definition arming_session : session :=
  loop_session [Done; Done; Done; Done] 0 false 0.

(** The arm command is refused; the disarm that follows is accepted. *)
Definition arming_refused_session : session :=
  loop_session [Done; Fails ActionError; Done] 0 false 0.

(** Ten seconds late at the first waypoint, the climb just started. *)
Definition late_climb_session : session :=
  loop_session [Clock 10; Done] 0 false 10.

(** One second early at the second waypoint. *)
Definition early_session : session := loop_session [Clock 0] 1 true 0.

(** A whole show on [three_high]: the clock of the start, three iterations,
    the offboard stop, the land command and two confirmations of the
    landing. *)
Definition whole_show_session : session :=
  loop_session
    [Clock 0; Clock 0; Done; Clock 1; Done; Clock 2; Done; Done; Done;
     Clock 3; Landed ON_GROUND; Clock 3; Landed ON_GROUND] 0 false 0.

Definition whole_show_run : outcome unit * session :=
  perform_trajectory demo_params flat_geodetic three_high 0 0 0 0 whole_show_session.

Definition clock_only_session : session := loop_session [Clock 0] 0 false 0.

(** The start time is past and the arming commands are accepted; the custom
    CSV has no row. *)
Definition unloadable_session : session :=
  loop_session [Clock 5; Done; Done; Done; Done] 0 false 0.

Definition unloadable_run : outcome Z * session :=
  run_drone demo_params flat_geodetic no_clamp (Some 0) (CustomCsv []) false None
    0 0 0 unloadable_session.

(** A run that finds the vehicle in the air twice within the timeout of
    ten seconds and once after it; the first stop of offboard mode is
    refused, the first landing command times out in the air, the second
    is refused. *)
Definition timeout_session : session :=
  loop_session
    ([Clock 0; Done] ++ descent_polls [(IN_AIR, 4); (LANDING, 9)]
     ++ [Done; Landed IN_AIR; Clock 11;
         Fails OffboardError; Done; Clock 12; Landed IN_AIR; Clock 23;
         Done; Fails ActionError]) 0 false 0.
(** Three arming attempts that all fail: the hold command is refused and the
    vehicle disarmed; the hold command and the disarm are both refused;
    the hold command raises an offboard error and the vehicle is
    disarmed. *)
Definition arming_failing_session : session :=
  loop_session [Fails ActionError; Done; Fails ActionError; Fails ActionError;
                Fails OffboardError; Done] 0 false 0.

(** A custom CSV of three rows, five metres up, one second apart. *)
Definition flown_show_rows : list row :=
  [sample_row 0 0 0 (- (5)); sample_row 1 0 0 (- (5)); sample_row 2 0 0 (- (5))].

(** A whole mission on these rows, started on time: the clock, the four
    arming commands, and the answers of [whole_show_session]. *)
Definition flown_show_session : session :=
  loop_session
    ([Clock 0; Done; Done; Done; Done] ++ script whole_show_session) 0 false 0.

Definition flown_show_run : outcome Z * session :=
  run_drone demo_params flat_geodetic no_clamp (Some 0) (CustomCsv flown_show_rows)
    false None 0 0 0 flown_show_session.

(** * Properties *)

(** ** The loader *)

Section LoaderFacts.

Variable clamp_led_value : cell -> Z.

Lemma decode_row_position (auto : bool) (r : row) (w : waypoint) :
  decode_row clamp_led_value auto r = Ok w ->
  float_item (r_px r) = Ok (wp_px w) /\
  float_item (r_py r) = Ok (wp_py w) /\
  (if auto then float_get (r_pz r) else float_item (r_pz r)) = Ok (wp_pz w).
Proof.
  unfold decode_row, rbind.
  destruct (float_item (r_t r)); [|discriminate].
  destruct (float_item (r_px r)); [|discriminate].
  destruct (float_item (r_py r)); [|discriminate].
  destruct (if auto then float_get (r_pz r) else float_item (r_pz r)); [|discriminate].
  destruct (float_item (r_vx r)); [|discriminate].
  destruct (float_item (r_vy r)); [|discriminate].
  destruct (float_item (r_vz r)); [|discriminate].
  destruct (float_item (r_ax r)); [|discriminate].
  destruct (float_item (r_ay r)); [|discriminate].
  destruct (float_item (r_az r)); [|discriminate].
  destruct (float_item (r_yaw r)); [|discriminate].
  intros H; injection H as <-; cbn; auto.
Qed.

Lemma collect_waypoints_cons (auto : bool) (r : row) (rest : list row) (ws : list waypoint) :
  collect_waypoints clamp_led_value auto (r :: rest) = Ok ws ->
  (exists w ws', decode_row clamp_led_value auto r = Ok w /\
                 collect_waypoints clamp_led_value auto rest = Ok ws' /\
                 ws = w :: ws') \/
  ((decode_row clamp_led_value auto r = Err ValueError \/
    decode_row clamp_led_value auto r = Err KeyError) /\
   collect_waypoints clamp_led_value auto rest = Ok ws).
Proof.
  cbn [collect_waypoints].
  destruct (decode_row clamp_led_value auto r) as [w|e].
  - destruct (collect_waypoints clamp_led_value auto rest) as [ws'|e']; [|discriminate].
    intros H; injection H as <-. left; eauto.
  - destruct e; try discriminate; intros H; right; auto.
Qed.

Lemma collect_waypoints_decoded (auto : bool) (rows : list row) :
  forall ws,
    collect_waypoints clamp_led_value auto rows = Ok ws ->
    Forall (fun w => exists r, In r rows /\ decode_row clamp_led_value auto r = Ok w) ws.
Proof.
  induction rows as [|r rest IH]; intros ws H.
  - cbn in H. injection H as <-. constructor.
  - apply collect_waypoints_cons in H.
    destruct H as [(w & ws' & Hw & Hrest & ->) | [_ Hrest]].
    + constructor.
      * exists r; split; [left; reflexivity | exact Hw].
      * eapply Forall_impl; [|apply IH; exact Hrest].
        intros a (r' & Hin & Hd). exists r'; split; [right; exact Hin | exact Hd].
    + eapply Forall_impl; [|apply IH; exact Hrest].
      intros a (r' & Hin & Hd). exists r'; split; [right; exact Hin | exact Hd].
Qed.

(** The waypoints that the loop of the loader collects are, in the order of
    the file, one for every row that decodes, and the waypoint of a row
    has what the row's [px], [py], [pz] read as for its position. *)
Lemma collect_waypoints_pairs (auto : bool) (rows : list row) (ws : list waypoint) :
  collect_waypoints clamp_led_value auto rows = Ok ws ->
  Forall2 (fun r w =>
             decode_row clamp_led_value auto r = Ok w /\
             float_item (r_px r) = Ok (wp_px w) /\
             float_item (r_py r) = Ok (wp_py w) /\
             (if auto then float_get (r_pz r) else float_item (r_pz r))
               = Ok (wp_pz w))
          (filter (decodes clamp_led_value auto) rows) ws.
Proof.
  revert ws. induction rows as [|r rest IH]; intros ws H.
  - cbn in H. injection H as <-. constructor.
  - apply collect_waypoints_cons in H. cbn [filter]. unfold decodes at 1.
    destruct H as [(w & ws' & Hw & Hrest & ->) | [[He | He] Hrest]]; rewrite ?Hw, ?He.
    + constructor; [|apply IH; exact Hrest].
      split; [exact Hw|]. eapply decode_row_position; exact Hw.
    + apply IH; exact Hrest.
    + apply IH; exact Hrest.
Qed.

(** C1 (as amended): the loader takes the columns [px], [py], [pz] of a row
    as north, east and down as they stand, with no change of sign, before
    any origin adjustment: a trajectory that [read_trajectory_file] loads
    is the origin adjustment of the waypoints [ws] that its loop has
    collected, and these are, in the order of the file, one for every row
    that decodes, the waypoint of a row having exactly what the row's
    [px], [py], [pz] read as for its north, east and down. *)
Theorem loader_takes_rows_as_ned (auto : bool) (rows : list row)
    (initial_x initial_y : Q) (T : list waypoint) :
  read_trajectory_file clamp_led_value rows auto initial_x initial_y = Some T ->
  exists ws n e d,
    collect_waypoints clamp_led_value auto rows = Ok ws /\
    T = adjust_waypoints ws n e d /\
    Forall2 (fun r w =>
               decode_row clamp_led_value auto r = Ok w /\
               float_item (r_px r) = Ok (wp_px w) /\
               float_item (r_py r) = Ok (wp_py w) /\
               (if auto then float_get (r_pz r) else float_item (r_pz r))
                 = Ok (wp_pz w))
            (filter (decodes clamp_led_value auto) rows) ws.
Proof.
  unfold read_trajectory_file.
  destruct rows as [|first rest]; [discriminate|].
  destruct auto.
  - destruct (extract_initial_positions first) as [[[n e] d]|e0]; [|discriminate].
    destruct (collect_waypoints clamp_led_value true (first :: rest)) as [ws|e1] eqn:Hc;
      [|discriminate].
    intros H; injection H as <-.
    exists ws, n, e, d. split; [reflexivity|]. split; [reflexivity|].
    apply collect_waypoints_pairs. exact Hc.
  - destruct (collect_waypoints clamp_led_value false (first :: rest)) as [ws|e1] eqn:Hc;
      [|discriminate].
    intros H; injection H as <-.
    exists ws, initial_x, initial_y, 0. split; [reflexivity|]. split; [reflexivity|].
    apply collect_waypoints_pairs. exact Hc.
Qed.

Lemma adjust_waypoints_Forall2 (ws : list waypoint) (n e d : Q) :
  Forall2 (fun a w =>
             wp_px a = wp_px w - n /\ wp_py a = wp_py w - e /\ wp_pz a = wp_pz w - d /\
             wp_t a = wp_t w /\ wp_yaw a = wp_yaw w)
          (adjust_waypoints ws n e d) ws.
Proof.
  induction ws as [|w ws IH]; cbn; constructor; cbn; auto 6.
Qed.

(** In auto-origin mode every loaded waypoint's position is its raw
    position minus the raw position of the first row of the file; and when
    the first row itself decodes, so that it is the first waypoint, the
    first waypoint's position is (0,0,0). *)
Theorem auto_origin_adjustment (rows : list row) (initial_x initial_y : Q)
    (T : list waypoint) :
  read_trajectory_file clamp_led_value rows true initial_x initial_y = Some T ->
  exists first others n e d raw,
    rows = first :: others /\
    extract_initial_positions first = Ok (n, e, d) /\
    collect_waypoints clamp_led_value true rows = Ok raw /\
    Forall2 (fun a w =>
               wp_px a = wp_px w - n /\ wp_py a = wp_py w - e /\ wp_pz a = wp_pz w - d /\
               wp_t a = wp_t w /\ wp_yaw a = wp_yaw w) T raw /\
    (forall w0, decode_row clamp_led_value true first = Ok w0 ->
       exists a rest,
         T = a :: rest /\ wp_px a == 0 /\ wp_py a == 0 /\ wp_pz a == 0).
Proof.
  unfold read_trajectory_file.
  destruct rows as [|first others]; [discriminate|].
  destruct (extract_initial_positions first) as [[[n e] d]|] eqn:Hinit; [|discriminate].
  destruct (collect_waypoints clamp_led_value true (first :: others)) as [raw|] eqn:Hraw;
    [|discriminate].
  intros H; injection H as <-.
  exists first, others, n, e, d, raw.
  repeat split; auto using adjust_waypoints_Forall2.
  intros w0 Hw0.
  cbn [collect_waypoints] in Hraw. rewrite Hw0 in Hraw.
  destruct (collect_waypoints clamp_led_value true others) as [ws|]; [|discriminate].
  injection Hraw as <-.
  apply decode_row_position in Hw0. destruct Hw0 as (Hx & Hy & Hz).
  unfold extract_initial_positions, rbind in Hinit.
  rewrite Hx, Hy, Hz in Hinit. injection Hinit as <- <- <-.
  eexists; eexists; split; [reflexivity|].
  cbn. repeat split; ring.
Qed.

(** C6: in configured-origin mode the first sample of the loaded
    trajectory is the first collected sample [T0] with north and east
    shifted by the configured pair and down left as it is. *)
Theorem configured_origin_first_sample (rows : list row) (ox oy : Q)
    (T0 : waypoint) (rest : list waypoint) :
  collect_waypoints clamp_led_value false rows = Ok (T0 :: rest) ->
  exists a rest',
    read_trajectory_file clamp_led_value rows false ox oy = Some (a :: rest') /\
    wp_px a = wp_px T0 - ox /\
    wp_py a = wp_py T0 - oy /\
    wp_pz a == wp_pz T0.
Proof.
  intros H. unfold read_trajectory_file.
  destruct rows as [|first others]; [discriminate|].
  rewrite H. cbn.
  eexists; eexists; split; [reflexivity|].
  cbn. repeat split. ring.
Qed.

End LoaderFacts.

(** C1, the claim as stated fails: a row with [py = 2] and [pz = 3] is
    loaded (configured origin (0,0), so nothing is shifted) with east 2 and
    down 3, not -2 and -3; [blender_north_west_up_to_ned], which would
    negate them, is not called by the loader. *)
Lemma loader_does_not_negate_west_and_up :
  collect_waypoints no_clamp false [sample_row 0 1 2 3] = Ok [sample_waypoint 0 1 2 3] /\
  (exists w, read_trajectory_file no_clamp [sample_row 0 1 2 3] false 0 0 = Some [w] /\
             wp_px w == 1 /\ wp_py w == 2 /\ wp_pz w == 3 /\
             ~ wp_py w == - (2) /\ ~ wp_pz w == - (3)) /\
  blender_north_west_up_to_ned 1 2 3 = (1, - (2), - (3)).
Proof.
  split; [reflexivity|]. split; [|reflexivity].
  eexists; split; [reflexivity|].
  cbn. repeat split; try reflexivity; intros H; discriminate H.
Qed.

Lemma loader_takes_rows_as_ned_witness :
  exists ws n e d,
    collect_waypoints no_clamp false
      [sample_row 0 1 2 3; garbled_velocity_row 1 4 5 6; sample_row 2 7 8 9] = Ok ws /\
    [sample_waypoint 0 (1 - 0) (2 - 0) (3 - 0); sample_waypoint 2 (7 - 0) (8 - 0) (9 - 0)]
    = adjust_waypoints ws n e d /\
    Forall2 (fun r w =>
               decode_row no_clamp false r = Ok w /\
               float_item (r_px r) = Ok (wp_px w) /\
               float_item (r_py r) = Ok (wp_py w) /\
               float_item (r_pz r) = Ok (wp_pz w))
            (filter (decodes no_clamp false)
               [sample_row 0 1 2 3; garbled_velocity_row 1 4 5 6; sample_row 2 7 8 9])
            ws.
Proof.
  apply (loader_takes_rows_as_ned no_clamp false
           [sample_row 0 1 2 3; garbled_velocity_row 1 4 5 6; sample_row 2 7 8 9] 0 0
           [sample_waypoint 0 (1 - 0) (2 - 0) (3 - 0);
            sample_waypoint 2 (7 - 0) (8 - 0) (9 - 0)]).
  reflexivity.
Defined.

(** C5, where the code departs from the claim and from its own
    documentation ([adjust_waypoints] returns the waypoints "such that the
    first position is (0,0,0)"): the origin is taken from the first row of
    the file even when that row is then dropped for another field.  Here
    the first row has a velocity that does not decode; the one waypoint
    loaded is the second row shifted by the position of the first, at
    (3,2,1) and not at (0,0,0). *)
Lemma auto_origin_first_row_dropped :
  exists w,
    read_trajectory_file no_clamp
      [garbled_velocity_row 0 5 6 7; sample_row 1 8 8 8] true 0 0 = Some [w] /\
    wp_px w == 3 /\ wp_py w == 2 /\ wp_pz w == 1 /\
    ~ (wp_px w == 0 /\ wp_py w == 0 /\ wp_pz w == 0).
Proof.
  eexists; split; [reflexivity|].
  cbn. repeat split; try reflexivity.
  intros [H _]; discriminate H.
Qed.

Lemma auto_origin_adjustment_witness :
  exists first others n e d raw,
    [sample_row 0 5 6 7; sample_row 1 8 8 8] = first :: others /\
    extract_initial_positions first = Ok (n, e, d) /\
    collect_waypoints no_clamp true [sample_row 0 5 6 7; sample_row 1 8 8 8] = Ok raw /\
    Forall2 (fun a w =>
               wp_px a = wp_px w - n /\ wp_py a = wp_py w - e /\ wp_pz a = wp_pz w - d /\
               wp_t a = wp_t w /\ wp_yaw a = wp_yaw w)
      (adjust_waypoints [sample_waypoint 0 5 6 7; sample_waypoint 1 8 8 8] 5 6 7) raw /\
    (forall w0, decode_row no_clamp true first = Ok w0 ->
       exists a rest,
         adjust_waypoints [sample_waypoint 0 5 6 7; sample_waypoint 1 8 8 8] 5 6 7
           = a :: rest /\ wp_px a == 0 /\ wp_py a == 0 /\ wp_pz a == 0).
Proof.
  apply (auto_origin_adjustment no_clamp
           [sample_row 0 5 6 7; sample_row 1 8 8 8] 0 0).
  reflexivity.
Defined.

Lemma configured_origin_first_sample_witness :
  exists a rest',
    read_trajectory_file no_clamp [sample_row 0 5 6 7; sample_row 1 8 8 8] false 2 3
      = Some (a :: rest') /\
    wp_px a = 5 - 2 /\ wp_py a = 6 - 3 /\ wp_pz a == 7.
Proof.
  apply (configured_origin_first_sample no_clamp
           [sample_row 0 5 6 7; sample_row 1 8 8 8] 2 3
           (sample_waypoint 0 5 6 7) [sample_waypoint 1 8 8 8]).
  reflexivity.
Defined.

(** ** Comparisons and truncation *)

Lemma Qleb_true (a b : Q) : a <= b -> Qleb a b = true.
Proof. intros H. unfold Qleb. apply Qle_bool_iff. exact H. Qed.

Lemma Qleb_false (a b : Q) : b < a -> Qleb a b = false.
Proof.
  intros H. unfold Qleb. destruct (Qle_bool a b) eqn:E; [|reflexivity].
  apply Qle_bool_iff in E. exfalso. apply (Qlt_not_le _ _ H E).
Qed.

Lemma Qltb_true (a b : Q) : a < b -> Qltb a b = true.
Proof. intros H. unfold Qltb. fold (Qleb b a). rewrite Qleb_false; auto. Qed.

Lemma Qltb_false (a b : Q) : b <= a -> Qltb a b = false.
Proof. intros H. unfold Qltb. fold (Qleb b a). rewrite Qleb_true; auto. Qed.


Lemma Qltb_spec (a b : Q) : Qltb a b = true <-> a < b.
Proof.
  split.
  - intros H. destruct (Qlt_le_dec a b) as [Hlt | Hle]; [exact Hlt|].
    rewrite (Qltb_false _ _ Hle) in H. discriminate H.
  - apply Qltb_true.
Qed.


Lemma py_min_right (a b : Q) : b < a -> py_min a b = b.
Proof. intros H. unfold py_min. rewrite Qltb_true; auto. Qed.

(** ** Binary64 rounding *)

Lemma Qltb_false_iff (a b : Q) : Qltb a b = false <-> b <= a.
Proof.
  split; [|apply Qltb_false].
  intros H. destruct (Qlt_le_dec a b) as [Hlt|Hle]; [|exact Hle].
  apply Qltb_spec in Hlt. congruence.
Qed.

Lemma pow2_of_nonneg (e : Z) : (0 <= e)%Z -> pow2 e = inject_Z (2 ^ e).
Proof. intros H. unfold pow2. apply Z.leb_le in H. rewrite H. reflexivity. Qed.

Lemma inject_Z_pow2_pos (e : Z) : (0 <= e)%Z -> 0 < inject_Z (2 ^ e).
Proof.
  intros H. change 0 with (inject_Z 0). rewrite <- Zlt_Qlt.
  apply Z.pow_pos_nonneg; lia.
Qed.

Lemma pow2_of_nonpos (u : Z) : (u <= 0)%Z -> pow2 u == 1 / inject_Z (2 ^ (- u)).
Proof.
  intros H. unfold pow2. destruct (0 <=? u)%Z eqn:E; [|reflexivity].
  apply Z.leb_le in E. assert (u = 0%Z) by lia. subst u. reflexivity.
Qed.

Lemma pow2_pos (e : Z) : 0 < pow2 e.
Proof.
  unfold pow2. destruct (0 <=? e)%Z eqn:E.
  - apply inject_Z_pow2_pos. apply Z.leb_le. exact E.
  - apply Z.leb_gt in E. apply Qlt_shift_div_l.
    + apply inject_Z_pow2_pos. lia.
    + rewrite Qmult_0_l. reflexivity.
Qed.

Lemma b64_exponent_small (a : Q) :
  0 < a -> a < inject_Z (2 ^ 53) -> (b64_exponent a <= 52)%Z.
Proof.
  intros Hpos Hlt. unfold b64_exponent.
  set (e0 := (Z.log2 (Qnum a) - Z.log2 (Z.pos (Qden a)))%Z).
  destruct (Qltb a (pow2 e0)) eqn:E.
  - destruct (Z_le_gt_dec e0 53) as [Hle|Hgt]; [lia|exfalso].
    assert (Hn : (0 < Qnum a)%Z).
    { unfold Qlt in Hpos. cbn in Hpos. lia. }
    pose proof (Z.log2_spec (Qnum a) Hn) as [Hn1 _].
    pose proof (Z.log2_spec (Z.pos (Qden a)) (Pos2Z.is_pos _)) as [_ Hd2].
    pose proof (Z.log2_nonneg (Z.pos (Qden a))) as Hld.
    unfold Qlt in Hlt. cbn [Qnum Qden inject_Z] in Hlt.
    assert (H1 : (2 ^ 53 * 2 ^ Z.succ (Z.log2 (Z.pos (Qden a)))
                  <= 2 ^ Z.log2 (Qnum a))%Z).
    { rewrite <- Z.pow_add_r by lia. apply Z.pow_le_mono_r; lia. }
    assert (H2 : (2 ^ 53 * Z.pos (Qden a) < 2 ^ 53 * 2 ^ Z.succ (Z.log2 (Z.pos (Qden a))))%Z).
    { apply Z.mul_lt_mono_pos_l; [reflexivity | exact Hd2]. }
    lia.
  - apply Qltb_false_iff in E.
    destruct (Z_le_gt_dec e0 52) as [Hle|Hgt]; [lia|exfalso].
    rewrite pow2_of_nonneg in E by lia.
    assert (inject_Z (2 ^ 53) <= inject_Z (2 ^ e0)).
    { rewrite <- Zle_Qle. apply Z.pow_le_mono_r; lia. }
    lra.
Qed.

Lemma round_half_even_bounds (y : Q) :
  (Qfloor y <= round_half_even y <= Qfloor y + 1)%Z.
Proof.
  unfold round_half_even.
  destruct (Qltb _ _); [lia|]. destruct (Qltb _ _); [lia|].
  destruct (Z.even _); lia.
Qed.


Lemma Qltb_comp (a b c d : Q) : a == b -> c == d -> Qltb a c = Qltb b d.
Proof.
  intros H1 H2. destruct (Qltb b d) eqn:E.
  - apply Qltb_spec in E. apply Qltb_true. rewrite H1, H2. exact E.
  - apply Qltb_false_iff in E. apply Qltb_false. rewrite H1, H2. exact E.
Qed.

Lemma round_half_even_comp (y y' : Q) : y == y' -> round_half_even y = round_half_even y'.
Proof.
  intros H. unfold round_half_even.
  assert (Hf : Qfloor y = Qfloor y') by (rewrite H; reflexivity).
  rewrite Hf.
  rewrite (Qltb_comp (y - inject_Z (Qfloor y')) (y' - inject_Z (Qfloor y')) (1 # 2) (1 # 2))
    by (rewrite ?H; reflexivity).
  rewrite (Qltb_comp (1 # 2) (1 # 2) (y - inject_Z (Qfloor y')) (y' - inject_Z (Qfloor y')))
    by (rewrite ?H; reflexivity).
  reflexivity.
Qed.

(** The scaled value of [a < 2^53]: the unit is [1/N] for a power of two
    [N >= 1]. *)
Lemma b64_round_pos_scaled (a : Q) :
  0 < a -> a < inject_Z (2 ^ 53) ->
  exists N : Z,
    (1 <= N)%Z /\
    b64_round_pos a == inject_Z (round_half_even (a * inject_Z N)) / inject_Z N.
Proof.
  intros Hpos Hlt. unfold b64_round_pos.
  set (u := Z.max (b64_exponent a - 52) (- 1074)).
  assert (Hu : (u <= 0)%Z).
  { pose proof (b64_exponent_small a Hpos Hlt). unfold u. lia. }
  exists (2 ^ (- u))%Z.
  assert (HN : (1 <= 2 ^ (- u))%Z).
  { change 1%Z with (2 ^ 0)%Z. apply Z.pow_le_mono_r; lia. }
  split; [exact HN|].
  assert (HNq : 0 < inject_Z (2 ^ (- u))) by (apply inject_Z_pow2_pos; lia).
  assert (Ey : a / pow2 u == a * inject_Z (2 ^ (- u))).
  { rewrite (pow2_of_nonpos u Hu). field. lra. }
  assert (Em : round_half_even (a / pow2 u) = round_half_even (a * inject_Z (2 ^ (- u)))).
  { apply round_half_even_comp. exact Ey. }
  rewrite Em, (pow2_of_nonpos u Hu). field. lra.
Qed.

Lemma b64_round_pos_between (a : Q) (k : Z) :
  0 < a -> a < inject_Z (2 ^ 53) ->
  inject_Z k <= a -> a < inject_Z k + 1 ->
  inject_Z k <= b64_round_pos a /\ b64_round_pos a <= inject_Z k + 1.
Proof.
  intros Hpos Hlt Hlo Hhi.
  destruct (b64_round_pos_scaled a Hpos Hlt) as (N & HN & E).
  assert (HNq : 0 < inject_Z N).
  { change 0 with (inject_Z 0). rewrite <- Zlt_Qlt. lia. }
  pose proof (round_half_even_bounds (a * inject_Z N)) as [Hm1 Hm2].
  assert (Hf1 : (k * N <= Qfloor (a * inject_Z N))%Z).
  { rewrite <- (Qfloor_Z (k * N)). apply Qfloor_resp_le.
    rewrite inject_Z_mult. apply Qmult_le_compat_r; lra. }
  assert (Hf2 : (Qfloor (a * inject_Z N) < (k + 1) * N)%Z).
  { rewrite Zlt_Qlt. eapply Qle_lt_trans; [apply Qfloor_le|].
    rewrite inject_Z_mult, inject_Z_plus. apply Qmult_lt_compat_r; [exact HNq|].
    exact Hhi. }
  rewrite E. split.
  - apply Qle_shift_div_l; [exact HNq|].
    rewrite <- inject_Z_mult, <- Zle_Qle. lia.
  - apply Qle_shift_div_r; [exact HNq|].
    change 1 with (inject_Z 1). rewrite <- inject_Z_plus, <- inject_Z_mult, <- Zle_Qle. lia.
Qed.


Lemma b64_round_pos_nonneg (a : Q) : 0 < a -> 0 <= b64_round_pos a.
Proof.
  intros Hpos. unfold b64_round_pos.
  set (u := Z.max _ _). pose proof (pow2_pos u) as Hp.
  apply Qmult_le_0_compat; [|lra].
  change 0 with (inject_Z 0). rewrite <- Zle_Qle.
  pose proof (round_half_even_bounds (a / pow2 u)) as [H _].
  assert (0 <= Qfloor (a / pow2 u))%Z; [|lia].
  change 0%Z with (Qfloor 0). apply Qfloor_resp_le.
  apply Qle_shift_div_l; [exact Hp | lra].
Qed.

(** Rounding a quotient that lies between two consecutive naturals below
    [2^53]: the result lies between them too. *)
Lemma b64_round_between (x : Q) (k : Z) :
  (0 <= k)%Z -> (k + 1 <= 2 ^ 53)%Z ->
  inject_Z k <= x -> x < inject_Z k + 1 ->
  exists q, b64_round x = Some q /\ inject_Z k <= q /\ q <= inject_Z k + 1.
Proof.
  intros Hk0 Hk1 Hlo Hhi. unfold b64_round.
  assert (Hx0 : 0 <= x).
  { eapply Qle_trans; [|exact Hlo]. change 0 with (inject_Z 0). rewrite <- Zle_Qle. lia. }
  destruct (Qeq_bool x 0) eqn:E0.
  - apply Qeq_bool_iff in E0. exists 0. split; [reflexivity|]. split; lra.
  - assert (Hne : ~ x == 0).
    { intros H. apply Qeq_bool_iff in H. congruence. }
    assert (Hpos : 0 < x).
    { destruct (Qlt_le_dec 0 x) as [H|H]; [exact H|]. exfalso. apply Hne. lra. }
    assert (Habs : Qabs x == x) by (apply Qabs_pos; lra).
    assert (Hlt : x < inject_Z (2 ^ 53)).
    { eapply Qlt_le_trans; [exact Hhi|]. change 1 with (inject_Z 1).
      rewrite <- inject_Z_plus, <- Zle_Qle. exact Hk1. }
    destruct (b64_round_pos_between (Qabs x) k) as [H1 H2]; try (rewrite Habs; assumption).
    assert (Hsmall : b64_round_pos (Qabs x) < pow2 1024).
    { eapply Qle_lt_trans; [exact H2|].
      eapply Qle_lt_trans with (y := inject_Z (2 ^ 53)).
      - change 1 with (inject_Z 1). rewrite <- inject_Z_plus, <- Zle_Qle. exact Hk1.
      - vm_compute. reflexivity. }
    assert (Eo : Qleb (pow2 1024) (b64_round_pos (Qabs x)) = false).
    { unfold Qleb. destruct (Qle_bool _ _) eqn:E; [|reflexivity].
      apply Qle_bool_iff in E. lra. }
    rewrite Eo. rewrite (Qltb_false x 0) by lra.
    eexists. split; [reflexivity|]. split; assumption.
Qed.


(** Rounding keeps the sign. *)
Lemma b64_round_sign (x q : Q) :
  b64_round x = Some q -> (0 <= x -> 0 <= q) /\ (x <= 0 -> q <= 0).
Proof.
  unfold b64_round. destruct (Qeq_bool x 0) eqn:E0.
  - intros H. injection H as <-. split; intros _; lra.
  - assert (Hne : ~ x == 0).
    { intros H. apply Qeq_bool_iff in H. congruence. }
    assert (Hr : 0 <= b64_round_pos (Qabs x)).
    { apply b64_round_pos_nonneg.
      destruct (Qlt_le_dec 0 (Qabs x)) as [H|H]; [exact H|].
      exfalso. apply Hne. apply Qabs_Qle_condition in H. lra. }
    destruct (Qleb _ _); [discriminate|].
    destruct (Qltb x 0) eqn:Es; intros H; injection H as <-; split; intros Hx; try lra.
    + apply Qltb_spec in Es. lra.
    + apply Qltb_false_iff in Es. exfalso. apply Hne. lra.
Qed.




(** ** Reasoning about the monad *)

Lemma bind_inv {A B} (m : M A) (k : A -> M B) (s : session) (r : outcome B) (s' : session) :
  bind m k s = (r, s') ->
  (exists a s1, m s = (Ret a, s1) /\ k a s1 = (r, s')) \/
  (exists e, m s = (Raise e, s') /\ r = Raise e) \/
  (m s = (Stuck, s') /\ r = Stuck).
Proof.
  unfold bind. destruct (m s) as [[a|e|] s1]; intros H.
  - left; eauto.
  - injection H as <- <-. right; left; eauto.
  - injection H as <- <-. right; right; auto.
Qed.

Lemma try_except_inv {A} (m : M A) (h : exn -> M A) (s : session) (r : outcome A) (s' : session) :
  try_except m h s = (r, s') ->
  (exists e s1, m s = (Raise e, s1) /\ h e s1 = (r, s')) \/
  (m s = (r, s') /\ forall e, r <> Raise e).
Proof.
  unfold try_except. destruct (m s) as [[a|e|] s1]; intros H.
  - right. injection H as <- <-. split; [reflexivity | discriminate].
  - left; eauto.
  - right. injection H as <- <-. split; [reflexivity | discriminate].
Qed.

Lemma dispatched_app (l l' : list event) :
  dispatched (l ++ l') = dispatched l ++ dispatched l'.
Proof. unfold dispatched. apply flat_map_app. Qed.

Section Sat.

Variable R : session -> session -> Prop.
Hypothesis R_refl : forall s, R s s.
Hypothesis R_trans : forall s1 s2 s3, R s1 s2 -> R s2 s3 -> R s1 s3.

Lemma sat_ret {A} (a : A) : sat R (ret a).
Proof. intros s r s' H. injection H as _ <-. apply R_refl. Qed.

Lemma sat_raise {A} (e : exn) : sat R (@raise A e).
Proof. intros s r s' H. injection H as _ <-. apply R_refl. Qed.

Lemma sat_stuck {A} : sat R (@stuck A).
Proof. intros s r s' H. injection H as _ <-. apply R_refl. Qed.

Lemma sat_get : sat R get.
Proof. intros s r s' H. injection H as _ <-. apply R_refl. Qed.

Lemma sat_of_result {A} (x : result A) : sat R (of_result x).
Proof. destruct x; [apply sat_ret | apply sat_raise]. Qed.

Lemma sat_modify (f : session -> session) :
  (forall s, R s (f s)) -> sat R (modify f).
Proof. intros Hf s r s' H. injection H as _ <-. apply Hf. Qed.

Lemma sat_bind {A B} (m : M A) (k : A -> M B) :
  sat R m -> (forall a, sat R (k a)) -> sat R (bind m k).
Proof.
  intros Hm Hk s r s' H.
  apply bind_inv in H.
  destruct H as [(a & s1 & H1 & H2) | [(e & H1 & _) | (H1 & _)]].
  - eapply R_trans; [eapply Hm; exact H1 | eapply Hk; exact H2].
  - eapply Hm; exact H1.
  - eapply Hm; exact H1.
Qed.

Lemma sat_try_except {A} (m : M A) (h : exn -> M A) :
  sat R m -> (forall e, sat R (h e)) -> sat R (try_except m h).
Proof.
  intros Hm Hh s r s' H.
  apply try_except_inv in H.
  destruct H as [(e & s1 & H1 & H2) | (H1 & _)].
  - eapply R_trans; [eapply Hm; exact H1 | eapply Hh; exact H2].
  - eapply Hm; exact H1.
Qed.

Lemma sat_fueled {A} (loop : nat -> M A) :
  (forall fuel, sat R (loop fuel)) -> sat R (fueled loop).
Proof. intros Hl s r s' H. unfold fueled in H. eapply Hl; exact H. Qed.

End Sat.

Lemma quiet_refl (s : session) : quiet s s.
Proof. split; reflexivity. Qed.

Lemma quiet_trans (s1 s2 s3 : session) : quiet s1 s2 -> quiet s2 s3 -> quiet s1 s3.
Proof. intros [H1 H2] [H3 H4]. split; congruence. Qed.

Create HintDb quiet.
#[local] Hint Resolve quiet_refl quiet_trans : quiet.

Lemma quiet_next_response : sat quiet next_response.
Proof.
  intros s r s' H. unfold next_response in H.
  destruct (script s); injection H as _ <-; split; reflexivity.
Qed.

Lemma quiet_emit (e : event) :
  dispatched [e] = [] -> sat quiet (emit e).
Proof.
  intros He s r s' H. injection H as _ <-. split; [reflexivity|].
  cbn [trace with_trace]. rewrite dispatched_app, He. apply app_nil_r.
Qed.

(** The tactic below proves that a program made of the combinators and of
    programs already known to be quiet is quiet. *)
Ltac quiet_tac :=
  repeat first
    [ assumption
    | apply sat_ret; exact quiet_refl
    | apply sat_raise; exact quiet_refl
    | apply sat_stuck; exact quiet_refl
    | apply sat_get; exact quiet_refl
    | apply sat_of_result; exact quiet_refl
    | apply quiet_next_response
    | apply quiet_emit; reflexivity
    | apply sat_modify; intros; split; reflexivity
    | apply sat_fueled; intros
    | solve [auto with quiet]
    | apply sat_bind; [exact quiet_trans | | intros]
    | apply sat_try_except; [exact quiet_trans | | intros]
    | match goal with
      | |- sat _ (if ?b then _ else _) => destruct b
      | |- sat _ (match ?x with _ => _ end) => destruct x
      end ].

Lemma quiet_time_time : sat quiet time_time.
Proof. unfold time_time. quiet_tac.
Qed.

Lemma quiet_answer : sat quiet answer.
Proof. unfold answer. quiet_tac. Qed.

Lemma quiet_await_call (c : command) : sat quiet (await_call c).
Proof. unfold await_call. pose proof quiet_answer. quiet_tac. Qed.

Lemma quiet_first_attitude_euler : sat quiet first_attitude_euler.
Proof. unfold first_attitude_euler. quiet_tac. Qed.

Lemma quiet_first_landed_state : sat quiet first_landed_state.
Proof. unfold first_landed_state. quiet_tac. Qed.

Lemma quiet_set_color (r g b : Z) : sat quiet (set_color r g b).
Proof. unfold set_color. quiet_tac. Qed.

Lemma quiet_asyncio_sleep (d : Q) : sat quiet (asyncio_sleep d).
Proof. unfold asyncio_sleep. quiet_tac. Qed.

Lemma quiet_requests_get : sat quiet requests_get.
Proof. unfold requests_get. quiet_tac. Qed.

#[local] Hint Resolve quiet_time_time quiet_answer quiet_await_call
  quiet_first_attitude_euler quiet_first_landed_state quiet_set_color
  quiet_asyncio_sleep quiet_requests_get : quiet.

(** Running a program forward. *)

Lemma bind_run {A B} (m : M A) (k : A -> M B) (s : session) (a : A) (s1 : session) :
  m s = (Ret a, s1) -> bind m k s = k a s1.
Proof. intros H. unfold bind. rewrite H. reflexivity. Qed.

Lemma bind_run_raise {A B} (m : M A) (k : A -> M B) (s : session) (e : exn) (s1 : session) :
  m s = (Raise e, s1) -> bind m k s = (Raise e, s1).
Proof. intros H. unfold bind. rewrite H. reflexivity. Qed.

Lemma bind_get {B} (k : session -> M B) (s : session) : bind get k s = k s s.
Proof. reflexivity. Qed.

Lemma bind_ret {A B} (a : A) (k : A -> M B) (s : session) : bind (ret a) k s = k a s.
Proof. reflexivity. Qed.

Lemma bind_modify {B} (f : session -> session) (k : unit -> M B) (s : session) :
  bind (modify f) k s = k tt (f s).
Proof. reflexivity. Qed.

Lemma bind_set_color {B} (r g b : Z) (k : unit -> M B) (s : session) :
  bind (set_color r g b) k s = k tt (with_trace (trace s ++ [Led r g b]) s).
Proof. reflexivity. Qed.

Lemma bind_raise {A B} (e : exn) (k : A -> M B) (s : session) :
  bind (raise e) k s = (Raise e, s).
Proof. reflexivity. Qed.

Lemma bind_assoc {A B C} (m : M A) (k : A -> M B) (h : B -> M C) (s : session) :
  bind (bind m k) h s = bind m (fun a => bind (k a) h) s.
Proof. unfold bind. destruct (m s) as [[a|e|] s1]; reflexivity. Qed.

Lemma time_time_run (s : session) (now : Q) (rest : list response) :
  script s = Clock now :: rest ->
  time_time s = (Ret now, with_script rest s).
Proof.
  intros H. unfold time_time, bind, next_response. rewrite H. reflexivity.
Qed.

(** Inversion of a run, one combinator at a time. *)
Ltac minv :=
  repeat match goal with
  | H : bind _ _ _ = (_, _) |- _ =>
      apply bind_inv in H;
      destruct H as [(? & ? & ? & H) | [(? & H & ?) | (H & ?)]]
  | H : ret _ _ = (_, _) |- _ => cbv [ret] in H
  | H : get _ = (_, _) |- _ => cbv [get] in H
  | H : raise _ _ = (_, _) |- _ => cbv [raise] in H
  | H : stuck _ = (_, _) |- _ => cbv [stuck] in H
  | H : modify _ _ = (_, _) |- _ => cbv [modify] in H
  | H : emit _ _ = (_, _) |- _ => cbv [emit modify] in H
  | H : set_color _ _ _ _ = (_, _) |- _ => cbv [set_color emit modify] in H
  | H : (_, _) = (_, _) |- _ => injection H as ? ?; subst
  | H : Ret _ = Ret _ |- _ => injection H as ?; subst
  | H : Ret _ = Raise _ |- _ => discriminate H
  | H : Ret _ = Stuck |- _ => discriminate H
  | H : Raise _ = Ret _ |- _ => discriminate H
  | H : Stuck = Ret _ |- _ => discriminate H
  end.

Section FlightFacts.

Variable P : Params.
Variable ned2geodetic : Q -> Q -> Q -> Q -> Q -> Q -> Q * Q * Q.

Lemma quiet_stop_offboard_mode : sat quiet stop_offboard_mode.
Proof. unfold stop_offboard_mode. quiet_tac. Qed.

Lemma quiet_landing_wait_loop (fuel : nat) (start_time : Q) :
  sat quiet (landing_wait_loop P fuel start_time).
Proof.
  induction fuel as [|fuel IH]; cbn [landing_wait_loop]; quiet_tac.
Qed.

Lemma quiet_perform_landing : sat quiet (perform_landing P).
Proof.
  unfold perform_landing. pose proof quiet_landing_wait_loop. quiet_tac.
Qed.

Lemma quiet_wait_for_landing : sat quiet (wait_for_landing P).
Proof.
  unfold wait_for_landing. pose proof quiet_landing_wait_loop. quiet_tac.
Qed.

Lemma quiet_disarm_drone : sat quiet disarm_drone.
Proof. unfold disarm_drone. quiet_tac. Qed.

#[local] Hint Resolve quiet_stop_offboard_mode quiet_perform_landing
  quiet_wait_for_landing quiet_disarm_drone : quiet.

Lemma quiet_controlled_landing_pass (t0 : Q) :
  sat quiet (controlled_landing_pass P t0).
Proof. unfold controlled_landing_pass. quiet_tac. Qed.

Lemma quiet_controlled_landing_loop (fuel : nat) (t0 : Q) :
  sat quiet (controlled_landing_loop P fuel t0).
Proof.
  pose proof quiet_controlled_landing_pass.
  induction fuel as [|fuel IH]; cbn [controlled_landing_loop]; quiet_tac.
Qed.

Lemma quiet_controlled_landing_finish : sat quiet (controlled_landing_finish P).
Proof. unfold controlled_landing_finish. quiet_tac. Qed.

Lemma quiet_controlled_landing : sat quiet (controlled_landing P).
Proof.
  pose proof quiet_controlled_landing_loop.
  pose proof quiet_controlled_landing_finish.
  unfold controlled_landing. quiet_tac.
Qed.

#[local] Hint Resolve quiet_controlled_landing : quiet.

Lemma await_dispatch_spec (i : nat) (c : command) (s : session)
    (r : outcome unit) (s' : session) :
  await_dispatch i c s = (r, s') ->
  waypoint_index s' = waypoint_index s /\
  dispatched (trace s') = dispatched (trace s) ++ [i].
Proof.
  unfold await_dispatch. intros H. minv.
  all: match goal with
       | H : answer _ = _ |- _ => apply quiet_answer in H; destruct H as [Hi Hd]
       end.
  all: rewrite Hi, Hd; cbn [waypoint_index trace with_trace];
       rewrite dispatched_app; auto.
Qed.

Section TrajectoryFacts.

Variable waypoints : list waypoint.
Variable start_time : Q.
Variables launch_lat launch_lon launch_alt : Q.
Variable csv_step : Q.
Variable trajectory_ends_high : bool.

Let total := total_waypoints waypoints.

Lemma dispatch_spec (i : nat) (w : waypoint) (px py pz : Q) (s : session)
    (r : outcome unit) (s' : session) :
  dispatch P ned2geodetic launch_lat launch_lon launch_alt i w px py pz s = (r, s') ->
  waypoint_index s' = waypoint_index s /\
  dispatched (trace s') = dispatched (trace s) ++ [i].
Proof.
  unfold dispatch.
  destruct (ned2geodetic px py pz launch_lat launch_lon launch_alt) as [[lat lon] alt].
  destruct (USE_GLOBAL_SETPOINTS P);
    [|destruct (FEEDFORWARD_VELOCITY_ENABLED P && FEEDFORWARD_ACCELERATION_ENABLED P);
      [|destruct (FEEDFORWARD_VELOCITY_ENABLED P)]];
    apply await_dispatch_spec.
Qed.

Lemma advance_spec (s : session) (r : outcome unit) (s' : session) :
  advance s = (r, s') ->
  r = Ret tt /\ s' = with_waypoint_index (waypoint_index s + 1) s.
Proof. intros H. cbv [advance modify] in H. injection H as <- <-. auto. Qed.

Lemma landing_decision_spec (t_wp alt : Q) (s : session) (r : outcome flow) (s' : session) :
  landing_decision P waypoints trajectory_ends_high t_wp alt s = (r, s') ->
  dispatched (trace s') = dispatched (trace s) /\
  (waypoint_index s <= waypoint_index s' <= waypoint_index s + 1)%nat /\
  (r = Ret Next -> waypoint_index s' = (waypoint_index s + 1)%nat).
Proof.
  unfold landing_decision. intros H.
  apply bind_inv in H.
  destruct H as [(last & s1 & H1 & H) | [(e & H1 & ->) | (H1 & ->)]].
  2,3: apply (sat_of_result quiet quiet_refl) in H1; destruct H1 as [Hi Hd];
       rewrite Hi, Hd; repeat split; try lia; discriminate.
  apply (sat_of_result quiet quiet_refl) in H1. destruct H1 as [Hi1 Hd1].
  apply bind_inv in H.
  destruct H as [(s0 & s2 & H2 & H) | [(e & H2 & ->) | (H2 & ->)]];
    cbv [get] in H2; try discriminate H2.
  injection H2 as <- <-.
  rewrite <- Hi1, <- Hd1.
  match type of H with
  | (if ?b then _ else _) _ = _ => destruct b
  end.
  1: match type of H with
     | (if ?b then _ else _) _ = _ => destruct b
     end.
  2,3: minv;
       match goal with
       | H : advance _ = _ |- _ => apply advance_spec in H; destruct H as [? ?]; subst
       end; try discriminate;
       cbn [waypoint_index with_waypoint_index trace];
       repeat split; try lia; try discriminate.
  minv.
  all: match goal with
       | H : controlled_landing _ _ = _ |- _ =>
           apply quiet_controlled_landing in H; destruct H as [Hi Hd]
       end.
  all: cbn [waypoint_index with_landing_detected trace].
  all: rewrite ?Hi, ?Hd; repeat split; try lia; try congruence.
Qed.

Lemma climb_send_spec (w : waypoint) (px py pz : Q) (s : session)
    (r : outcome flow) (s' : session) :
  climb_send P w px py pz s = (r, s') ->
  (waypoint_index s <= waypoint_index s' <= waypoint_index s + 1)%nat /\
  (dispatched (trace s') = dispatched (trace s) \/
   dispatched (trace s') = dispatched (trace s) ++ [waypoint_index s]) /\
  (r = Ret Next -> waypoint_index s' = (waypoint_index s + 1)%nat).
Proof.
  unfold climb_send. intros H.
  apply bind_inv in H.
  destruct H as [(s0 & s1 & H1 & H) | [(e & H1 & ->) | (H1 & ->)]];
    cbv [get] in H1; try discriminate H1.
  injection H1 as <- <-.
  destruct (String.eqb (INITIAL_CLIMB_MODE P) "BODY_VELOCITY").
  - destruct (initial_climb_yaw s); minv.
    all: repeat match goal with
         | H : await_dispatch _ _ _ = _ |- _ =>
             apply await_dispatch_spec in H; destruct H as [? ?]
         | H : advance _ = _ |- _ =>
             apply advance_spec in H; destruct H as [? ?]; subst
         end.
    all: cbn [waypoint_index with_waypoint_index with_initial_climb_yaw trace] in *.
    all: repeat split; try lia; try congruence; auto.
    all: solve [left; congruence | right; congruence].
  - destruct (initial_climb_yaw s); minv.
    all: repeat match goal with
         | H : await_dispatch _ _ _ = _ |- _ =>
             apply await_dispatch_spec in H; destruct H as [? ?]
         | H : advance _ = _ |- _ =>
             apply advance_spec in H; destruct H as [? ?]; subst
         | H : first_attitude_euler _ = _ |- _ =>
             apply quiet_first_attitude_euler in H; destruct H as [? ?]
         end.
    all: cbn [waypoint_index with_waypoint_index with_initial_climb_yaw trace] in *.
    all: repeat split; try lia; try congruence; auto.
    all: solve [left; congruence | right; congruence].
Qed.

Lemma iteration_post_one (s : session) (r : outcome flow) (s' : session) (i : nat) :
  (waypoint_index s <= i < total)%nat ->
  dispatched (trace s') = dispatched (trace s) ++ [i] ->
  (i <= waypoint_index s' <= i + 1)%nat ->
  (r = Ret Next -> waypoint_index s' = (i + 1)%nat) ->
  iteration_post total s r s'.
Proof.
  intros Hi Hd Hs Hr. unfold iteration_post.
  split; [lia|]. split; [lia|].
  exists [i]. split; [exact Hd|]. split; [cbn; lia|].
  split; [constructor; [lia | constructor]|].
  intros E. apply Hr in E. constructor; [lia | constructor].
Qed.

Lemma iteration_post_none (s : session) (r : outcome flow) (s' : session) :
  (waypoint_index s <= waypoint_index s' <= total)%nat ->
  dispatched (trace s') = dispatched (trace s) ->
  iteration_post total s r s'.
Proof.
  intros Hs Hd. unfold iteration_post.
  split; [lia|]. split; [lia|].
  exists []. rewrite app_nil_r. split; [exact Hd|]. split; [cbn; lia|].
  split; [constructor|]. intros _; constructor.
Qed.

Lemma skip_target_range (index : nat) (k : Z) :
  (index < total)%nat ->
  (index <= skip_target waypoints index k < total)%nat.
Proof. unfold skip_target. fold total. lia. Qed.

Lemma cruise_spec (w : waypoint) (px py pz : Q) (s : session)
    (r : outcome flow) (s' : session) :
  (waypoint_index s < total)%nat ->
  cruise P ned2geodetic waypoints launch_lat launch_lon launch_alt csv_step
    trajectory_ends_high w px py pz s = (r, s') ->
  iteration_post total s r s'.
Proof.
  intros Hlt H. unfold cruise in H.
  apply bind_inv in H.
  destruct H as [(s0 & s1 & H1 & H) | [(e & H1 & ->) | (H1 & ->)]];
    cbv [get] in H1; try discriminate H1.
  injection H1 as <- <-.
  apply bind_inv in H.
  destruct H as [(k & s1 & H1 & H) | [(e & H1 & ->) | (H1 & ->)]].
  2,3: apply (sat_of_result quiet quiet_refl) in H1; destruct H1 as [Hi Hd];
       apply iteration_post_none; [lia | exact Hd].
  apply (sat_of_result quiet quiet_refl) in H1. destruct H1 as [Hi1 Hd1].
  destruct (0 <? k)%Z.
  - pose proof (skip_target_range (waypoint_index s) k Hlt) as Hrange.
    set (target := skip_target waypoints (waypoint_index s) k) in *.
    apply bind_inv in H.
    destruct H as [(u & s2 & H2 & H) | [(e & H2 & ->) | (H2 & ->)]];
      cbv [modify] in H2; try discriminate H2.
    injection H2 as _ <-.
    apply bind_inv in H.
    destruct H as [(w' & s3 & H3 & H) | [(e & H3 & ->) | (H3 & ->)]].
    2,3: apply (sat_of_result quiet quiet_refl) in H3; destruct H3 as [Hi Hd];
         cbn [waypoint_index with_waypoint_index trace] in Hi, Hd;
         apply iteration_post_none; [lia | congruence].
    apply (sat_of_result quiet quiet_refl) in H3. destruct H3 as [Hi3 Hd3].
    cbn [waypoint_index with_waypoint_index trace] in Hi3, Hd3.
    destruct (corrected_position P (initial_position_drift s) w') as [[px' py'] pz'].
    apply bind_inv in H.
    destruct H as [(u' & s4 & H4 & H) | [(e & H4 & ->) | (H4 & ->)]];
      apply dispatch_spec in H4; destruct H4 as [Hi4 Hd4].
    2,3: apply (iteration_post_one _ _ _ target); try lia; try congruence.
    apply bind_inv in H.
    destruct H as [(u'' & s5 & H5 & H) | [(e & H5 & ->) | (H5 & ->)]];
      apply quiet_set_color in H5; destruct H5 as [Hi5 Hd5].
    2,3: apply (iteration_post_one _ _ _ target); try lia; try congruence.
    apply landing_decision_spec in H. destruct H as (Hd6 & Hi6 & Hr6).
    apply (iteration_post_one _ _ _ target); try lia; try congruence.
    intros E. apply Hr6 in E. lia.
  - apply bind_inv in H.
    destruct H as [(u' & s4 & H4 & H) | [(e & H4 & ->) | (H4 & ->)]];
      apply dispatch_spec in H4; destruct H4 as [Hi4 Hd4].
    2,3: apply (iteration_post_one _ _ _ (waypoint_index s)); try lia; try congruence.
    apply bind_inv in H.
    destruct H as [(u'' & s5 & H5 & H) | [(e & H5 & ->) | (H5 & ->)]];
      apply quiet_set_color in H5; destruct H5 as [Hi5 Hd5].
    2,3: apply (iteration_post_one _ _ _ (waypoint_index s)); try lia; try congruence.
    apply landing_decision_spec in H. destruct H as (Hd6 & Hi6 & Hr6).
    apply (iteration_post_one _ _ _ (waypoint_index s)); try lia; try congruence.
    intros E. apply Hr6 in E. lia.
Qed.

Lemma quiet_climb_gate (now pz : Q) : sat quiet (climb_gate P now pz).
Proof. unfold climb_gate. quiet_tac. Qed.

Lemma climb_send_post (w : waypoint) (px py pz : Q) (s : session)
    (r : outcome flow) (s' : session) :
  (waypoint_index s < total)%nat ->
  climb_send P w px py pz s = (r, s') ->
  iteration_post total s r s'.
Proof.
  intros Hlt H. apply climb_send_spec in H. destruct H as (Hi & [Hd | Hd] & Hr).
  - apply iteration_post_none; [lia | exact Hd].
  - apply (iteration_post_one _ _ _ (waypoint_index s)); try lia; auto.
Qed.

Lemma iteration_post_quiet_l (s0 s : session) (r : outcome flow) (s' : session) :
  quiet s0 s -> iteration_post total s r s' -> iteration_post total s0 r s'.
Proof.
  intros [Hi Hd]. unfold iteration_post. rewrite Hi, Hd. auto.
Qed.

Lemma on_time_or_late_spec (now : Q) (w : waypoint) (s : session)
    (r : outcome flow) (s' : session) :
  (waypoint_index s < total)%nat ->
  on_time_or_late P ned2geodetic waypoints launch_lat launch_lon launch_alt csv_step
    trajectory_ends_high now w s = (r, s') ->
  iteration_post total s r s'.
Proof.
  intros Hlt H. unfold on_time_or_late in H.
  apply bind_inv in H.
  destruct H as [(s0 & s1 & H1 & H) | [(e & H1 & ->) | (H1 & ->)]];
    cbv [get] in H1; try discriminate H1.
  injection H1 as <- <-.
  destruct (corrected_position P (initial_position_drift s) w) as [[px py] pz].
  apply bind_inv in H.
  destruct H as [(u & s1 & H1 & H) | [(e & H1 & ->) | (H1 & ->)]];
    apply quiet_climb_gate in H1.
  2,3: destruct H1 as [Hi Hd]; apply iteration_post_none; [lia | exact Hd].
  apply bind_inv in H.
  destruct H as [(u' & s2 & H2 & H) | [(e & H2 & ->) | (H2 & ->)]];
    apply quiet_set_color in H2;
    pose proof (quiet_trans _ _ _ H1 H2) as Hq.
  2,3: destruct Hq as [Hi Hd]; apply iteration_post_none; [lia | exact Hd].
  apply bind_inv in H.
  destruct H as [(s0 & s3 & H3 & H) | [(e & H3 & ->) | (H3 & ->)]];
    cbv [get] in H3; try discriminate H3.
  injection H3 as <- <-.
  apply (iteration_post_quiet_l _ _ _ _ Hq).
  assert (Hlt2 : (waypoint_index s2 < total)%nat) by (destruct Hq as [-> _]; exact Hlt).
  destruct (in_initial_climb s2).
  - eapply climb_send_post; eauto.
  - eapply cruise_spec; eauto.
Qed.

Lemma ahead_of_schedule_spec (t_wp elapsed : Q) (s : session)
    (r : outcome flow) (s' : session) :
  (waypoint_index s < total)%nat ->
  ahead_of_schedule t_wp elapsed s = (r, s') ->
  iteration_post total s r s'.
Proof.
  intros Hlt H. unfold ahead_of_schedule in H.
  destruct (Qltb 0 (t_wp - elapsed)); minv.
  all: try match goal with
       | H : asyncio_sleep _ _ = _ |- _ =>
           apply quiet_asyncio_sleep in H; destruct H as [Hi Hd]
       | H : advance _ = _ |- _ =>
           apply advance_spec in H; destruct H as [? ?]; subst
       end.
  all: try discriminate.
  all: apply iteration_post_none;
       cbn [waypoint_index with_waypoint_index trace]; try lia; auto.
Qed.

Lemma iteration_spec (s : session) (r : outcome flow) (s' : session) :
  (waypoint_index s < total)%nat ->
  iteration P ned2geodetic waypoints start_time launch_lat launch_lon launch_alt
    csv_step trajectory_ends_high s = (r, s') ->
  iteration_post total s r s'.
Proof.
  intros Hlt H. unfold iteration in H.
  apply bind_inv in H.
  destruct H as [(now & s1 & H1 & H) | [(e & H1 & ->) | (H1 & ->)]];
    apply quiet_time_time in H1.
  2,3: destruct H1 as [Hi Hd]; apply iteration_post_none; [lia | exact Hd].
  apply (iteration_post_quiet_l _ _ _ _ H1).
  assert (Hlt1 : (waypoint_index s1 < total)%nat) by (destruct H1 as [-> _]; exact Hlt).
  clear H1 Hlt s. rename s1 into s.
  apply bind_inv in H.
  destruct H as [(s0 & s1 & H1 & H) | [(e & H1 & ->) | (H1 & ->)]];
    cbv [get] in H1; try discriminate H1.
  injection H1 as <- <-.
  apply bind_inv in H.
  destruct H as [(w & s1 & H1 & H) | [(e & H1 & ->) | (H1 & ->)]];
    apply (sat_of_result quiet quiet_refl) in H1.
  2,3: destruct H1 as [Hi Hd]; apply iteration_post_none; [lia | exact Hd].
  apply bind_inv in H.
  destruct H as [(u & s2 & H2 & H) | [(e & H2 & ->) | (H2 & ->)]];
    cbv [modify] in H2; try discriminate H2.
  injection H2 as _ <-.
  assert (Hq : quiet s (with_drift_delta (now - start_time - wp_t w) s1)).
  { destruct H1 as [Hi Hd]. split; cbn [waypoint_index trace with_drift_delta]; auto. }
  apply (iteration_post_quiet_l _ _ _ _ Hq).
  assert (Hlt2 : (waypoint_index (with_drift_delta (now - start_time - wp_t w) s1) < total)%nat)
    by (destruct Hq as [-> _]; exact Hlt1).
  destruct (Qleb 0 (now - start_time - wp_t w)).
  - eapply on_time_or_late_spec; eauto.
  - eapply ahead_of_schedule_spec; eauto.
Qed.

Lemma guarded_iteration_spec (s : session) (r : outcome flow) (s' : session) :
  (waypoint_index s < total)%nat ->
  guarded_iteration P ned2geodetic waypoints start_time launch_lat launch_lon
    launch_alt csv_step trajectory_ends_high s = (r, s') ->
  iteration_post total s r s'.
Proof.
  intros Hlt H. unfold guarded_iteration in H.
  apply try_except_inv in H.
  destruct H as [(e & s1 & H1 & H2) | (H1 & _)].
  - apply iteration_spec in H1; [|exact Hlt].
    minv. unfold iteration_post in *. cbn [waypoint_index trace with_trace] in *.
    destruct H1 as (Hi & Ht & d & Hd & Hl & Hf & _).
    split; [exact Hi|]. split; [exact Ht|].
    exists d. rewrite dispatched_app, app_nil_r.
    repeat split; auto. intros E; discriminate E.
  - apply iteration_spec in H1; auto.
Qed.

Lemma StronglySorted_lt_cons_app (i : nat) (d : list nat) :
  StronglySorted lt d -> Forall (fun j => (i < j)%nat) d -> StronglySorted lt (i :: d).
Proof. intros Hs Hf. constructor; assumption. Qed.

(** C4: from any state of the loop on, however long it runs and however
    it ends, the cursor does not decrease and does not pass the number of
    waypoints, and the setpoints dispatched meanwhile carry strictly
    increasing cursors (so they are in non-decreasing order and none is
    repeated), each between the starting cursor and the last index. *)
Theorem cursor_monotone_dispatch_in_order (fuel : nat) (s : session)
    (r : outcome unit) (s' : session) :
  (waypoint_index s <= total)%nat ->
  trajectory_loop P ned2geodetic waypoints start_time launch_lat launch_lon
    launch_alt csv_step trajectory_ends_high fuel s = (r, s') ->
  (waypoint_index s <= waypoint_index s' <= total)%nat /\
  exists d,
    dispatched (trace s') = dispatched (trace s) ++ d /\
    StronglySorted lt d /\
    Forall (fun i => (waypoint_index s <= i <= total - 1)%nat /\ (i < total)%nat) d.
Proof.
  revert s r s'. induction fuel as [|fuel IH]; intros s r s' Hle H.
  - cbn in H. injection H as _ <-. split; [lia|].
    exists []. rewrite app_nil_r. repeat constructor.
  - cbn [trajectory_loop] in H.
    apply bind_inv in H.
    destruct H as [(s0 & s1 & H1 & H) | [(e & H1 & ->) | (H1 & ->)]];
      cbv [get] in H1; try discriminate H1.
    injection H1 as <- <-.
    destruct (Nat.ltb_spec (waypoint_index s) (total_waypoints waypoints)) as [Hlt | Hge].
    + apply bind_inv in H.
      destruct H as [(fl & s1 & H1 & H) | [(e & H1 & ->) | (H1 & ->)]];
        apply guarded_iteration_spec in H1; try exact Hlt;
        destruct H1 as (Hi & Ht & d1 & Hd1 & Hl1 & Hf1 & Hn1).
      2,3: split; [fold total; lia|]; exists d1; split; [exact Hd1|]; split;
           [destruct d1 as [|i [|j d1]]; cbn in Hl1; try lia; repeat constructor
           | eapply Forall_impl; [|exact Hf1]; cbn; intros; fold total; lia].
      destruct fl.
      * apply IH in H; [|exact Ht].
        destruct H as (Hi2 & d2 & Hd2 & Hs2 & Hf2).
        split; [lia|].
        exists (d1 ++ d2). split; [rewrite Hd2, Hd1; symmetry; apply app_assoc|].
        specialize (Hn1 eq_refl).
        destruct d1 as [|i [|j d1]]; cbn in Hl1; try lia; cbn [app].
        -- split; [exact Hs2|].
           eapply Forall_impl; [|exact Hf2]. cbn; intros; lia.
        -- inversion Hn1; subst. inversion Hf1; subst.
           split.
           ++ apply StronglySorted_lt_cons_app; [exact Hs2|].
              eapply Forall_impl; [|exact Hf2]. cbn; intros; lia.
           ++ constructor; [fold total; lia|].
              eapply Forall_impl; [|exact Hf2]. cbn; intros; lia.
      * cbv [ret] in H. injection H as _ <-.
        split; [fold total; lia|]. exists d1. split; [exact Hd1|]. split.
        -- destruct d1 as [|i [|j d1]]; cbn in Hl1; try lia; repeat constructor.
        -- eapply Forall_impl; [|exact Hf1]. cbn; intros; fold total; lia.
    + cbv [ret] in H. injection H as _ <-. split; [lia|].
      exists []. rewrite app_nil_r. repeat constructor.
Qed.

(** *** Running one iteration forward *)

Let run_iteration :=
  iteration P ned2geodetic waypoints start_time launch_lat launch_lon launch_alt
    csv_step trajectory_ends_high.
Let run_guarded :=
  guarded_iteration P ned2geodetic waypoints start_time launch_lat launch_lon
    launch_alt csv_step trajectory_ends_high.
Let run_loop :=
  trajectory_loop P ned2geodetic waypoints start_time launch_lat launch_lon
    launch_alt csv_step trajectory_ends_high.
Let run_on_time :=
  on_time_or_late P ned2geodetic waypoints launch_lat launch_lon launch_alt csv_step
    trajectory_ends_high.

Lemma iteration_on_time (s : session) (now : Q) (rest : list response) (w : waypoint) :
  script s = Clock now :: rest ->
  nth_error waypoints (waypoint_index s) = Some w ->
  0 <= now - start_time - wp_t w ->
  run_iteration s =
  run_on_time now w
    (with_drift_delta (now - start_time - wp_t w) (with_script rest s)).
Proof.
  intros Hs Hw Hd. unfold run_iteration, iteration.
  rewrite (bind_run _ _ _ _ _ (time_time_run _ _ _ Hs)).
  rewrite bind_get. cbn [waypoint_index with_script].
  unfold item. rewrite Hw. cbn [of_result]. rewrite bind_ret, bind_modify.
  rewrite (Qleb_true _ _ Hd). reflexivity.
Qed.


Lemma climb_gate_closed (s : session) (now pz : Q) :
  initial_climb_completed s = false ->
  (- pz < INITIAL_CLIMB_ALTITUDE_THRESHOLD P \/
   now - initial_climb_start_time s < INITIAL_CLIMB_TIME_THRESHOLD P) ->
  climb_gate P now pz s = (Ret tt, with_in_initial_climb true s).
Proof.
  intros Hc H. unfold climb_gate. rewrite bind_get, Hc. cbn [negb].
  assert (E : Qltb (- pz) (INITIAL_CLIMB_ALTITUDE_THRESHOLD P)
              || Qltb (now - initial_climb_start_time s) (INITIAL_CLIMB_TIME_THRESHOLD P)
              = true).
  { destruct H as [H | H]; rewrite (Qltb_true _ _ H); [reflexivity | apply orb_true_r]. }
  rewrite E. reflexivity.
Qed.


Lemma on_time_gate_closed (s : session) (now : Q) (w : waypoint) (px py pz : Q) :
  corrected_position P (initial_position_drift s) w = (px, py, pz) ->
  initial_climb_completed s = false ->
  (- pz < INITIAL_CLIMB_ALTITUDE_THRESHOLD P \/
   now - initial_climb_start_time s < INITIAL_CLIMB_TIME_THRESHOLD P) ->
  run_on_time now w s =
  climb_send P w px py pz
    (with_trace (trace s ++ [Led (wp_ledr w) (wp_ledg w) (wp_ledb w)])
       (with_in_initial_climb true s)).
Proof.
  intros Hpos Hc Hgate. unfold run_on_time, on_time_or_late.
  rewrite bind_get, Hpos.
  rewrite (bind_run _ _ _ _ _ (climb_gate_closed _ _ _ Hc Hgate)).
  rewrite bind_set_color, bind_get. reflexivity.
Qed.








Lemma guarded_iteration_raise (s : session) (e : exn) (s1 : session) :
  run_iteration s = (Raise e, s1) ->
  run_guarded s = (Ret Break, with_trace (trace s1 ++ [Led 255 0 0]) s1).
Proof.
  intros H. unfold run_guarded, guarded_iteration, try_except.
  unfold run_iteration in H. rewrite H. reflexivity.
Qed.

Lemma trajectory_loop_break (fuel : nat) (s s1 : session) :
  (waypoint_index s < total)%nat ->
  run_guarded s = (Ret Break, s1) ->
  run_loop (S fuel) s = (Ret tt, s1).
Proof.
  intros Hlt H. unfold run_loop. cbn [trajectory_loop].
  rewrite bind_get.
  apply Nat.ltb_lt in Hlt. unfold total in Hlt. rewrite Hlt.
  unfold run_guarded in H. rewrite (bind_run _ _ _ _ _ H). reflexivity.
Qed.


Lemma climb_send_raise_index (w : waypoint) (px py pz : Q) (s : session) (e : exn)
    (s' : session) :
  climb_send P w px py pz s = (Raise e, s') ->
  waypoint_index s' = waypoint_index s.
Proof.
  unfold climb_send. intros H.
  rewrite bind_get in H.
  destruct (String.eqb (INITIAL_CLIMB_MODE P) "BODY_VELOCITY").
  - destruct (initial_climb_yaw s); minv.
    all: repeat match goal with
         | H : await_dispatch _ _ _ = _ |- _ =>
             apply await_dispatch_spec in H; destruct H as [? ?]
         | H : advance _ = _ |- _ =>
             apply advance_spec in H; destruct H as [? ?]; subst
         end.
    all: cbn [waypoint_index with_waypoint_index with_initial_climb_yaw trace] in *.
    all: try congruence.
  - destruct (initial_climb_yaw s); minv.
    all: repeat match goal with
         | H : await_dispatch _ _ _ = _ |- _ =>
             apply await_dispatch_spec in H; destruct H as [? ?]
         | H : advance _ = _ |- _ =>
             apply advance_spec in H; destruct H as [? ?]; subst
         | H : first_attitude_euler _ = _ |- _ =>
             apply quiet_first_attitude_euler in H; destruct H as [? ?]
         end.
    all: cbn [waypoint_index with_waypoint_index with_initial_climb_yaw trace] in *.
    all: try congruence.
Qed.

Lemma climb_send_landing_detected (w : waypoint) (px py pz : Q) (s : session)
    (r : outcome flow) (s' : session) :
  climb_send P w px py pz s = (r, s') ->
  landing_detected s' = landing_detected s.
Proof.
  unfold climb_send. intros H.
  rewrite bind_get in H.
  destruct (String.eqb (INITIAL_CLIMB_MODE P) "BODY_VELOCITY");
    destruct (initial_climb_yaw s); minv.
  all: repeat match goal with
       | H : await_dispatch _ _ _ = _ |- _ =>
           unfold await_dispatch, answer, emit, modify, next_response, bind in H
       | H : advance _ = _ |- _ =>
           apply advance_spec in H; destruct H as [? ?]; subst
       | H : first_attitude_euler _ = _ |- _ =>
           unfold first_attitude_euler, next_response, bind in H
       | H : context [match script ?x with _ => _ end] |- _ =>
           destruct (script x) as [|[ | | | | | ] ?]
       | H : (_, _) = (_, _) |- _ => inversion H; clear H; subst
       | H : ret _ _ = _ |- _ => cbv [ret] in H
       | H : raise _ _ = _ |- _ => cbv [raise] in H
       | H : stuck _ = _ |- _ => cbv [stuck] in H
       end.
  all: cbn [landing_detected with_waypoint_index with_initial_climb_yaw with_trace
            with_script] in *.
  all: try reflexivity; try congruence.
Qed.

(** C8 (as amended): an error raised while the setpoint of an
    initial-climb iteration is being sent is not recovered: the handler of
    the loop sets the LED red and breaks, so the loop returns at once, with
    the cursor where it was; and what runs next is the post-loop landing
    path, on the session that the handler left. *)
Theorem climb_command_error_breaks_loop
    (s : session) (now : Q) (rest : list response) (w : waypoint) (px py pz : Q)
    (e : exn) (s_raise : session) (fuel : nat) :
  script s = Clock now :: rest ->
  nth_error waypoints (waypoint_index s) = Some w ->
  0 <= now - start_time - wp_t w ->
  corrected_position P (initial_position_drift s) w = (px, py, pz) ->
  initial_climb_completed s = false ->
  (- pz < INITIAL_CLIMB_ALTITUDE_THRESHOLD P \/
   now - initial_climb_start_time s < INITIAL_CLIMB_TIME_THRESHOLD P) ->
  landing_detected s = false ->
  climb_send P w px py pz
    (with_trace (trace s ++ [Led (wp_ledr w) (wp_ledg w) (wp_ledb w)])
       (with_in_initial_climb true
          (with_drift_delta (now - start_time - wp_t w) (with_script rest s))))
  = (Raise e, s_raise) ->
  let s_break := with_trace (trace s_raise ++ [Led 255 0 0]) s_raise in
  run_guarded s = (Ret Break, s_break) /\
  run_loop (S fuel) s = (Ret tt, s_break) /\
  waypoint_index s_break = waypoint_index s /\
  (run_loop (S fuel) ;; post_trajectory P trajectory_ends_high)%monad s =
  ((if trajectory_ends_high
    then stop_offboard_mode ;; perform_landing P ;; wait_for_landing P
    else controlled_landing P) ;;
   set_color 0 255 0)%monad s_break.
Proof.
  intros Hs Hw Hlate Hpos Hc Hgate Hland Hsend s_break.
  assert (Hlt : (waypoint_index s < total)%nat).
  { apply nth_error_Some. rewrite Hw. discriminate. }
  assert (Hit : run_iteration s = (Raise e, s_raise)).
  { rewrite (iteration_on_time _ _ _ _ Hs Hw Hlate).
    rewrite (on_time_gate_closed _ _ _ px py pz); [exact Hsend|exact Hpos|exact Hc|exact Hgate]. }
  pose proof (guarded_iteration_raise _ _ _ Hit) as Hg. fold s_break in Hg.
  pose proof (trajectory_loop_break fuel _ _ Hlt Hg) as Hl.
  split; [exact Hg|]. split; [exact Hl|]. split.
  - apply climb_send_raise_index in Hsend. subst s_break.
    cbn [waypoint_index with_trace] in *. exact Hsend.
  - rewrite (bind_run _ _ _ _ _ Hl).
    unfold post_trajectory. rewrite bind_get.
    apply climb_send_landing_detected in Hsend.
    cbn [landing_detected with_trace with_in_initial_climb with_drift_delta
         with_script] in Hsend.
    replace (landing_detected s_break) with false
      by (subst s_break; cbn [landing_detected with_trace]; congruence).
    reflexivity.
Qed.


End TrajectoryFacts.

End FlightFacts.

(** ** The drift-skip *)


(** The skip count at some ordinary inputs, the numbers being the binary64
    numbers that the texts read as: with samples 0.1 s apart, 0.3 s late
    skips 2 (the quotient is just below 3) and 0.5 s late skips 5; with
    samples 0.01 s apart, 0.35 s late skips 35 and 0.29 s late skips 28. *)
Example skip_count_at_ordinary_inputs :
  skip_count_of tenth (5404319552844595 # 18014398509481984) = Ok 2%Z /\
  skip_count_of tenth (1 # 2) = Ok 5%Z /\
  skip_count_of (5764607523034235 # 576460752303423488)
    (3152519739159347 # 9007199254740992) = Ok 35%Z /\
  skip_count_of (5764607523034235 # 576460752303423488)
    (5224175567749775 # 18014398509481984) = Ok 28%Z.
Proof. repeat split; vm_compute; reflexivity. Qed.





(** ** The landing decision *)



(** ** The order of dispatch *)

Lemma cursor_monotone_dispatch_in_order_witness :
  (waypoint_index three_high_session <= waypoint_index (snd three_high_run)
     <= total_waypoints three_high)%nat /\
  exists d,
    dispatched (trace (snd three_high_run))
      = dispatched (trace three_high_session) ++ d /\
    StronglySorted lt d /\
    Forall (fun i => (waypoint_index three_high_session <= i
                        <= total_waypoints three_high - 1)%nat /\
                     (i < total_waypoints three_high)%nat) d.
Proof.
  apply (cursor_monotone_dispatch_in_order demo_params flat_geodetic three_high 0 0 0 0 1
           true 7 three_high_session (fst three_high_run) (snd three_high_run)).
  - vm_compute. lia.
  - vm_compute. reflexivity.
Defined.

(** ** Errors during the climb *)

(** C8, the claim as stated fails: the first climb setpoint raises
    [OffboardError]; the iteration ends with [Break], the LED is red, and
    the loop returns with the cursor still at 0 of 3 and the answers of a
    second iteration unread. *)
Lemma climb_command_error_stops_loop :
  guarded_iteration climbing_params flat_geodetic three_high 0 0 0 0 1 true
    climb_error_session
  = (Ret Break, with_trace (trace climb_error_raised ++ [Led 255 0 0]) climb_error_raised) /\
  trajectory_loop climbing_params flat_geodetic three_high 0 0 0 0 1 true 5
    climb_error_session
  = (Ret tt, with_trace (trace climb_error_raised ++ [Led 255 0 0]) climb_error_raised) /\
  script climb_error_raised = [Clock 1; Done] /\
  (waypoint_index climb_error_raised < total_waypoints three_high)%nat.
Proof.
  split; [reflexivity|]. split; [reflexivity|]. split; [reflexivity|].
  vm_compute. lia.
Qed.

Lemma climb_command_error_breaks_loop_witness :
  guarded_iteration climbing_params flat_geodetic three_high 0 0 0 0 1 true
    climb_error_session
  = (Ret Break, with_trace (trace climb_error_raised ++ [Led 255 0 0]) climb_error_raised) /\
  trajectory_loop climbing_params flat_geodetic three_high 0 0 0 0 1 true 5
    climb_error_session
  = (Ret tt, with_trace (trace climb_error_raised ++ [Led 255 0 0]) climb_error_raised) /\
  waypoint_index
    (with_trace (trace climb_error_raised ++ [Led 255 0 0]) climb_error_raised)
  = waypoint_index climb_error_session /\
  (trajectory_loop climbing_params flat_geodetic three_high 0 0 0 0 1 true 5 ;;
   post_trajectory climbing_params true)%monad climb_error_session
  = ((stop_offboard_mode ;; perform_landing climbing_params ;;
      wait_for_landing climbing_params) ;;
     set_color 0 255 0)%monad
      (with_trace (trace climb_error_raised ++ [Led 255 0 0]) climb_error_raised).
Proof.
  apply (climb_command_error_breaks_loop climbing_params flat_geodetic three_high 0 0 0 0 1
           true climb_error_session 0 [Fails OffboardError; Clock 1; Done]
           (sample_waypoint 0 0 0 (- (5))) 0 0 (- (5)) OffboardError
           climb_error_raised 4).
  - reflexivity.
  - reflexivity.
  - vm_compute. discriminate.
  - reflexivity.
  - reflexivity.
  - right. vm_compute. reflexivity.
  - reflexivity.
  - reflexivity.
Defined.

(** ** A zero step between the first two samples *)


Lemma csv_step_of_single (P : Params) (w0 : waypoint) :
  csv_step_of P [w0] = Ok (DRIFT_CHECK_PERIOD P).
Proof. reflexivity. Qed.

(** ** The position-correction fetch *)

Lemma corrected_position_without_drift (P : Params) (w : waypoint) :
  corrected_position P None w = (wp_px w, wp_py w, wp_pz w).
Proof. unfold corrected_position. destruct (ENABLE_INITIAL_POSITION_CORRECTION P); reflexivity. Qed.

(** The failures that the fetch does absorb: it returns [None], and the
    loop then sends every waypoint uncorrected. *)
Lemma compute_position_drift_degrades (s : session) (r : response) (rest : list response) :
  handled_fetch_failure r = true ->
  compute_position_drift (with_script (r :: rest) s)
  = (Ret None, with_trace (trace s ++ [HttpGet]) (with_script rest s)).
Proof.
  intros H. destruct s.
  destruct r as [now | | e | yaw | st | status body]; try discriminate H.
  - destruct e; try discriminate H. reflexivity.
  - cbn in H. unfold compute_position_drift, try_except, requests_get, bind, emit,
      modify, next_response. cbn.
    destruct (status =? 200)%Z; [|reflexivity].
    destruct body as [[[x|] [y|] [z|] | ] | ]; try discriminate H; reflexivity.
Qed.

(** C7, the failing input: the service answers 200 with a JSON body that is
    not an object.  [ned_data['x']] raises [TypeError], which neither
    handler of [compute_position_drift] catches; the handler of the arming
    sequence disarms, sets the LED red and raises it again, out of the
    attempt. *)
Theorem arming_raises_on_non_object_payload (P : Params) (home : Q * Q * Q)
    (s : session) (rest : list response) :
  REQUIRE_GLOBAL_POSITION P = true ->
  compute_position_drift (with_script (not_an_object :: Done :: rest) s)
  = (Raise TypeError, with_trace (trace s ++ [HttpGet]) (with_script (Done :: rest) s)) /\
  arming_attempt P (Some home) (with_script (not_an_object :: Done :: rest) s)
  = (Raise TypeError,
     with_trace (trace s ++ [Led 0 255 0; HttpGet; Call action_disarm; Led 255 0 0])
       (with_script rest s)).
Proof.
  intros H. destruct s. split; [reflexivity|].
  unfold arming_attempt. rewrite H.
  cbn -[Z.eqb]. unfold try_except, bind. cbn.
  rewrite <- !app_assoc. reflexivity.
Qed.

Lemma arming_raises_on_non_object_payload_witness :
  compute_position_drift
    (with_script (not_an_object :: Done :: []) (loop_session [] 0 false 0))
  = (Raise TypeError,
     with_trace (trace (loop_session [] 0 false 0) ++ [HttpGet])
       (with_script (Done :: []) (loop_session [] 0 false 0))) /\
  arming_attempt demo_params (Some (0, 0, 0))
    (with_script (not_an_object :: Done :: []) (loop_session [] 0 false 0))
  = (Raise TypeError,
     with_trace (trace (loop_session [] 0 false 0)
                 ++ [Led 0 255 0; HttpGet; Call action_disarm; Led 255 0 0])
       (with_script [] (loop_session [] 0 false 0))).
Proof.
  apply (arming_raises_on_non_object_payload demo_params (0, 0, 0)
           (loop_session [] 0 false 0) []).
  reflexivity.
Defined.

(** Scenario C: the service answers with an error status; the correction
    stays absent and the arming sequence completes. *)
Example arming_proceeds_on_error_status :
  arming_attempt demo_params (Some (0, 0, 0))
    (loop_session [HttpResponse 500 None; Done; Done; Done; Done] 0 false 0)
  = (Ret tt,
     mkSession []
       [Led 0 255 0; HttpGet; Call action_hold; Call action_arm;
        Call (set_velocity_body (mkVelocityBodyYawspeed 0 0 0 0));
        Call offboard_start; Led 255 255 255]
       None 0 0 false true false 0 None false).
Proof. reflexivity. Qed.

(** With a service that keeps answering so, every attempt of the retried
    arming sequence fails and [RetryError] leaves it. *)
Example arming_gives_up_on_non_object_payload :
  fst (arming_and_starting_offboard_mode demo_params (Some (0, 0, 0))
         (loop_session [not_an_object; Done; not_an_object; Done; not_an_object; Done]
            0 false 0))
  = Raise RetryError.
Proof. reflexivity. Qed.

(** ** Errors during controlled landing *)

(** C9, the failing input: the first descent setpoint of
    [controlled_landing] raises [OffboardError].  The LED is set red and
    the function returns: offboard mode is not stopped and no native
    landing command is issued. *)
Theorem controlled_landing_setup_error_returns (P : Params) (s : session) (t0 : Q)
    (rest : list response) :
  controlled_landing P (with_script (Clock t0 :: Fails OffboardError :: rest) s)
  = (Ret tt,
     with_trace (trace s ++ [Call (descent_setpoint P); Led 255 0 0])
       (with_script rest (with_cl_landing_detected false s))).
Proof.
  destruct s. unfold controlled_landing, try_except, bind. cbn.
  rewrite <- !app_assoc. reflexivity.
Qed.

(** The sibling path: the same error on a descent setpoint inside the loop
    does lead to the fallback (offboard stopped, native landing). *)
Example controlled_landing_descent_error_falls_back :
  trace (snd (controlled_landing demo_params
                (loop_session [Clock 0; Done; Fails OffboardError; Done; Done;
                               Clock 0; Landed ON_GROUND] 0 false 0)))
  = [Call (descent_setpoint demo_params); Call (descent_setpoint demo_params);
     Led 255 0 0; Call offboard_stop; Call action_land; Led 0 255 0].
Proof. reflexivity. Qed.

(** * More of the program *)

(** ** The loader, further *)

Section LoaderMore.

Variable clamp_led_value : cell -> Z.

Lemma decode_row_errors (auto : bool) (r : row) (e : exn) :
  decode_row clamp_led_value auto r = Err e ->
  e = KeyError \/ e = ValueError \/ e = TypeError.
Proof.
  unfold decode_row, rbind, float_item, float_get.
  destruct (r_t r); try (intros H; injection H as <-; auto; fail).
  destruct (r_px r); try (intros H; injection H as <-; auto; fail).
  destruct (r_py r); try (intros H; injection H as <-; auto; fail).
  destruct auto; destruct (r_pz r); try (intros H; injection H as <-; auto; fail).
  all: destruct (r_vx r); try (intros H; injection H as <-; auto; fail).
  all: destruct (r_vy r); try (intros H; injection H as <-; auto; fail).
  all: destruct (r_vz r); try (intros H; injection H as <-; auto; fail).
  all: destruct (r_ax r); try (intros H; injection H as <-; auto; fail).
  all: destruct (r_ay r); try (intros H; injection H as <-; auto; fail).
  all: destruct (r_az r); try (intros H; injection H as <-; auto; fail).
  all: destruct (r_yaw r); try (intros H; injection H as <-; auto; fail).
  all: discriminate.
Qed.

Lemma collect_waypoints_decodable (auto : bool) (rows : list row) (ws : list waypoint) :
  collect_waypoints clamp_led_value auto rows = Ok ws ->
  ws = decodable clamp_led_value auto rows.
Proof.
  revert ws. induction rows as [|r rest IH]; intros ws H.
  - cbn in H. injection H as <-. reflexivity.
  - apply collect_waypoints_cons in H. unfold decodable. cbn [flat_map].
    destruct H as [(w & ws' & Hw & Hrest & ->) | [[Hw | Hw] Hrest]]; rewrite Hw.
    + cbn [app]. f_equal. apply IH. exact Hrest.
    + apply IH. exact Hrest.
    + apply IH. exact Hrest.
Qed.

Lemma collect_waypoints_fails (auto : bool) (rows : list row) :
  (exists e, collect_waypoints clamp_led_value auto rows = Err e) <->
  (exists r, In r rows /\ decode_row clamp_led_value auto r = Err TypeError).
Proof.
  induction rows as [|r rest IH].
  - split; [intros [e H]; discriminate H | intros (r & [] & _)].
  - cbn [collect_waypoints].
    destruct (decode_row clamp_led_value auto r) as [w|e0] eqn:Hr.
    + destruct (collect_waypoints clamp_led_value auto rest) as [ws|e1] eqn:Hrest.
      * split; [intros [e H]; discriminate H|].
        intros (r' & [<- | Hin] & Hd); [congruence|].
        assert (Hex : exists r, In r rest /\ decode_row clamp_led_value auto r = Err TypeError)
          by eauto.
        apply IH in Hex. destruct Hex as [e H]. discriminate H.
      * split; [|intros _; eauto].
        intros _. assert (Hex : exists e, @Err (list waypoint) e1 = Err e) by eauto.
        apply IH in Hex. destruct Hex as (r' & Hin & Hd). exists r'. split; [right|]; auto.
    + destruct (decode_row_errors _ _ _ Hr) as [-> | [-> | ->]].
      * rewrite IH. split.
        -- intros (r' & Hin & Hd). exists r'. split; [right|]; auto.
        -- intros (r' & [<- | Hin] & Hd); [congruence | eauto].
      * rewrite IH. split.
        -- intros (r' & Hin & Hd). exists r'. split; [right|]; auto.
        -- intros (r' & [<- | Hin] & Hd); [congruence | eauto].
      * split; [|intros _; eauto].
        intros _. exists r. split; [left; reflexivity | exact Hr].
Qed.

(** X3: The load is fatal exactly when the file has no row, or (with the auto
    origin) the position of the first row does not decode, or some row is
    shorter than the header in a field that is reached: a [ValueError] or a
    [KeyError] in a row never fails the load. *)
Theorem read_trajectory_file_fatal (rows : list row) (auto : bool) (ix iy : Q) :
  read_trajectory_file clamp_led_value rows auto ix iy = None <->
  rows = [] \/
  (auto = true /\
   exists first rest e, rows = first :: rest /\ extract_initial_positions first = Err e) \/
  (exists r, In r rows /\ decode_row clamp_led_value auto r = Err TypeError).
Proof.
  unfold read_trajectory_file.
  destruct rows as [|first rest]; [split; auto|].
  destruct auto.
  - destruct (extract_initial_positions first) as [[[n e] d]|e0] eqn:Hinit.
    + destruct (collect_waypoints clamp_led_value true (first :: rest)) as [ws|e1] eqn:Hc.
      * split; [discriminate|].
        intros [H | [(_ & f & r & e2 & Heq & He) | Hex]]; [discriminate H| |].
        -- injection Heq as <- <-. congruence.
        -- apply collect_waypoints_fails in Hex. destruct Hex as [e2 He]. congruence.
      * split; [|reflexivity]. intros _. right; right.
        apply collect_waypoints_fails. eauto.
    + split; [|reflexivity]. intros _. right; left. split; [reflexivity|].
      exists first, rest, e0. auto.
  - destruct (collect_waypoints clamp_led_value false (first :: rest)) as [ws|e1] eqn:Hc.
    + split; [discriminate|].
      intros [H | [(H & _) | Hex]]; [discriminate H | discriminate H |].
      apply collect_waypoints_fails in Hex. destruct Hex as [e2 He]. congruence.
    + split; [|reflexivity]. intros _. right; right.
      apply collect_waypoints_fails. eauto.
Qed.

Lemma decodable_length (auto : bool) (rows : list row) :
  (List.length (decodable clamp_led_value auto rows) <= List.length rows)%nat.
Proof.
  unfold decodable. induction rows as [|r rest IH]; cbn [flat_map List.length]; [lia|].
  rewrite length_app. destruct (decode_row clamp_led_value auto r); cbn; lia.
Qed.

(** X4: A loaded trajectory is the rows of the file that decode, in the order
    of the file, shifted by the origin of the mode: the configured pair
    with down 0, or the position of the first row.  It never has more
    waypoints than the file has rows. *)
Theorem read_trajectory_file_loaded (rows : list row) (auto : bool) (ix iy : Q)
    (T : list waypoint) :
  read_trajectory_file clamp_led_value rows auto ix iy = Some T ->
  (List.length T <= List.length rows)%nat /\
  ((auto = false /\
    T = adjust_waypoints (decodable clamp_led_value false rows) ix iy 0) \/
   (auto = true /\
    exists first rest n e d,
      rows = first :: rest /\
      extract_initial_positions first = Ok (n, e, d) /\
      T = adjust_waypoints (decodable clamp_led_value true rows) n e d)).
Proof.
  unfold read_trajectory_file.
  destruct rows as [|first rest]; [discriminate|].
  destruct auto.
  - destruct (extract_initial_positions first) as [[[n e] d]|e0] eqn:Hinit; [|discriminate].
    destruct (collect_waypoints clamp_led_value true (first :: rest)) as [ws|e1] eqn:Hc;
      [|discriminate].
    intros H; injection H as <-.
    apply collect_waypoints_decodable in Hc. subst ws. split.
    + unfold adjust_waypoints. rewrite length_map. apply decodable_length.
    + right. split; [reflexivity|]. exists first, rest, n, e, d. auto.
  - destruct (collect_waypoints clamp_led_value false (first :: rest)) as [ws|e1] eqn:Hc;
      [|discriminate].
    intros H; injection H as <-.
    apply collect_waypoints_decodable in Hc. subst ws. split.
    + unfold adjust_waypoints. rewrite length_map. apply decodable_length.
    + left. auto.
Qed.

End LoaderMore.

(** X5: A file of which every row is dropped loads, with configured origin, as
    the empty trajectory: the load itself is not fatal. *)
Theorem all_rows_dropped_loads_empty (clamp_led_value : cell -> Z) (rows : list row)
    (ix iy : Q) :
  rows <> [] ->
  Forall (fun r => decode_row clamp_led_value false r = Err ValueError \/
                   decode_row clamp_led_value false r = Err KeyError) rows ->
  read_trajectory_file clamp_led_value rows false ix iy = Some [].
Proof.
  intros Hne Hall. unfold read_trajectory_file.
  destruct rows as [|first rest]; [contradiction Hne; reflexivity|].
  assert (Hc : collect_waypoints clamp_led_value false (first :: rest) = Ok []).
  { clear Hne. induction Hall as [|r rs Hr _ IH]; [reflexivity|].
    cbn [collect_waypoints]. destruct Hr as [-> | ->]; exact IH. }
  rewrite Hc. reflexivity.
Qed.

Lemma all_rows_dropped_loads_empty_witness :
  read_trajectory_file no_clamp
    [garbled_velocity_row 0 5 6 7; garbled_velocity_row 1 8 8 8] false 0 0 = Some [].
Proof.
  apply (all_rows_dropped_loads_empty no_clamp
           [garbled_velocity_row 0 5 6 7; garbled_velocity_row 1 8 8 8] 0 0).
  - discriminate.
  - repeat constructor.
Defined.

(** ** The fleet configuration *)

Lemma config_row_step_errors (HW_ID : option Z) (r : config_row) (e : exn) :
  config_row_step HW_ID r = Err e ->
  e = KeyError \/ e = ValueError \/ e = TypeError.
Proof.
  unfold config_row_step, decode_drone, rbind, int_item, float_item, text_item.
  destruct (c_hw_id r); try (intros H; injection H as <-; auto; fail).
  destruct (is_hw_id HW_ID z); [|discriminate].
  destruct (c_pos_id r); try (intros H; injection H as <-; auto; fail).
  destruct (c_x r); try (intros H; injection H as <-; auto; fail).
  destruct (c_y r); try (intros H; injection H as <-; auto; fail).
  destruct (c_ip r); try (intros H; injection H as <-; auto; fail).
  destruct (c_mavlink_port r); try (intros H; injection H as <-; auto; fail).
  destruct (c_debug_port r); try (intros H; injection H as <-; auto; fail).
  destruct (c_gcs_ip r); try (intros H; injection H as <-; auto; fail).
  discriminate.
Qed.

Lemma config_row_step_hw_id (HW_ID : option Z) (r : config_row) (d : Drone) :
  config_row_step HW_ID r = Ok (Some d) -> HW_ID = Some (hw_id d).
Proof.
  unfold config_row_step, rbind.
  destruct (int_item (c_hw_id r)) as [z|]; [|discriminate].
  destruct (is_hw_id HW_ID z) eqn:E; [|discriminate].
  destruct (decode_drone z r) as [d'|] eqn:Hd; [|discriminate].
  intros H; injection H as <-.
  unfold decode_drone, rbind in Hd.
  destruct (int_item (c_pos_id r)); [|discriminate].
  destruct (float_item (c_x r)); [|discriminate].
  destruct (float_item (c_y r)); [|discriminate].
  destruct (text_item (c_ip r)); [|discriminate].
  destruct (int_item (c_mavlink_port r)); [|discriminate].
  destruct (int_item (c_debug_port r)); [|discriminate].
  destruct (text_item (c_gcs_ip r)); [|discriminate].
  injection Hd as <-. cbn.
  unfold is_hw_id in E. destruct HW_ID as [h|]; [|discriminate].
  apply Z.eqb_eq in E. congruence.
Qed.

(** X6: [read_config] returns a drone exactly when some row of the file
    decodes to it with the hardware id looked for, every row before it
    being of another drone or dropped for a [ValueError]: the first such
    row wins. *)
Theorem read_config_first_match (HW_ID : option Z) (rows : list config_row) (d : Drone) :
  read_config HW_ID rows = Some d <->
  exists before r after,
    rows = before ++ r :: after /\
    Forall (passed_over HW_ID) before /\
    config_row_step HW_ID r = Ok (Some d) /\
    HW_ID = Some (hw_id d).
Proof.
  split.
  - induction rows as [|r rest IH]; [discriminate|].
    cbn [read_config].
    destruct (config_row_step HW_ID r) as [[d'|]|e] eqn:Hr.
    + intros H; injection H as <-.
      exists [], r, rest. repeat split; auto.
      eapply config_row_step_hw_id; eauto.
    + intros H. destruct (IH H) as (before & r' & after & -> & Hb & Hd & Hh).
      exists (r :: before), r', after. repeat split; auto.
      constructor; [left; exact Hr | exact Hb].
    + destruct e; try discriminate.
      intros H. destruct (IH H) as (before & r' & after & -> & Hb & Hd & Hh).
      exists (r :: before), r', after. repeat split; auto.
      constructor; [right; exact Hr | exact Hb].
  - intros (before & r & after & -> & Hb & Hd & _).
    induction Hb as [|r0 before Hr0 _ IH]; cbn [app read_config].
    + rewrite Hd. reflexivity.
    + destruct Hr0 as [-> | ->]; exact IH.
Qed.

(** X7: A [KeyError] or a [TypeError] in a row that is reached (a missing or
    empty [hw_id], or such a field in a row of the drone looked for) ends
    the search with nothing, whatever rows follow. *)
Theorem read_config_aborts (HW_ID : option Z) (before : list config_row)
    (r : config_row) (after : list config_row) :
  Forall (passed_over HW_ID) before ->
  (config_row_step HW_ID r = Err KeyError \/ config_row_step HW_ID r = Err TypeError) ->
  read_config HW_ID (before ++ r :: after) = None.
Proof.
  intros Hb Hr.
  induction Hb as [|r0 before Hr0 _ IH]; cbn [app read_config].
  - destruct Hr as [-> | ->]; reflexivity.
  - destruct Hr0 as [-> | ->]; exact IH.
Qed.

Lemma read_config_aborts_witness :
  read_config (Some 2%Z)
    ([sample_config_row (INum 1) IGarbled; sample_config_row IGarbled (INum 14550)]
     ++ sample_config_row IAbsent (INum 14550)
     :: [sample_config_row (INum 2) (INum 14550)]) = None.
Proof.
  apply (read_config_aborts (Some 2%Z)
           [sample_config_row (INum 1) IGarbled; sample_config_row IGarbled (INum 14550)]
           (sample_config_row IAbsent (INum 14550))
           [sample_config_row (INum 2) (INum 14550)]).
  - constructor; [left; reflexivity|].
    constructor; [right; reflexivity | constructor].
  - left. reflexivity.
Defined.

(** ** Relations kept by the programs *)

Lemma sat_next_response (R : session -> session -> Prop) :
  (forall s, R s s) ->
  (forall s rest, R s (with_script rest s)) -> sat R next_response.
Proof.
  intros Hrefl H s r s' E. unfold next_response in E.
  destruct (script s); injection E as _ <-; auto.
Qed.

Ltac unfold_primitives :=
  unfold await_call, await_dispatch, answer, time_time, first_attitude_euler,
    first_landed_state, requests_get, set_color, asyncio_sleep, emit, advance.

(** [sat_go refl trans base]: the goal [sat R m], for a preorder [R] given
    by [refl] and [trans], [base] proving [R s (f s)] for the updates. *)
Ltac sat_go refl trans base :=
  repeat first
    [ assumption
    | solve [auto 2]
    | apply sat_ret; exact refl
    | apply sat_raise; exact refl
    | apply sat_stuck; exact refl
    | apply sat_get; exact refl
    | apply sat_of_result; exact refl
    | apply sat_next_response; [exact refl | intros; base]
    | apply sat_modify; intros; base
    | apply sat_fueled; intros
    | apply sat_bind; [exact trans | | intros]
    | apply sat_try_except; [exact trans | | intros]
    | match goal with
      | |- sat _ (if ?b then _ else _) => destruct b
      | |- sat _ (match ?x with _ => _ end) => destruct x
      end ].

Lemma extends_refl (s : session) : extends s s.
Proof. exists []. symmetry. apply app_nil_r. Qed.

Lemma extends_trans (s1 s2 s3 : session) : extends s1 s2 -> extends s2 s3 -> extends s1 s3.
Proof.
  intros [n1 H1] [n2 H2]. exists (n1 ++ n2). rewrite H2, H1. symmetry. apply app_assoc.
Qed.

Lemma same_locals_refl (s : session) : same_locals s s.
Proof. repeat split. Qed.

Lemma same_locals_trans (s1 s2 s3 : session) :
  same_locals s1 s2 -> same_locals s2 s3 -> same_locals s1 s3.
Proof.
  unfold same_locals. intros (A1 & A2 & A3 & A4 & A5 & A6 & A7 & A8)
    (B1 & B2 & B3 & B4 & B5 & B6 & B7 & B8).
  repeat split; congruence.
Qed.

Lemma landing_rel_refl (s : session) : landing_rel s s.
Proof. split; [apply same_locals_refl | apply extends_refl]. Qed.

Lemma landing_rel_trans (s1 s2 s3 : session) :
  landing_rel s1 s2 -> landing_rel s2 s3 -> landing_rel s1 s3.
Proof.
  intros [A1 A2] [B1 B2]. split;
    [eapply same_locals_trans | eapply extends_trans]; eauto.
Qed.

Ltac extends_base :=
  unfold extends;
  cbn [trace with_script with_trace with_cl_landing_detected with_drift_delta
       with_waypoint_index with_landing_detected with_in_initial_climb
       with_initial_climb_completed with_initial_climb_start_time
       with_initial_climb_yaw with_initial_position_drift];
  first [exists []; symmetry; apply app_nil_r | eexists; reflexivity].

Ltac landing_base := split; [repeat split | extends_base].

Ltac landing_go := sat_go landing_rel_refl landing_rel_trans landing_base.

Section LandingFacts.

Variable P : Params.

Lemma landing_rel_stop_offboard_mode : sat landing_rel stop_offboard_mode.
Proof. unfold stop_offboard_mode. unfold_primitives. landing_go.
Qed.

Lemma landing_rel_landing_wait_loop (fuel : nat) (t0 : Q) :
  sat landing_rel (landing_wait_loop P fuel t0).
Proof.
  induction fuel as [|fuel IH]; cbn [landing_wait_loop]; unfold_primitives; landing_go.
Qed.

Lemma landing_rel_perform_landing : sat landing_rel (perform_landing P).
Proof.
  pose proof landing_rel_landing_wait_loop.
  unfold perform_landing. unfold_primitives. landing_go.
Qed.

Lemma landing_rel_wait_for_landing : sat landing_rel (wait_for_landing P).
Proof.
  pose proof landing_rel_landing_wait_loop.
  unfold wait_for_landing. unfold_primitives. landing_go.
Qed.

Lemma landing_rel_disarm_drone : sat landing_rel disarm_drone.
Proof. unfold disarm_drone. unfold_primitives. landing_go. Qed.

Lemma landing_rel_controlled_landing_pass (t0 : Q) :
  sat landing_rel (controlled_landing_pass P t0).
Proof.
  pose proof landing_rel_stop_offboard_mode. pose proof landing_rel_perform_landing.
  unfold controlled_landing_pass. unfold_primitives. landing_go.
Qed.

Lemma landing_rel_controlled_landing_loop (fuel : nat) (t0 : Q) :
  sat landing_rel (controlled_landing_loop P fuel t0).
Proof.
  pose proof landing_rel_controlled_landing_pass.
  induction fuel as [|fuel IH]; cbn [controlled_landing_loop]; unfold_primitives;
    landing_go.
Qed.

Lemma landing_rel_controlled_landing_finish : sat landing_rel (controlled_landing_finish P).
Proof.
  pose proof landing_rel_stop_offboard_mode. pose proof landing_rel_perform_landing.
  pose proof landing_rel_disarm_drone.
  unfold controlled_landing_finish. unfold_primitives. landing_go.
Qed.

Lemma landing_rel_controlled_landing : sat landing_rel (controlled_landing P).
Proof.
  pose proof landing_rel_controlled_landing_loop.
  pose proof landing_rel_controlled_landing_finish.
  unfold controlled_landing. unfold_primitives. landing_go.
Qed.

End LandingFacts.

(** ** What never raises *)

Lemma no_raise_ret {A} (a : A) : no_raise (ret a).
Proof. intros s e s' H. discriminate H. Qed.

Lemma no_raise_stuck {A} : no_raise (@stuck A).
Proof. intros s e s' H. discriminate H. Qed.

Lemma no_raise_get : no_raise get.
Proof. intros s e s' H. discriminate H. Qed.

Lemma no_raise_modify (f : session -> session) : no_raise (modify f).
Proof. intros s e s' H. discriminate H. Qed.

Lemma no_raise_bind {A B} (m : M A) (k : A -> M B) :
  no_raise m -> (forall a, no_raise (k a)) -> no_raise (bind m k).
Proof.
  intros Hm Hk s e s' H. apply bind_inv in H.
  destruct H as [(a & s1 & H1 & H2) | [(e' & H1 & _) | (_ & H2)]].
  - exact (Hk a _ _ _ H2).
  - exact (Hm _ _ _ H1).
  - discriminate H2.
Qed.

Lemma no_raise_try_except {A} (m : M A) (h : exn -> M A) :
  (forall e, no_raise (h e)) -> no_raise (try_except m h).
Proof.
  intros Hh s e s' H. apply try_except_inv in H.
  destruct H as [(e' & s1 & _ & H2) | (_ & H2)].
  - exact (Hh _ _ _ _ H2).
  - exact (H2 e eq_refl).
Qed.

Lemma no_raise_fueled {A} (loop : nat -> M A) :
  (forall fuel, no_raise (loop fuel)) -> no_raise (fueled loop).
Proof. intros H s e s' E. exact (H _ _ _ _ E). Qed.

Ltac no_raise_go :=
  repeat first
    [ assumption
    | solve [auto 2]
    | apply no_raise_ret
    | apply no_raise_stuck
    | apply no_raise_get
    | apply no_raise_modify
    | apply no_raise_fueled; intros
    | apply no_raise_try_except; intros
    | apply no_raise_bind; [|intros]
    | match goal with
      | |- no_raise (if ?b then _ else _) => destruct b
      | |- no_raise (match ?x with _ => _ end) => destruct x
      end ].

Lemma time_time_inv (s : session) (t : Q) (s1 : session) :
  time_time s = (Ret t, s1) ->
  exists rest, script s = Clock t :: rest /\ s1 = with_script rest s.
Proof.
  unfold time_time, bind, next_response.
  destruct (script s) as [|[now| | | | |] rest]; cbn; try discriminate.
  intros H. injection H as <- <-. eauto.
Qed.

Lemma time_time_no_raise : no_raise time_time.
Proof.
  intros s e s'. unfold time_time, bind, next_response.
  destruct (script s) as [|[now| | | | |] rest]; cbn; discriminate.
Qed.

Lemma await_call_inv (c : command) (s : session) (r : outcome unit) (s1 : session) :
  await_call c s = (r, s1) ->
  trace s1 = trace s ++ [Call c] /\
  match r with
  | Ret _ => exists rest, script s = Done :: rest /\
                          s1 = with_script rest (with_trace (trace s ++ [Call c]) s)
  | Raise e => exists rest, script s = Fails e :: rest /\
                            s1 = with_script rest (with_trace (trace s ++ [Call c]) s)
  | Stuck => True
  end.
Proof.
  unfold await_call, answer, emit, modify, bind, next_response. cbn.
  destruct (script s) as [|[now| |e| | |] rest]; cbn; intros H;
    injection H as <- <-; cbn; eauto.
Qed.

Section LandingMore.

Variable P : Params.

Lemma no_raise_stop_offboard_mode : no_raise stop_offboard_mode.
Proof. unfold stop_offboard_mode. no_raise_go. Qed.

Lemma no_raise_perform_landing : no_raise (perform_landing P).
Proof. unfold perform_landing. no_raise_go. Qed.

Lemma no_raise_disarm_drone : no_raise disarm_drone.
Proof. unfold disarm_drone. no_raise_go. Qed.

Lemma no_raise_controlled_landing_loop (fuel : nat) (t0 : Q) :
  no_raise (controlled_landing_loop P fuel t0).
Proof.
  induction fuel as [|fuel IH]; cbn [controlled_landing_loop]; unfold set_color, emit;
    no_raise_go.
Qed.

Lemma no_raise_controlled_landing_finish : no_raise (controlled_landing_finish P).
Proof.
  pose proof no_raise_stop_offboard_mode. pose proof no_raise_perform_landing.
  pose proof no_raise_disarm_drone.
  unfold controlled_landing_finish, set_color, emit. no_raise_go.
Qed.

Lemma controlled_landing_raise_inv (s : session) (e : exn) (s' : session) :
  controlled_landing P s = (Raise e, s') ->
  e <> OffboardError /\
  exists t0 rest,
    script s = Clock t0 :: Fails e :: rest /\
    s' = with_trace (trace s ++ [Call (descent_setpoint P)])
           (with_script rest (with_cl_landing_detected false s)).
Proof.
  intros H. unfold controlled_landing in H. rewrite bind_modify in H.
  apply bind_inv in H.
  destruct H as [(t0 & s2 & H1 & H) | [(e' & H1 & _) | (_ & H2)]];
    [|exfalso; exact (time_time_no_raise _ _ _ H1)|discriminate H2].
  apply time_time_inv in H1. destruct H1 as (rest1 & Hs1 & ->).
  cbn [script with_cl_landing_detected] in Hs1.
  apply bind_inv in H.
  destruct H as [(entered & s3 & H1 & H) | [(e' & H1 & He) | (_ & H2)]];
    [| |discriminate H2].
  - exfalso. destruct entered.
    + revert H. apply no_raise_bind.
      * apply no_raise_fueled. intros. apply no_raise_controlled_landing_loop.
      * intros. apply no_raise_controlled_landing_finish.
    + discriminate H.
  - injection He as <-.
    apply try_except_inv in H1. destruct H1 as [(e0 & s3 & Hb & Hh) | (_ & Hn)];
      [|exfalso; exact (Hn e eq_refl)].
    apply bind_inv in Hb.
    destruct Hb as [(u & s4 & _ & Hb) | [(e1 & Hb & He1) | (_ & Hb)]];
      [discriminate Hb| |discriminate Hb].
    injection He1 as <-.
    apply await_call_inv in Hb. destruct Hb as (Ht & rest & Hs & ->).
    cbn [script with_script] in Hs. subst rest1.
    destruct e0; cbn in Hh; try discriminate Hh.
    all: injection Hh as <- <-.
    all: split; [discriminate|].
    all: exists t0, rest; split; [exact Hs1|].
    all: destruct s; cbn in *; subst; reflexivity.
Qed.

(** X8: An exception leaves [controlled_landing] only from its first descent
    setpoint, when that raises something other than [OffboardError]:
    nothing else has been sent then, the LED is untouched, and neither a
    stop of offboard mode nor a landing command follows. *)
Theorem controlled_landing_raises_only_at_setup (s : session) (e : exn) (s' : session) :
  controlled_landing P s = (Raise e, s') ->
  e <> OffboardError /\
  exists t0 rest,
    script s = Clock t0 :: Fails e :: rest /\
    s' = with_trace (trace s ++ [Call (descent_setpoint P)])
           (with_script rest (with_cl_landing_detected false s)).
Proof. exact (controlled_landing_raise_inv s e s'). Qed.

Lemma stop_offboard_mode_trace (s : session) (r : outcome unit) (s' : session) :
  stop_offboard_mode s = (r, s') -> trace s' = trace s ++ [Call offboard_stop].
Proof.
  unfold stop_offboard_mode. intros H. apply try_except_inv in H.
  destruct H as [(e & s1 & H1 & H2) | (H1 & _)].
  - apply await_call_inv in H1. destruct H1 as [Ht _].
    injection H2 as _ <-. exact Ht.
  - apply await_call_inv in H1. destruct H1 as [Ht _]. exact Ht.
Qed.

(** X9: When [controlled_landing] returns, either it has sent the command
    that stops offboard mode (accepted or not: [stop_offboard_mode] logs a
    refusal and goes on) and its last act was to set the LED green, or its
    first descent setpoint raised [OffboardError] and it has done nothing
    but send that setpoint and set the LED red. *)
Theorem controlled_landing_returns_stopped (s : session) (s' : session) :
  controlled_landing P s = (Ret tt, s') ->
  (exists pre, trace s' = trace s ++ pre ++ [Led 0 255 0] /\
               In (Call offboard_stop) pre) \/
  (exists t0 rest,
     script s = Clock t0 :: Fails OffboardError :: rest /\
     trace s' = trace s ++ [Call (descent_setpoint P); Led 255 0 0]).
Proof.
  intros H. unfold controlled_landing in H. rewrite bind_modify in H.
  apply bind_inv in H.
  destruct H as [(t0 & s2 & H1 & H) | [(e' & _ & H2) | (_ & H2)]];
    [|discriminate H2|discriminate H2].
  apply time_time_inv in H1. destruct H1 as (rest1 & Hs1 & ->).
  cbn [script with_cl_landing_detected] in Hs1.
  apply bind_inv in H.
  destruct H as [(entered & s3 & H1 & H) | [(e' & _ & H2) | (_ & H2)]];
    [|discriminate H2|discriminate H2].
  apply try_except_inv in H1. destruct H1 as [(e0 & s4 & Hb & Hh) | (Hb & _)].
  - (* the setup raised *)
    apply bind_inv in Hb.
    destruct Hb as [(u & s5 & _ & Hb) | [(e1 & Hb & He1) | (_ & Hb)]];
      [discriminate Hb| |discriminate Hb].
    injection He1 as <-.
    apply await_call_inv in Hb. destruct Hb as (Ht & rest & Hs & Hr).
    cbn [script with_script trace with_cl_landing_detected] in Hs, Ht. subst rest1.
    destruct e0; cbn in Hh; try discriminate Hh.
    injection Hh as <- <-. injection H as <-.
    right. exists t0, rest. split; [exact Hs1|].
    cbn [trace with_trace]. rewrite Ht, <- app_assoc. reflexivity.
  - (* the setup was accepted *)
    apply bind_inv in Hb.
    destruct Hb as [(u & s5 & Hc & Hb) | [(e1 & _ & He1) | (_ & Hb)]];
      [|discriminate He1|discriminate Hb].
    injection Hb as <- <-.
    apply await_call_inv in Hc. destruct Hc as (Ht & _).
    cbn [trace with_script with_cl_landing_detected] in Ht.
    apply bind_inv in H.
    destruct H as [(u1 & s6 & Hl & H) | [(e1 & _ & He1) | (_ & H)]];
      [|discriminate He1|discriminate H].
    apply (landing_rel_controlled_landing_loop P) in Hl. destruct Hl as [_ [n1 Hn1]].
    unfold controlled_landing_finish in H. rewrite bind_get in H.
    apply bind_inv in H.
    destruct H as [(u2 & s7 & Hf & H) | [(e1 & _ & He1) | (_ & H)]];
      [|discriminate He1|discriminate H].
    injection H as <-. cbn [trace with_trace].
    assert (Hmid : exists n2, trace s7 = trace s6 ++ [Call offboard_stop] ++ n2).
    { destruct (cl_landing_detected s6);
        apply bind_inv in Hf;
        destruct Hf as [(u3 & s8 & Hst & Hf) | [(e1 & _ & He1) | (_ & Hf)]];
        try discriminate.
      - apply stop_offboard_mode_trace in Hst.
        apply landing_rel_disarm_drone in Hf. destruct Hf as [_ [n2 Hn2]].
        exists n2. rewrite Hn2, Hst, <- app_assoc. reflexivity.
      - apply stop_offboard_mode_trace in Hst.
        apply (landing_rel_perform_landing P) in Hf. destruct Hf as [_ [n2 Hn2]].
        exists n2. rewrite Hn2, Hst, <- app_assoc. reflexivity. }
    destruct Hmid as [n2 Hn2].
    left. exists ([Call (descent_setpoint P)] ++ n1 ++ [Call offboard_stop] ++ n2).
    split.
    + rewrite Hn2, Hn1, Ht. rewrite <- !app_assoc. reflexivity.
    + apply in_or_app. right. apply in_or_app. right. left. reflexivity.
Qed.

End LandingMore.

Lemma controlled_landing_raises_only_at_setup_witness :
  ActionError <> OffboardError /\
  exists t0 rest,
    script (loop_session [Clock 0; Fails ActionError] 0 false 0)
      = Clock t0 :: Fails ActionError :: rest /\
    with_trace (trace (loop_session [Clock 0; Fails ActionError] 0 false 0)
                ++ [Call (descent_setpoint demo_params)])
      (with_script [] (with_cl_landing_detected false
                         (loop_session [Clock 0; Fails ActionError] 0 false 0)))
    = with_trace (trace (loop_session [Clock 0; Fails ActionError] 0 false 0)
                  ++ [Call (descent_setpoint demo_params)])
        (with_script rest (with_cl_landing_detected false
                             (loop_session [Clock 0; Fails ActionError] 0 false 0))).
Proof.
  apply (controlled_landing_raises_only_at_setup demo_params
           (loop_session [Clock 0; Fails ActionError] 0 false 0) ActionError).
  reflexivity.
Defined.

Lemma controlled_landing_returns_stopped_witness :
  (exists pre,
     trace (snd (controlled_landing demo_params
                   (loop_session [Clock 0; Done; Done; Landed ON_GROUND; Clock 1; Done; Done]
                      0 false 0)))
     = trace (loop_session [Clock 0; Done; Done; Landed ON_GROUND; Clock 1; Done; Done]
                0 false 0) ++ pre ++ [Led 0 255 0] /\
     In (Call offboard_stop) pre) \/
  (exists t0 rest,
     script (loop_session [Clock 0; Done; Done; Landed ON_GROUND; Clock 1; Done; Done]
               0 false 0) = Clock t0 :: Fails OffboardError :: rest /\
     trace (snd (controlled_landing demo_params
                   (loop_session [Clock 0; Done; Done; Landed ON_GROUND; Clock 1; Done; Done]
                      0 false 0)))
     = trace (loop_session [Clock 0; Done; Done; Landed ON_GROUND; Clock 1; Done; Done]
                0 false 0) ++ [Call (descent_setpoint demo_params); Led 255 0 0]).
Proof.
  apply (controlled_landing_returns_stopped demo_params).
  vm_compute. reflexivity.
Defined.

(** *** Running the landing forward *)

Lemma await_call_done (c : command) (s : session) (rest : list response) :
  script s = Done :: rest ->
  await_call c s = (Ret tt, with_script rest (with_trace (trace s ++ [Call c]) s)).
Proof.
  intros H. unfold await_call, answer, emit, modify, bind, next_response.
  cbn [script with_trace]. rewrite H. reflexivity.
Qed.

Lemma first_landed_state_run (s : session) (st : LandedState) (rest : list response) :
  script s = Landed st :: rest ->
  first_landed_state s = (Ret st, with_script rest s).
Proof.
  intros H. unfold first_landed_state, bind, next_response. rewrite H. reflexivity.
Qed.

Lemma stop_offboard_mode_done (s : session) (rest : list response) :
  script s = Done :: rest ->
  stop_offboard_mode s
  = (Ret tt, with_script rest (with_trace (trace s ++ [Call offboard_stop]) s)).
Proof.
  intros H. unfold stop_offboard_mode, try_except.
  rewrite (await_call_done _ _ _ H). reflexivity.
Qed.

Lemma disarm_drone_done (s : session) (rest : list response) :
  script s = Done :: rest ->
  disarm_drone s
  = (Ret tt,
     with_trace (trace s ++ [Call action_disarm; Led 255 0 0]) (with_script rest s)).
Proof.
  intros H. unfold disarm_drone, try_except.
  rewrite (bind_run _ _ _ _ _ (await_call_done _ _ _ H)).
  destruct s. cbn. rewrite <- app_assoc. reflexivity.
Qed.

Lemma perform_landing_lands (P : Params) (s : session) (t : Q) (rest : list response) :
  script s = Done :: Clock t :: Landed ON_GROUND :: rest ->
  perform_landing P s
  = (Ret tt, with_trace (trace s ++ [Call action_land]) (with_script rest s)).
Proof.
  intros H. destruct s. cbn in H. subst.
  unfold perform_landing, try_except, fueled, bind. cbn. reflexivity.
Qed.

Ltac run_with lem := erewrite bind_run by (eapply lem; reflexivity).

Lemma controlled_landing_enters (P : Params) (s : session) (t0 : Q) (rest : list response) :
  script s = Clock t0 :: Done :: rest ->
  controlled_landing P s
  = (fueled (fun fuel => controlled_landing_loop P fuel t0) ;;
     controlled_landing_finish P)%monad
      (with_script rest
         (with_trace (trace s ++ [Call (descent_setpoint P)])
            (with_cl_landing_detected false s))).
Proof.
  intros H. destruct s. cbn in H. subst.
  unfold controlled_landing.
  rewrite bind_modify.
  erewrite bind_run by (apply time_time_run; reflexivity).
  erewrite bind_run.
  2:{ unfold try_except. erewrite bind_run by (apply await_call_done; reflexivity).
      reflexivity. }
  reflexivity.
Qed.

Lemma bind_fueled {A B} (loop : nat -> M A) (k : A -> M B) (s : session) :
  bind (fueled loop) k s = bind (loop (S (List.length (script s)))) k s.
Proof. reflexivity. Qed.

Lemma try_except_ret {A} (m : M A) (h : exn -> M A) (s : session) (a : A) (s1 : session) :
  m s = (Ret a, s1) -> try_except m h s = (Ret a, s1).
Proof. intros H. unfold try_except. rewrite H. reflexivity. Qed.

(** X10: Ground contact at the first poll, within the landing timeout: after
    the two descent setpoints and one wait of 0.1 s, offboard mode is
    stopped and the vehicle disarmed; no landing command is issued; the
    LED goes red (disarmed) and then green. *)
Theorem controlled_landing_ground_at_first_poll (P : Params) (s : session)
    (t0 t1 : Q) (rest : list response) :
  t1 - t0 <= LANDING_TIMEOUT P ->
  controlled_landing P
    (with_script (Clock t0 :: Done :: Done :: Landed ON_GROUND :: Clock t1
                  :: Done :: Done :: rest) s)
  = (Ret tt,
     with_trace
       (trace s ++ [Call (descent_setpoint P); Call (descent_setpoint P); Sleep (1 # 10);
                    Call offboard_stop; Call action_disarm; Led 255 0 0; Led 0 255 0])
       (with_script rest (with_cl_landing_detected true s))).
Proof.
  intros H. apply Qltb_false in H.
  erewrite controlled_landing_enters by reflexivity.
  rewrite bind_fueled.
  cbn [script with_script with_trace with_cl_landing_detected List.length].
  cbn [controlled_landing_loop].
  rewrite bind_assoc, bind_get.
  cbn [cl_landing_detected with_script with_trace with_cl_landing_detected].
  rewrite bind_assoc.
  erewrite bind_run.
  2:{ apply try_except_ret. unfold controlled_landing_pass.
      run_with await_call_done.
      run_with first_landed_state_run.
      cbn [is_on_ground]. rewrite bind_modify.
      run_with time_time_run.
      rewrite H. unfold asyncio_sleep, emit. rewrite bind_modify. reflexivity. }
  cbn beta iota. cbn [controlled_landing_loop].
  rewrite bind_assoc, bind_get.
  cbn [cl_landing_detected with_script with_trace with_cl_landing_detected].
  rewrite bind_ret.
  unfold controlled_landing_finish. rewrite bind_get.
  cbn [cl_landing_detected with_script with_trace with_cl_landing_detected].
  rewrite !bind_assoc.
  run_with stop_offboard_mode_done.
  run_with disarm_drone_done.
  destruct s. unfold set_color, emit, modify. cbn. rewrite <- !app_assoc. reflexivity.
Qed.

Lemma controlled_landing_ground_at_first_poll_witness :
  controlled_landing demo_params
    (with_script (Clock 0 :: Done :: Done :: Landed ON_GROUND :: Clock 1
                  :: Done :: Done :: []) (loop_session [] 0 false 0))
  = (Ret tt,
     with_trace
       (trace (loop_session [] 0 false 0)
        ++ [Call (descent_setpoint demo_params); Call (descent_setpoint demo_params);
            Sleep (1 # 10); Call offboard_stop; Call action_disarm; Led 255 0 0;
            Led 0 255 0])
       (with_script [] (with_cl_landing_detected true (loop_session [] 0 false 0)))).
Proof.
  apply (controlled_landing_ground_at_first_poll demo_params (loop_session [] 0 false 0)
           0 1 []).
  vm_compute. discriminate.
Defined.

(** ** Arming, further *)

Ltac inv_ret H :=
  apply bind_inv in H;
  let Hd := fresh "Hd" in
  destruct H as [(? & ? & ? & H) | [(? & _ & Hd) | (_ & Hd)]];
  [|discriminate Hd|discriminate Hd].

Lemma sleeps_app (l l' : list event) : sleeps (l ++ l') = sleeps l ++ sleeps l'.
Proof. unfold sleeps. apply flat_map_app. Qed.

Lemma keeps_sleeps_refl (s : session) : keeps_sleeps s s.
Proof. reflexivity. Qed.

Lemma keeps_sleeps_trans (s1 s2 s3 : session) :
  keeps_sleeps s1 s2 -> keeps_sleeps s2 s3 -> keeps_sleeps s1 s3.
Proof. unfold keeps_sleeps. congruence. Qed.

Ltac keeps_sleeps_base :=
  unfold keeps_sleeps;
  cbn [trace with_script with_trace with_initial_position_drift];
  rewrite ?sleeps_app; cbn [sleeps flat_map app]; rewrite ?app_nil_r; reflexivity.

Lemma compute_position_drift_inv (s : session)
    (r : outcome (option PositionNedYaw)) (s' : session) :
  compute_position_drift s = (r, s') ->
  trace s' = trace s ++ [HttpGet] /\
  same_locals s s' /\
  (forall d, r = Ret (Some d) ->
     exists x y z rest,
       script s = HttpResponse 200 (Some (JObject (Some x) (Some y) (Some z))) :: rest /\
       d = mkPositionNedYaw x y z 0) /\
  (forall e, r = Raise e -> e <> RequestException /\ e <> KeyError).
Proof.
  destruct s as [scr tr ipd dd idx ld iic icc icst icy cld].
  unfold compute_position_drift, try_except, requests_get, bind, emit, modify,
    next_response.
  cbn [script trace with_trace with_script].
  destruct scr as [|[now| |e0| | |status body] rest]; cbn.
  1-3,5,6: intros H; injection H as <- <-; cbn;
       (split; [reflexivity|]); (split; [repeat split|]);
       split; intros; discriminate.
  - destruct e0; cbn; intros H; injection H as <- <-; cbn;
      (split; [reflexivity|]); (split; [repeat split|]);
      split; intros ? E; try discriminate E; injection E as <-; split; discriminate.
  - destruct (Z.eqb_spec status 200) as [-> | Hne].
    + destruct body as [[[x|] [y|] [z|] | ] | ]; cbn; intros H; injection H as <- <-; cbn;
        (split; [reflexivity|]); (split; [repeat split|]);
        split; intros ? E; try discriminate E.
      * injection E as <-. exists x, y, z, rest. split; reflexivity.
      * injection E as <-. split; discriminate.
    + intros H; injection H as <- <-; cbn.
      (split; [reflexivity|]); (split; [repeat split|]);
        split; intros ? E; discriminate E.
Qed.

(** X13: What a fetch can come to: it asks the service once; a correction is
    returned only for a 200 reply whose object has [x], [y] and [z], and it
    is that triple with yaw 0; and neither a [RequestException] nor a
    [KeyError] ever leaves the fetch. *)
Theorem compute_position_drift_outcomes (s : session)
    (r : outcome (option PositionNedYaw)) (s' : session) :
  compute_position_drift s = (r, s') ->
  trace s' = trace s ++ [HttpGet] /\
  same_locals s s' /\
  (forall d, r = Ret (Some d) ->
     exists x y z rest,
       script s = HttpResponse 200 (Some (JObject (Some x) (Some y) (Some z))) :: rest /\
       d = mkPositionNedYaw x y z 0) /\
  (forall e, r = Raise e -> e <> RequestException /\ e <> KeyError).
Proof. exact (compute_position_drift_inv s r s'). Qed.

Lemma compute_position_drift_outcomes_witness :
  trace (snd (compute_position_drift
                (loop_session [HttpResponse 200 (Some (JObject (Some 1) (Some 2) (Some 3)))]
                   0 false 0)))
  = trace (loop_session [HttpResponse 200 (Some (JObject (Some 1) (Some 2) (Some 3)))]
             0 false 0) ++ [HttpGet] /\
  same_locals
    (loop_session [HttpResponse 200 (Some (JObject (Some 1) (Some 2) (Some 3)))] 0 false 0)
    (snd (compute_position_drift
            (loop_session [HttpResponse 200 (Some (JObject (Some 1) (Some 2) (Some 3)))]
               0 false 0))) /\
  (forall d, Ret (Some (mkPositionNedYaw 1 2 3 0)) = Ret (Some d) ->
     exists x y z rest,
       script (loop_session
                 [HttpResponse 200 (Some (JObject (Some 1) (Some 2) (Some 3)))] 0 false 0)
       = HttpResponse 200 (Some (JObject (Some x) (Some y) (Some z))) :: rest /\
       d = mkPositionNedYaw x y z 0) /\
  (forall e, Ret (Some (mkPositionNedYaw 1 2 3 0)) = Raise e ->
     e <> RequestException /\ e <> KeyError).
Proof.
  apply (compute_position_drift_outcomes
           (loop_session [HttpResponse 200 (Some (JObject (Some 1) (Some 2) (Some 3)))]
              0 false 0)
           (Ret (Some (mkPositionNedYaw 1 2 3 0)))).
  vm_compute. reflexivity.
Defined.

Lemma consumes_refl (s : session) : consumes s s.
Proof. exists []. reflexivity. Qed.

Lemma consumes_trans (s1 s2 s3 : session) :
  consumes s1 s2 -> consumes s2 s3 -> consumes s1 s3.
Proof.
  intros [u1 H1] [u2 H2]. exists (u1 ++ u2). rewrite H1, H2. apply app_assoc.
Qed.

Lemma consumes_next_response : sat consumes next_response.
Proof.
  intros s r s' H. unfold next_response in H.
  destruct (script s) as [|x rest] eqn:E; injection H as _ <-.
  - apply consumes_refl.
  - exists [x]. cbn [script with_script]. exact E.
Qed.

Ltac consumes_base :=
  unfold consumes;
  cbn [script with_script with_trace with_initial_position_drift];
  exists []; reflexivity.

Ltac consumes_go :=
  pose proof consumes_next_response;
  sat_go consumes_refl consumes_trans consumes_base.

Section ArmingMore.

Variable P : Params.

Lemma extends_compute_position_drift : sat extends compute_position_drift.
Proof.
  intros s r s' H. apply compute_position_drift_inv in H.
  destruct H as [H _]. eexists; exact H.
Qed.

Lemma keeps_sleeps_compute_position_drift : sat keeps_sleeps compute_position_drift.
Proof.
  intros s r s' H. apply compute_position_drift_inv in H.
  destruct H as [H _]. unfold keeps_sleeps. rewrite H, sleeps_app. cbn. apply app_nil_r.
Qed.

Lemma keeps_sleeps_arming_attempt (home : option (Q * Q * Q)) :
  sat keeps_sleeps (arming_attempt P home).
Proof.
  pose proof keeps_sleeps_compute_position_drift.
  unfold arming_attempt. unfold_primitives.
  sat_go keeps_sleeps_refl keeps_sleeps_trans keeps_sleeps_base.
Qed.

Lemma arming_attempt_ret_inv (home : option (Q * Q * Q)) (s s' : session) :
  arming_attempt P home s = (Ret tt, s') ->
  exists fetch,
    (fetch = [] \/ fetch = [HttpGet]) /\
    trace s' = trace s ++ [Led 0 255 0] ++ fetch ++ arming_commands.
Proof.
  intros H. unfold arming_attempt in H. apply try_except_inv in H.
  destruct H as [(e & s1 & _ & Hh) | (Hb & _)].
  - exfalso. apply bind_inv in Hh.
    destruct Hh as [(u & s2 & _ & Hh) | [(e1 & _ & Hd) | (_ & Hd)]]; discriminate.
  - rewrite bind_set_color in Hb.
    assert (Hfetch : exists fetch s2,
               (fetch = [] \/ fetch = [HttpGet]) /\
               trace s2 = trace s ++ [Led 0 255 0] ++ fetch /\
               (await_call action_hold ;;
                await_call action_arm ;;
                await_call (set_velocity_body (mkVelocityBodyYawspeed 0 0 0 0)) ;;
                await_call offboard_start ;;
                set_color 255 255 255)%monad s2 = (Ret tt, s')).
    { destruct (REQUIRE_GLOBAL_POSITION P && truthy home).
      - inv_ret Hb. inv_ret H. cbv [modify] in H. injection H as _ <-.
        apply compute_position_drift_inv in H0. destruct H0 as [Ht _].
        exists [HttpGet]. eexists. split; [right; reflexivity|]. split; [|exact Hb].
        cbn [trace with_initial_position_drift with_trace] in *. rewrite Ht.
        rewrite <- app_assoc. reflexivity.
      - rewrite bind_ret in Hb. exists []. eexists. split; [left; reflexivity|].
        split; [|exact Hb]. reflexivity. }
    destruct Hfetch as (fetch & s2 & Hf & Ht & Hrun).
    exists fetch. split; [exact Hf|].
    inv_ret Hrun. apply await_call_inv in H. destruct H as [T1 _].
    inv_ret Hrun. apply await_call_inv in H. destruct H as [T2 _].
    inv_ret Hrun. apply await_call_inv in H. destruct H as [T3 _].
    inv_ret Hrun. apply await_call_inv in H. destruct H as [T4 _].
    cbv [set_color emit modify] in Hrun. injection Hrun as <-.
    cbn [trace with_trace]. rewrite T4, T3, T2, T1, Ht.
    unfold arming_commands. rewrite <- !app_assoc. reflexivity.
Qed.

(** X14: An arming attempt that returns has sent exactly hold, arm, a zero body
    velocity and the start of offboard mode, in this order, after at most
    one request to the position service, and has left the LED white; it
    has not disarmed. *)
Theorem arming_attempt_success (home : option (Q * Q * Q)) (s s' : session) :
  arming_attempt P home s = (Ret tt, s') ->
  exists fetch,
    (fetch = [] \/ fetch = [HttpGet]) /\
    trace s' = trace s ++ [Led 0 255 0] ++ fetch ++ arming_commands.
Proof. exact (arming_attempt_ret_inv home s s'). Qed.

Lemma arming_attempt_raise_inv (home : option (Q * Q * Q)) (s : session)
    (e : exn) (s' : session) :
  arming_attempt P home s = (Raise e, s') ->
  exists pre,
    trace s' = trace s ++ pre ++ [Call action_disarm; Led 255 0 0] \/
    trace s' = trace s ++ pre ++ [Call action_disarm].
Proof.
  intros H. unfold arming_attempt in H. apply try_except_inv in H.
  destruct H as [(e0 & s1 & Hb & Hh) | (_ & Hn)]; [|exfalso; exact (Hn e eq_refl)].
  assert (Hx : extends s s1).
  { match type of Hb with
    | ?m s = _ => assert (Hsat : sat extends m)
    end.
    { pose proof extends_compute_position_drift.
      unfold_primitives. sat_go extends_refl extends_trans extends_base. }
    exact (Hsat _ _ _ Hb). }
  destruct Hx as [pre Hpre]. exists pre.
  apply bind_inv in Hh.
  destruct Hh as [(u & s2 & Hd & Hh) | [(e1 & Hd & _) | (_ & Hd)]]; [| |discriminate Hd].
  - apply await_call_inv in Hd. destruct Hd as [T _].
    rewrite bind_set_color in Hh. cbv [raise] in Hh. injection Hh as _ <-.
    left. cbn [trace with_trace]. rewrite T, Hpre, <- !app_assoc. reflexivity.
  - apply await_call_inv in Hd. destruct Hd as [T _].
    right. rewrite T, Hpre, <- app_assoc. reflexivity.
Qed.

Lemma consumes_compute_position_drift : sat consumes compute_position_drift.
Proof. unfold compute_position_drift. unfold_primitives. consumes_go. Qed.

Lemma arming_attempt_raise_script (home : option (Q * Q * Q)) (s : session)
    (e : exn) (s' : session) :
  arming_attempt P home s = (Raise e, s') ->
  exists pre used,
    (script s = used ++ Done :: script s' /\
     trace s' = trace s ++ pre ++ [Call action_disarm; Led 255 0 0]) \/
    (script s = used ++ Fails e :: script s' /\
     trace s' = trace s ++ pre ++ [Call action_disarm]).
Proof.
  intros H. unfold arming_attempt in H. apply try_except_inv in H.
  destruct H as [(e0 & s1 & Hb & Hh) | (_ & Hn)]; [|exfalso; exact (Hn e eq_refl)].
  assert (Hx : extends s s1 /\ consumes s s1).
  { match type of Hb with
    | ?m s = _ => assert (Hsat : sat extends m /\ sat consumes m)
    end.
    { split.
      - pose proof extends_compute_position_drift.
        unfold_primitives. sat_go extends_refl extends_trans extends_base.
      - pose proof consumes_compute_position_drift.
        unfold_primitives. consumes_go. }
    destruct Hsat as [H1 H2]. split; [exact (H1 _ _ _ Hb) | exact (H2 _ _ _ Hb)]. }
  destruct Hx as [[pre Hpre] [used Hused]]. exists pre, used.
  apply bind_inv in Hh.
  destruct Hh as [(u & s2 & Hd & Hh) | [(e1 & Hd & He) | (_ & Hd)]]; [| |discriminate Hd].
  - apply await_call_inv in Hd. destruct Hd as [T (rest & Hs & ->)].
    rewrite bind_set_color in Hh. cbv [raise] in Hh. injection Hh as _ <-.
    left. cbn [script trace with_trace with_script] in *. split.
    + rewrite Hused, Hs. reflexivity.
    + rewrite Hpre, <- !app_assoc. reflexivity.
  - injection He as <-. apply await_call_inv in Hd. destruct Hd as [T (rest & Hs & ->)].
    right. cbn [script trace with_trace with_script] in *. split.
    + rewrite Hused, Hs. reflexivity.
    + rewrite Hpre, <- !app_assoc. reflexivity.
Qed.

(** X15: An arming attempt that raises has tried to disarm as its last command,
    and the answer to the disarm is the last answer it has used.  When the
    disarm was accepted, the LED is set red after it; when the disarm
    itself raised, the LED is not set, and the exception that leaves the
    attempt is the one of the disarm. *)
Theorem arming_attempt_failure_disarms (home : option (Q * Q * Q)) (s : session)
    (e : exn) (s' : session) :
  arming_attempt P home s = (Raise e, s') ->
  exists pre used,
    (script s = used ++ Done :: script s' /\
     trace s' = trace s ++ pre ++ [Call action_disarm; Led 255 0 0]) \/
    (script s = used ++ Fails e :: script s' /\
     trace s' = trace s ++ pre ++ [Call action_disarm]).
Proof. exact (arming_attempt_raise_script home s e s'). Qed.

Lemma retry_loop_outcomes {A} (m : M A) (wait : Q) :
  sat keeps_sleeps m ->
  forall more s r s',
    retry_loop more wait m s = (r, s') ->
    (forall e, r = Raise e ->
       e = RetryError /\
       sleeps (trace s') = sleeps (trace s) ++ repeat wait more) /\
    exists k, (k <= more)%nat /\ sleeps (trace s') = sleeps (trace s) ++ repeat wait k.
Proof.
  intros Hm. induction more as [|more IH]; intros s r s' H; cbn [retry_loop] in H;
    apply try_except_inv in H;
    destruct H as [(e0 & s1 & Hb & Hh) | (Hb & Hn)].
  - cbv [raise] in Hh. injection Hh as <- <-. apply Hm in Hb. unfold keeps_sleeps in Hb.
    split.
    + intros e E. injection E as <-. split; [reflexivity|]. cbn. rewrite app_nil_r. exact Hb.
    + exists 0%nat. split; [lia|]. cbn. rewrite app_nil_r. exact Hb.
  - apply Hm in Hb. unfold keeps_sleeps in Hb. split.
    + intros e E. exfalso. exact (Hn e E).
    + exists 0%nat. split; [lia|]. cbn. rewrite app_nil_r. exact Hb.
  - apply Hm in Hb. unfold keeps_sleeps in Hb.
    unfold asyncio_sleep, emit in Hh. rewrite bind_modify in Hh.
    apply IH in Hh. cbn [trace with_trace] in Hh. rewrite sleeps_app, Hb in Hh.
    cbn [sleeps flat_map app] in Hh. destruct Hh as (Hr & k & Hk & Hs).
    split.
    + intros e E. destruct (Hr e E) as [-> Hs']. split; [reflexivity|].
      rewrite Hs', <- app_assoc. reflexivity.
    + exists (S k). split; [lia|]. rewrite Hs, <- app_assoc. reflexivity.
  - apply Hm in Hb. unfold keeps_sleeps in Hb. split.
    + intros e E. exfalso. exact (Hn e E).
    + exists 0%nat. split; [lia|]. cbn. rewrite app_nil_r. exact Hb.
Qed.

(** X16: The retried arming sequence lets out no exception but [RetryError],
    and that only after every attempt has failed, with a wait of 2 s
    between two attempts: one wait fewer than [PREFLIGHT_MAX_RETRIES].
    However it ends, it has waited at most that often. *)
Theorem arming_retry_outcomes (home : option (Q * Q * Q)) (s : session)
    (r : outcome unit) (s' : session) :
  arming_and_starting_offboard_mode P home s = (r, s') ->
  (forall e, r = Raise e ->
     e = RetryError /\
     sleeps (trace s') = sleeps (trace s) ++ repeat 2 (Nat.pred (PREFLIGHT_MAX_RETRIES P))) /\
  exists k, (k <= Nat.pred (PREFLIGHT_MAX_RETRIES P))%nat /\
            sleeps (trace s') = sleeps (trace s) ++ repeat 2 k.
Proof.
  unfold arming_and_starting_offboard_mode, retry.
  apply retry_loop_outcomes. apply keeps_sleeps_arming_attempt.
Qed.

End ArmingMore.

(** ** The execution loop, further *)

Lemma sat_weaken {A} (R R' : session -> session -> Prop) (m : M A) :
  (forall s s', R s s' -> R' s s') -> sat R m -> sat R' m.
Proof. intros HR Hm s r s' H. apply HR. eapply Hm. exact H. Qed.

Lemma calls_app (l l' : list event) : calls (l ++ l') = calls l ++ calls l'.
Proof. unfold calls. apply flat_map_app. Qed.

Lemma climb_stays_done_refl (s : session) : climb_stays_done s s.
Proof. split; auto. Qed.

Lemma climb_stays_done_trans (s1 s2 s3 : session) :
  climb_stays_done s1 s2 -> climb_stays_done s2 s3 -> climb_stays_done s1 s3.
Proof. intros [A1 A2] [B1 B2]. split; auto. Qed.

Lemma same_locals_climb_stays_done (s s' : session) :
  same_locals s s' -> climb_stays_done s s'.
Proof.
  intros (_ & _ & _ & _ & _ & Hc & _ & Hy). split.
  - intros H. rewrite Hc. exact H.
  - intros y H. rewrite Hy. exact H.
Qed.

Ltac climb_base :=
  unfold climb_stays_done;
  cbn [initial_climb_completed initial_climb_yaw with_script with_trace
       with_drift_delta with_waypoint_index with_landing_detected
       with_in_initial_climb with_initial_climb_completed];
  split; auto.

Ltac climb_go := sat_go climb_stays_done_refl climb_stays_done_trans climb_base.

Lemma keeps_calls_refl (s : session) : keeps_calls s s.
Proof. split; reflexivity. Qed.

Lemma keeps_calls_trans (s1 s2 s3 : session) :
  keeps_calls s1 s2 -> keeps_calls s2 s3 -> keeps_calls s1 s3.
Proof. intros [A1 A2] [B1 B2]. split; congruence. Qed.

Ltac calls_base :=
  unfold keeps_calls;
  cbn [trace landing_detected with_script with_trace with_drift_delta
       with_waypoint_index with_in_initial_climb with_initial_climb_completed
       with_initial_climb_yaw];
  rewrite ?calls_app; cbn [calls flat_map app]; rewrite ?app_nil_r;
  split; reflexivity.

Ltac calls_go := sat_go keeps_calls_refl keeps_calls_trans calls_base.

Section LoopMore.

Variable P : Params.
Variable ned2geodetic : Q -> Q -> Q -> Q -> Q -> Q -> Q * Q * Q.
Variable waypoints : list waypoint.
Variable start_time : Q.
Variables launch_lat launch_lon launch_alt : Q.
Variable csv_step : Q.

Lemma climb_stays_done_controlled_landing : sat climb_stays_done (controlled_landing P).
Proof.
  eapply sat_weaken; [|apply landing_rel_controlled_landing].
  intros s s' [H _]. apply same_locals_climb_stays_done. exact H.
Qed.

Lemma same_locals_first_attitude_euler : sat landing_rel first_attitude_euler.
Proof. unfold_primitives. landing_go. Qed.

Lemma climb_stays_done_await_dispatch (i : nat) (c : command) :
  sat climb_stays_done (await_dispatch i c).
Proof. unfold_primitives. climb_go. Qed.

Lemma climb_stays_done_climb_send (w : waypoint) (px py pz : Q) :
  sat climb_stays_done (climb_send P w px py pz).
Proof.
  pose proof climb_stays_done_await_dispatch as Hd.
  intros s r s' H. unfold climb_send in H. rewrite bind_get in H. cbv beta in H.
  remember (waypoint_index s) as i eqn:Hi. clear Hi.
  destruct (String.eqb (INITIAL_CLIMB_MODE P) "BODY_VELOCITY");
    destruct (initial_climb_yaw s) as [y|] eqn:Ey.
  - revert H. generalize s r s'. fold (@sat flow climb_stays_done).
    unfold advance. unfold_primitives. climb_go.
  - rewrite !bind_assoc, bind_modify in H.
    eapply climb_stays_done_trans with (s2 := with_initial_climb_yaw (Some (wp_yaw w)) s).
    + split; [auto | intros y Hy; congruence].
    + revert H. generalize (with_initial_climb_yaw (Some (wp_yaw w)) s) r s'.
      fold (@sat flow climb_stays_done). unfold advance. unfold_primitives. climb_go.
  - revert H. generalize s r s'. fold (@sat flow climb_stays_done).
    unfold advance. unfold_primitives. climb_go.
  - rewrite !bind_assoc in H. apply bind_inv in H.
    destruct H as [(yaw & s1 & Ha & H) | [(e & Ha & ->) | (Ha & ->)]];
      apply same_locals_first_attitude_euler in Ha; destruct Ha as [Ha _];
      pose proof (same_locals_climb_stays_done _ _ Ha) as Hs1; try exact Hs1.
    rewrite !bind_assoc, bind_modify, bind_ret in H.
    apply (climb_stays_done_trans _ _ _ Hs1).
    eapply climb_stays_done_trans with (s2 := with_initial_climb_yaw (Some yaw) s1).
    + destruct Ha as (_ & _ & _ & _ & _ & _ & _ & Hy). rewrite Ey in Hy.
      split; [auto | intros y Hy'; congruence].
    + revert H. generalize (with_initial_climb_yaw (Some yaw) s1) r s'.
      fold (@sat flow climb_stays_done). unfold advance. unfold_primitives. climb_go.
Qed.

Lemma climb_stays_done_iteration (ends_high : bool) :
  sat climb_stays_done
    (iteration P ned2geodetic waypoints start_time launch_lat launch_lon launch_alt
       csv_step ends_high).
Proof.
  pose proof climb_stays_done_controlled_landing.
  pose proof climb_stays_done_climb_send.
  pose proof climb_stays_done_await_dispatch.
  unfold iteration, on_time_or_late, ahead_of_schedule, cruise, landing_decision,
    dispatch, climb_gate.
  unfold time_time, set_color, asyncio_sleep, emit, advance.
  climb_go.
Qed.

(** X17: Once the initial climb is completed it stays completed, and a climb
    yaw once taken is never replaced, through any run of the loop. *)
Theorem climb_is_never_reentered (ends_high : bool) (fuel : nat) (s : session)
    (r : outcome unit) (s' : session) :
  trajectory_loop P ned2geodetic waypoints start_time launch_lat launch_lon launch_alt
    csv_step ends_high fuel s = (r, s') ->
  (initial_climb_completed s = true -> initial_climb_completed s' = true) /\
  (forall y, initial_climb_yaw s = Some y -> initial_climb_yaw s' = Some y).
Proof.
  revert s r s'. fold (@sat unit climb_stays_done).
  pose proof (climb_stays_done_iteration ends_high).
  induction fuel as [|fuel IH]; cbn [trajectory_loop]; unfold guarded_iteration, set_color, emit;
    climb_go.
Qed.

(** X18: An iteration that is ahead of schedule sends nothing and leaves the
    cursor where it is: it waits, for the time left until the waypoint is
    due, but never longer than [AHEAD_SLEEP_STEP_SEC]. *)
Theorem ahead_of_schedule_waits (ends_high : bool) (s : session) (now : Q)
    (rest : list response) (w : waypoint) :
  script s = Clock now :: rest ->
  nth_error waypoints (waypoint_index s) = Some w ->
  now - start_time < wp_t w ->
  exists d,
    iteration P ned2geodetic waypoints start_time launch_lat launch_lon launch_alt
      csv_step ends_high s
    = (Ret Next,
       with_trace (trace s ++ [Sleep d])
         (with_drift_delta (now - start_time - wp_t w) (with_script rest s))) /\
    0 < d /\ d <= AHEAD_SLEEP_STEP_SEC /\ d <= wp_t w - (now - start_time).
Proof.
  intros Hs Hw Hd.
  exists (py_min (wp_t w - (now - start_time)) AHEAD_SLEEP_STEP_SEC).
  split.
  - unfold iteration.
    rewrite (bind_run _ _ _ _ _ (time_time_run _ _ _ Hs)).
    rewrite bind_get. cbn [waypoint_index with_script].
    unfold item. rewrite Hw. cbn [of_result]. rewrite bind_ret, bind_modify.
    rewrite Qleb_false by lra.
    unfold ahead_of_schedule. rewrite Qltb_true by lra.
    reflexivity.
  - unfold py_min, AHEAD_SLEEP_STEP_SEC.
    destruct (Qltb (1 # 10) (wp_t w - (now - start_time))) eqn:E.
    + apply Qltb_spec in E. repeat split; lra.
    + assert (E' : wp_t w - (now - start_time) <= 1 # 10).
      { destruct (Qlt_le_dec (1 # 10) (wp_t w - (now - start_time))) as [Hlt|Hle];
          [|exact Hle].
        apply Qltb_spec in Hlt. congruence. }
      repeat split; lra.
Qed.

(** X19: The catch-up skip is bounded.  With a positive time step the skip
    count is not negative and, unless the step is so small that the
    catch-up limit holds [2^53] of them, it exceeds the number of whole
    steps in the lateness (capped at [DRIFT_CATCHUP_MAX_SEC]) by at most
    one, the one that the rounding of the quotient can add.  With a
    negative time step nothing is skipped. *)
Theorem skip_count_bounds (drift : Q) (k : Z) :
  skip_count_of csv_step drift = Ok k ->
  0 <= drift ->
  (0 < csv_step ->
   (0 <= k)%Z /\
   (DRIFT_CATCHUP_MAX_SEC < csv_step * inject_Z (2 ^ 53) ->
    inject_Z (k - 1) * csv_step <= drift /\
    inject_Z (k - 1) * csv_step <= DRIFT_CATCHUP_MAX_SEC)) /\
  (csv_step < 0 -> (k <= 0)%Z).
Proof using csv_step.
  unfold skip_count_of. intros H Hd.
  destruct (Qeq_bool csv_step 0) eqn:Ez; [discriminate H|].
  set (safe := py_min drift DRIFT_CATCHUP_MAX_SEC) in *.
  destruct (b64_round (safe / csv_step)) as [q|] eqn:Hq; [|discriminate H].
  injection H as <-.
  assert (Hs : 0 <= safe /\ safe <= drift /\ safe <= DRIFT_CATCHUP_MAX_SEC).
  { unfold safe, py_min, DRIFT_CATCHUP_MAX_SEC.
    destruct (Qlt_le_dec (5 # 10) drift) as [Hlt|Hle].
    - rewrite (Qltb_true _ _ Hlt). repeat split; lra.
    - rewrite (Qltb_false _ _ Hle). repeat split; lra. }
  destruct Hs as (Hs0 & Hs1 & Hs2).
  pose proof (b64_round_sign _ _ Hq) as [Hsign1 Hsign2].
  split.
  - intros Hc.
    assert (Hx : 0 <= safe / csv_step).
    { apply Qle_shift_div_l; [exact Hc | lra]. }
    pose proof (Hsign1 Hx) as Hq0.
    unfold py_int. rewrite (Qleb_true _ _ Hq0).
    split.
    { change 0%Z with (Qfloor 0). apply Qfloor_resp_le. exact Hq0. }
    intros Hbig.
    assert (Hxlt : safe / csv_step < inject_Z (2 ^ 53)).
    { apply Qlt_shift_div_r; [exact Hc|]. rewrite Qmult_comm. lra. }
    set (j := Qfloor (safe / csv_step)).
    assert (Hj0 : (0 <= j)%Z).
    { change 0%Z with (Qfloor 0). apply Qfloor_resp_le. exact Hx. }
    assert (Hj1 : inject_Z j <= safe / csv_step) by apply Qfloor_le.
    assert (Hj2 : safe / csv_step < inject_Z j + 1).
    { pose proof (Qlt_floor (safe / csv_step)) as Hf. fold j in Hf.
      rewrite inject_Z_plus in Hf. exact Hf. }
    assert (Hj3 : (j + 1 <= 2 ^ 53)%Z).
    { assert (Hlt : (j < 2 ^ 53)%Z); [|lia].
      rewrite Zlt_Qlt. eapply Qle_lt_trans; [exact Hj1 | exact Hxlt]. }
    destruct (b64_round_between (safe / csv_step) j Hj0 Hj3 Hj1 Hj2)
      as (q' & Hq' & _ & Hu).
    rewrite Hq in Hq'. injection Hq' as <-.
    assert (Hk : (Qfloor q <= j + 1)%Z).
    { rewrite <- (Qfloor_Z (j + 1)). apply Qfloor_resp_le.
      rewrite inject_Z_plus. exact Hu. }
    assert (Hk' : inject_Z (Qfloor q - 1) <= safe / csv_step).
    { eapply Qle_trans; [|exact Hj1]. rewrite <- Zle_Qle. lia. }
    assert (Hspan : inject_Z (Qfloor q - 1) * csv_step <= safe).
    { assert (E : safe == safe / csv_step * csv_step) by (field; lra).
      rewrite E. apply Qmult_le_compat_r; [exact Hk' | lra]. }
    split; lra.
  - intros Hc.
    assert (Hx : safe / csv_step <= 0).
    { assert (E : safe / csv_step == - (safe / (- csv_step))) by (field; lra).
      assert (0 <= safe / (- csv_step)).
      { apply Qle_shift_div_l; lra. }
      lra. }
    pose proof (Hsign2 Hx) as Hq0.
    unfold py_int. destruct (Qleb 0 q).
    + change 0%Z with (Qfloor 0). apply Qfloor_resp_le. exact Hq0.
    + change 0%Z with (Qceiling 0). apply Qceiling_resp_le. exact Hq0.
Qed.

(** X20: While the climb gate is closed the catch-up skip is not reached: however
    late the iteration is, it sends at most the setpoint of the current
    waypoint, and the cursor moves by at most one (by one when the
    iteration goes on). *)
Theorem climb_iteration_never_skips (ends_high : bool) (s : session) (now : Q)
    (rest : list response) (w : waypoint) (px py pz : Q) :
  script s = Clock now :: rest ->
  nth_error waypoints (waypoint_index s) = Some w ->
  0 <= now - start_time - wp_t w ->
  corrected_position P (initial_position_drift s) w = (px, py, pz) ->
  initial_climb_completed s = false ->
  (- pz < INITIAL_CLIMB_ALTITUDE_THRESHOLD P \/
   now - initial_climb_start_time s < INITIAL_CLIMB_TIME_THRESHOLD P) ->
  forall r s',
    iteration P ned2geodetic waypoints start_time launch_lat launch_lon launch_alt
      csv_step ends_high s = (r, s') ->
    (waypoint_index s <= waypoint_index s' <= waypoint_index s + 1)%nat /\
    (dispatched (trace s') = dispatched (trace s) \/
     dispatched (trace s') = dispatched (trace s) ++ [waypoint_index s]) /\
    (r = Ret Next -> waypoint_index s' = (waypoint_index s + 1)%nat).
Proof.
  intros Hs Hw Hd Hc Hi Hg r s' H.
  rewrite (iteration_on_time P ned2geodetic waypoints start_time launch_lat launch_lon
             launch_alt csv_step ends_high s now rest w Hs Hw Hd) in H.
  rewrite (on_time_gate_closed P ned2geodetic waypoints launch_lat launch_lon launch_alt
             csv_step ends_high _ now w px py pz) in H; [|exact Hc|exact Hi|exact Hg].
  apply climb_send_spec in H; [|exact waypoints].
  cbn [waypoint_index trace with_trace with_in_initial_climb with_drift_delta
       with_script] in H.
  unfold dispatched in *. rewrite !flat_map_app in H.
  cbn [flat_map app] in H. rewrite !app_nil_r in H. exact H.
Qed.

Lemma keeps_calls_iteration_ends_high :
  sat keeps_calls
    (iteration P ned2geodetic waypoints start_time launch_lat launch_lon launch_alt
       csv_step true).
Proof.
  unfold iteration, on_time_or_late, ahead_of_schedule, cruise, climb_send,
    landing_decision, dispatch, climb_gate.
  cbn [negb andb]. unfold_primitives.
  calls_go.
Qed.

Lemma keeps_calls_trajectory_loop (fuel : nat) (s : session) (r : outcome unit)
    (s' : session) :
  trajectory_loop P ned2geodetic waypoints start_time launch_lat launch_lon launch_alt
    csv_step true fuel s = (r, s') ->
  calls (trace s') = calls (trace s) /\ landing_detected s' = landing_detected s.
Proof.
  revert s r s'. fold (@sat unit keeps_calls).
  pose proof keeps_calls_iteration_ends_high.
  induction fuel as [|fuel IH]; cbn [trajectory_loop];
    unfold guarded_iteration, set_color, emit; calls_go.
Qed.

(** X21: On a trajectory that ends high the loop neither calls the Landing
    Controller nor records a landing: it awaits nothing but waypoint
    setpoints, whatever the outside answers and however the loop ends. *)
Theorem ends_high_loop_never_lands (fuel : nat) (s : session) (r : outcome unit)
    (s' : session) :
  trajectory_loop P ned2geodetic waypoints start_time launch_lat launch_lon launch_alt
    csv_step true fuel s = (r, s') ->
  calls (trace s') = calls (trace s) /\ landing_detected s' = landing_detected s.
Proof. exact (keeps_calls_trajectory_loop fuel s r s'). Qed.

Lemma breaks_landed_bind {A} (m : M A) (k : A -> M flow) :
  (forall a, breaks_landed (k a)) -> breaks_landed (bind m k).
Proof.
  intros Hk s s' H. apply bind_inv in H.
  destruct H as [(a & s1 & _ & H) | [(e & _ & H) | (_ & H)]];
    [|discriminate H|discriminate H].
  exact (Hk a s1 s' H).
Qed.

Lemma breaks_landed_next : breaks_landed (ret Next).
Proof. intros s s' H. discriminate H. Qed.

Lemma breaks_landed_recorded {A} (m : M A) :
  breaks_landed (m ;; modify (with_landing_detected true) ;; ret Break).
Proof.
  intros s s' H. apply bind_inv in H.
  destruct H as [(a & s1 & _ & H) | [(e & _ & H) | (_ & H)]];
    [|discriminate H|discriminate H].
  rewrite bind_modify in H. injection H as <-. reflexivity.
Qed.

Ltac breaks_go :=
  repeat first
    [ apply breaks_landed_next
    | apply breaks_landed_recorded
    | apply breaks_landed_bind; intros
    | match goal with
      | |- breaks_landed (if ?b then _ else _) => destruct b
      | |- breaks_landed (match ?x with _ => _ end) => destruct x
      end ].

Lemma breaks_landed_iteration (ends_high : bool) :
  breaks_landed
    (iteration P ned2geodetic waypoints start_time launch_lat launch_lon launch_alt
       csv_step ends_high).
Proof.
  unfold iteration, on_time_or_late, ahead_of_schedule, cruise, climb_send,
    landing_decision.
  breaks_go.
Qed.

(** X22: The loop returns for one of three reasons: the cursor has reached the
    end of the trajectory, a landing was recorded by the Landing Controller
    branch, or an iteration raised and the handler has just set the LED
    red. *)
Theorem loop_stop_reasons (ends_high : bool) (fuel : nat) (s s' : session) :
  trajectory_loop P ned2geodetic waypoints start_time launch_lat launch_lon launch_alt
    csv_step ends_high fuel s = (Ret tt, s') ->
  (total_waypoints waypoints <= waypoint_index s')%nat \/
  landing_detected s' = true \/
  exists tr, trace s' = tr ++ [Led 255 0 0].
Proof.
  revert s. induction fuel as [|fuel IH]; intros s H; cbn [trajectory_loop] in H.
  - discriminate H.
  - rewrite bind_get in H.
    destruct (waypoint_index s <? total_waypoints waypoints)%nat eqn:E.
    + apply bind_inv in H.
      destruct H as [(fl & s1 & Hg & H) | [(e & _ & H) | (_ & H)]];
        [|discriminate H|discriminate H].
      destruct fl; [exact (IH _ H)|].
      injection H as <-.
      unfold guarded_iteration in Hg. apply try_except_inv in Hg.
      destruct Hg as [(e & s2 & _ & Hh) | (Hi & _)].
      * right. right. exists (trace s2).
        unfold set_color, emit in Hh. rewrite bind_modify in Hh.
        injection Hh as <-. reflexivity.
      * right. left. exact (breaks_landed_iteration ends_high _ _ Hi).
    + injection H as <-. left. apply Nat.ltb_ge in E. exact E.
Qed.

Lemma keeps_calls_landing_wait_loop (fuel : nat) (start : Q) :
  sat keeps_calls (landing_wait_loop P fuel start).
Proof.
  induction fuel as [|fuel IH]; cbn [landing_wait_loop]; unfold_primitives; calls_go.
Qed.

Lemma keeps_calls_wait_for_landing : sat keeps_calls (wait_for_landing P).
Proof.
  pose proof keeps_calls_landing_wait_loop.
  unfold wait_for_landing. unfold_primitives. calls_go.
Qed.

Lemma calls_stop_offboard_mode (s : session) (r : outcome unit) (s' : session) :
  stop_offboard_mode s = (r, s') ->
  calls (trace s') = calls (trace s) ++ [offboard_stop] /\
  landing_detected s' = landing_detected s.
Proof.
  intros H. split.
  - rewrite (stop_offboard_mode_trace _ _ _ H), calls_app. reflexivity.
  - apply landing_rel_stop_offboard_mode in H. apply H.
Qed.

Lemma calls_perform_landing (s : session) (r : outcome unit) (s' : session) :
  perform_landing P s = (r, s') ->
  calls (trace s') = calls (trace s) ++ [action_land] /\
  landing_detected s' = landing_detected s.
Proof.
  intros H. split; [|apply landing_rel_perform_landing in H; apply H].
  assert (Hin : forall r1 s1,
             (await_call action_land ;;
              start_time <- time_time ;;
              fueled (fun fuel => landing_wait_loop P fuel start_time)) s = (r1, s1) ->
             calls (trace s1) = calls (trace s) ++ [action_land]).
  { intros r1 s1 H1. apply bind_inv in H1.
    destruct H1 as [(a & s2 & Ha & H1) | [(e & Ha & _) | (Ha & _)]];
      apply await_call_inv in Ha; destruct Ha as [Ha _].
    - assert (Hk : keeps_calls s2 s1).
      { revert H1. generalize s2 r1 s1.
        fold (@sat unit keeps_calls
                (start_time <- time_time ;;
                 fueled (fun fuel => landing_wait_loop P fuel start_time))).
        pose proof keeps_calls_landing_wait_loop.
        unfold_primitives. calls_go. }
      destruct Hk as [Hk _]. rewrite Hk, Ha, calls_app. reflexivity.
    - rewrite Ha, calls_app. reflexivity.
    - rewrite Ha, calls_app. reflexivity. }
  unfold perform_landing in H. apply try_except_inv in H.
  destruct H as [(e & s1 & H1 & H2) | (H1 & _)].
  - injection H2 as _ <-. exact (Hin _ _ H1).
  - exact (Hin _ _ H1).
Qed.

End LoopMore.

(** ** The whole of [perform_trajectory] *)

Section WholeTrajectory.

Variable P : Params.
Variable ned2geodetic : Q -> Q -> Q -> Q -> Q -> Q -> Q * Q * Q.
Variable waypoints : list waypoint.
Variable start_time : Q.
Variables launch_lat launch_lon launch_alt : Q.

(** X24: A trajectory with no waypoint makes [perform_trajectory] raise
    [IndexError] when it looks at the last waypoint: after one reading of
    the clock, with nothing sent and no LED set. *)
Theorem empty_trajectory_raises (s : session) (now : Q) (rest : list response) :
  script s = Clock now :: rest ->
  exists s',
    perform_trajectory P ned2geodetic [] start_time launch_lat launch_lon launch_alt s
    = (Raise IndexError, s') /\
    trace s' = trace s /\ script s' = rest.
Proof.
  intros Hs. unfold perform_trajectory.
  rewrite !bind_modify.
  erewrite bind_run by (apply time_time_run; cbn [script with_waypoint_index
    with_landing_detected with_in_initial_climb with_initial_climb_completed];
    exact Hs).
  rewrite !bind_modify.
  cbn [csv_step_of total_waypoints List.length Nat.ltb Nat.leb of_result].
  rewrite bind_ret.
  eexists. split; [reflexivity|].
  destruct s; split; reflexivity.
Qed.

(** X25: On a trajectory that ends high, a [perform_trajectory] that returns has
    sent, outside the waypoint setpoints, exactly one offboard stop followed
    by one land command: in the post-trajectory handling, never inside the
    loop, and also after a loop that broke on an error. *)
Theorem ends_high_trajectory_lands_once (s s' : session) :
  trajectory_ends_high_of P waypoints = Ok true ->
  perform_trajectory P ned2geodetic waypoints start_time launch_lat launch_lon launch_alt s
    = (Ret tt, s') ->
  calls (trace s') = calls (trace s) ++ [offboard_stop; action_land].
Proof.
  intros Hh H. unfold perform_trajectory in H.
  rewrite !bind_modify in H.
  inv_ret H.
  match goal with
  | Ht : time_time _ = (Ret _, ?s1) |- _ =>
      apply time_time_inv in Ht; destruct Ht as (rest & Hscr & ->)
  end.
  rewrite !bind_modify in H.
  destruct (csv_step_of P waypoints) as [step|e]; [|discriminate H].
  cbn [of_result] in H. rewrite bind_ret in H.
  rewrite Hh in H. cbn [of_result] in H. rewrite bind_ret in H.
  inv_ret H.
  match goal with
  | Hl : fueled _ _ = _ |- _ =>
      unfold fueled in Hl; apply keeps_calls_trajectory_loop in Hl;
      destruct Hl as [Hc Hd]
  end.
  cbn [trace landing_detected with_script with_waypoint_index with_landing_detected
       with_in_initial_climb with_initial_climb_completed
       with_initial_climb_start_time with_initial_climb_yaw] in Hc, Hd.
  unfold post_trajectory in H. rewrite bind_get in H. rewrite Hd in H.
  cbn [negb] in H. rewrite !bind_assoc in H.
  apply bind_inv in H.
  destruct H as [(? & s2 & Hx & H) | [(? & _ & Hf) | (_ & Hf)]];
    [|discriminate Hf|discriminate Hf].
  apply calls_stop_offboard_mode in Hx. destruct Hx as [Hx _].
  apply bind_inv in H.
  destruct H as [(? & s4 & H1 & H) | [(? & _ & Hf) | (_ & Hf)]];
    [|discriminate Hf|discriminate Hf].
  apply bind_inv in H1.
  destruct H1 as [(? & s3 & Hy & Hz) | [(? & _ & Hf) | (_ & Hf)]];
    [|discriminate Hf|discriminate Hf].
  apply calls_perform_landing in Hy. destruct Hy as [Hy _].
  apply keeps_calls_wait_for_landing in Hz. destruct Hz as [Hz _].
  unfold set_color, emit, modify in H. injection H as <-.
  cbn [trace with_trace]. rewrite calls_app. cbn [calls flat_map app].
  rewrite app_nil_r, Hz, Hy, Hx, Hc, <- app_assoc. reflexivity.
Qed.

Lemma trajectory_ends_high_of_err (e : exn) :
  trajectory_ends_high_of P waypoints = Err e -> waypoints = [] /\ e = IndexError.
Proof.
  unfold trajectory_ends_high_of, last_item, item.
  destruct (nth_error waypoints (List.length waypoints - 1)) eqn:E.
  - discriminate.
  - cbn [rbind]. intros H. injection H as <-. split; [|reflexivity].
    apply nth_error_None in E. destruct waypoints; [reflexivity|].
    cbn [List.length] in E. lia.
Qed.

Lemma csv_step_of_nonempty (e : exn) : csv_step_of P waypoints <> Err e.
Proof.
  unfold csv_step_of, total_waypoints, item.
  destruct waypoints as [|w0 [|w1 tl]]; cbn; discriminate.
Qed.

Lemma no_raise_trajectory_loop (csv_step : Q) (ends_high : bool) (fuel : nat) :
  no_raise (trajectory_loop P ned2geodetic waypoints start_time launch_lat launch_lon
              launch_alt csv_step ends_high fuel).
Proof.
  induction fuel as [|fuel IH]; cbn [trajectory_loop];
    unfold guarded_iteration, set_color, emit; no_raise_go.
Qed.

(** X23: No exception escapes the execution loop, whatever the outside answers:
    what an iteration raises is caught by its handler.  The loop returns,
    or it waits for an answer that does not come. *)
Theorem trajectory_loop_never_raises (csv_step : Q) (ends_high : bool) (fuel : nat)
    (s : session) :
  exists s',
    trajectory_loop P ned2geodetic waypoints start_time launch_lat launch_lon launch_alt
      csv_step ends_high fuel s = (Ret tt, s') \/
    trajectory_loop P ned2geodetic waypoints start_time launch_lat launch_lon launch_alt
      csv_step ends_high fuel s = (Stuck, s').
Proof.
  destruct (trajectory_loop P ned2geodetic waypoints start_time launch_lat launch_lon
              launch_alt csv_step ends_high fuel s) as [r s'] eqn:E.
  exists s'. destruct r as [[]|e|]; [left; reflexivity | | right; reflexivity].
  exfalso. exact (no_raise_trajectory_loop csv_step ends_high fuel _ _ _ E).
Qed.

(** X26: What [perform_trajectory] can raise: [IndexError] on a trajectory with
    no waypoint, before anything is sent; on a trajectory that ends low,
    what the first descent setpoint of the Landing Controller raised, if it
    is not an [OffboardError]; on a trajectory that ends high, what the
    wait for the landing raised, after the offboard stop and the land
    command.  Nothing else. *)
Theorem perform_trajectory_raises (s : session) (e : exn) (s' : session) :
  perform_trajectory P ned2geodetic waypoints start_time launch_lat launch_lon launch_alt s
    = (Raise e, s') ->
  (waypoints = [] /\ e = IndexError /\ trace s' = trace s) \/
  (trajectory_ends_high_of P waypoints = Ok false /\ e <> OffboardError /\
   exists tr, trace s' = tr ++ [Call (descent_setpoint P)]) \/
  (trajectory_ends_high_of P waypoints = Ok true /\
   calls (trace s') = calls (trace s) ++ [offboard_stop; action_land]).
Proof.
  intros H. unfold perform_trajectory in H.
  rewrite !bind_modify in H.
  apply bind_inv in H.
  destruct H as [(now & s1 & Ht & H) | [(e' & Ht & _) | (_ & Hf)]];
    [| exact (False_ind _ (time_time_no_raise _ _ _ Ht)) | discriminate Hf].
  apply time_time_inv in Ht. destruct Ht as (rest & Hscr & ->).
  rewrite !bind_modify in H.
  destruct (csv_step_of P waypoints) as [step|e0] eqn:Ec;
    [|exact (False_ind _ (csv_step_of_nonempty _ Ec))].
  cbn [of_result] in H. rewrite bind_ret in H.
  destruct (trajectory_ends_high_of P waypoints) as [high|e0] eqn:Eh.
  2:{ cbn [of_result] in H. unfold raise in H. injection H as <- <-.
      apply trajectory_ends_high_of_err in Eh. destruct Eh as [-> ->].
      left. destruct s; repeat split; reflexivity. }
  cbn [of_result] in H. rewrite bind_ret in H.
  apply bind_inv in H.
  destruct H as [(u & s2 & Hl & H) | [(e' & Hl & _) | (_ & Hf)]];
    [| exact (False_ind _ (no_raise_trajectory_loop _ _ _ _ _ _ Hl))
     | discriminate Hf].
  unfold post_trajectory in H. rewrite bind_get in H.
  apply bind_inv in H.
  destruct H as [(u' & s3 & _ & H) | [(e' & H & He) | (_ & Hf)]];
    [ unfold set_color, emit, modify in H; discriminate H | | discriminate Hf].
  injection He as <-.
  destruct (landing_detected s2) eqn:Ed; cbn [negb] in H; [discriminate H|].
  destruct high.
  - right. right. split; [reflexivity|].
    unfold fueled in Hl. apply keeps_calls_trajectory_loop in Hl.
    destruct Hl as [Hc _].
    cbn [trace with_script with_waypoint_index with_landing_detected
         with_in_initial_climb with_initial_climb_completed
         with_initial_climb_start_time with_initial_climb_yaw] in Hc.
    apply bind_inv in H.
    destruct H as [(? & s3 & Hx & H) | [(? & Hx & _) | (_ & Hf)]];
      [| exact (False_ind _ (no_raise_stop_offboard_mode _ _ _ Hx)) | discriminate Hf].
    apply calls_stop_offboard_mode in Hx. destruct Hx as [Hx _].
    apply bind_inv in H.
    destruct H as [(? & s4 & Hy & Hz) | [(? & Hy & _) | (_ & Hf)]];
      [| exact (False_ind _ (no_raise_perform_landing P _ _ _ Hy)) | discriminate Hf].
    apply calls_perform_landing in Hy. destruct Hy as [Hy _].
    apply keeps_calls_wait_for_landing in Hz. destruct Hz as [Hz _].
    rewrite Hz, Hy, Hx, Hc, <- app_assoc. reflexivity.
  - right. left. split; [reflexivity|].
    apply controlled_landing_raise_inv in H.
    destruct H as (Hne & t0 & rest' & _ & ->).
    split; [exact Hne|]. eexists. reflexivity.
Qed.

End WholeTrajectory.

(** ** A zero step between the first two samples, in [perform_trajectory] *)




(** ** Pre-flight checks *)

Lemma health_phase_passes (T st : Q) (ups : list health_update) (tr : list event) :
  health_phase T st ups = (tr, inr true) <->
  exists pre now health rest,
    ups = pre ++ HealthAt now health :: rest /\
    Forall (keeps_waiting T st) pre /\
    now - st <= T /\
    is_global_position_ok health && is_home_position_ok health = true /\
    tr = repeat (Sleep 1) (List.length pre).
Proof.
  split.
  - revert tr. induction ups as [|u ups IH]; intros tr H; cbn [health_phase] in H.
    + discriminate H.
    + destruct u as [now h|e]; [|discriminate H].
      destruct (Qltb T (now - st)) eqn:Et; [discriminate H|].
      apply Qltb_false_iff in Et.
      destruct (is_global_position_ok h && is_home_position_ok h) eqn:Eh.
      * injection H as <-. exists [], now, h, ups. repeat split; auto.
      * destruct (health_phase T st ups) as [tr' r'] eqn:E.
        injection H as <- ->.
        destruct (IH _ eq_refl) as (pre & now' & h' & rest & -> & Hf & Hn & Hh & ->).
        exists (HealthAt now h :: pre), now', h', rest. repeat split; auto.
        constructor; [|exact Hf]. exists now, h. auto.
  - intros (pre & now & h & rest & -> & Hf & Hn & Hh & ->).
    induction Hf as [|u pre (t & h' & -> & Ht & Hw) Hf IH]; cbn [app health_phase].
    + rewrite (Qltb_false _ _ Hn), Hh. reflexivity.
    + rewrite (Qltb_false _ _ Ht), Hw, IH. reflexivity.
Qed.

(** X27: [pre_flight_checks] returns in two cases only.  Without
    [REQUIRE_GLOBAL_POSITION] it returns [None] at once.  With it, it
    returns an origin: a health update with both flags set has arrived,
    that update and all before it were handled within
    [PRE_FLIGHT_TIMEOUT], and the origin is the answer of the origin
    request or, on a [TelemetryError], the first position; it has waited
    one second per earlier update. *)
Theorem pre_flight_checks_returns (P : Params) (T : Q) (w : preflight_world)
    (tr : list event) (o : option (Q * Q * Q)) :
  pre_flight_checks P T w = (tr, PfReturn o) <->
  (REQUIRE_GLOBAL_POSITION P = false /\ o = None /\
   tr = [Led 255 255 0; Led 0 255 0]) \/
  (REQUIRE_GLOBAL_POSITION P = true /\
   exists pre now health rest gps_origin,
     pf_health w = pre ++ HealthAt now health :: rest /\
     Forall (keeps_waiting T (pf_start_time w)) pre /\
     now - pf_start_time w <= T /\
     is_global_position_ok health && is_home_position_ok health = true /\
     origin_of w gps_origin /\
     o = Some gps_origin /\
     tr = Led 255 255 0 :: repeat (Sleep 1) (List.length pre) ++ [Led 0 255 0]).
Proof.
  unfold pre_flight_checks, pre_flight_try.
  destruct (REQUIRE_GLOBAL_POSITION P).
  - split.
    + intros H. right. split; [reflexivity|].
      destruct (health_phase T (pf_start_time w) (pf_health w)) as [tr1 r1] eqn:E.
      destruct r1 as [e|[|]]; try discriminate H.
      apply health_phase_passes in E.
      destruct E as (pre & now & h & rest & Hp & Hf & Hn & Hh & ->).
      unfold origin_phase in H.
      exists pre, now, h, rest.
      destruct (pf_origin w) as [g|e] eqn:Eo.
      * injection H as <- <-. exists g. repeat split; auto. left. exact Eo.
      * destruct e; try discriminate H.
        destruct (pf_position w) as [[g|e]|] eqn:Ep; try discriminate H.
        injection H as <- <-. exists g. repeat split; auto. right. auto.
    + intros [(Hr & _) | (_ & pre & now & h & rest & g & Hp & Hf & Hn & Hh & Ho & -> & ->)];
        [discriminate Hr|].
      assert (E : health_phase T (pf_start_time w) (pf_health w)
                  = (repeat (Sleep 1) (List.length pre), inr true)).
      { apply health_phase_passes. exists pre, now, h, rest. auto. }
      rewrite E. unfold origin_phase.
      destruct Ho as [-> | [-> ->]]; reflexivity.
  - split.
    + intros H. injection H as <- <-. left. auto.
    + intros [(_ & -> & ->) | (Hr & _)]; [reflexivity | discriminate Hr].
Qed.

Lemma last_color_app_led (tr : list event) (r g b : Z) :
  last_color (tr ++ [Led r g b]) = Some (r, g, b).
Proof. unfold last_color. rewrite fold_left_app. reflexivity. Qed.

Lemma health_phase_trace (T st : Q) (ups : list health_update) (tr : list event)
    (r : preflight_exn + bool) :
  health_phase T st ups = (tr, r) ->
  exists n, tr = repeat (Sleep 1) n \/
            (tr = repeat (Sleep 1) n ++ [Led 255 0 0] /\ r = inl TimeoutError).
Proof.
  revert tr r. induction ups as [|u ups IH]; intros tr r H; cbn [health_phase] in H.
  - injection H as <- <-. exists 0%nat. left. reflexivity.
  - destruct u as [now h|e].
    + destruct (Qltb T (now - st)).
      * injection H as <- <-. exists 0%nat. right. split; reflexivity.
      * destruct (is_global_position_ok h && is_home_position_ok h).
        -- injection H as <- <-. exists 0%nat. left. reflexivity.
        -- destruct (health_phase T st ups) as [tr' r'] eqn:E.
           injection H as <- <-.
           destruct (IH _ _ eq_refl) as (n & [-> | [-> ->]]); exists (S n).
           ++ left. reflexivity.
           ++ right. split; reflexivity.
    + injection H as <- <-. exists 0%nat. left. reflexivity.
Qed.

Lemma not_in_sleeps (e : event) (n : nat) :
  e <> Sleep 1 -> ~ In e (repeat (Sleep 1) n).
Proof. intros He Hi. apply repeat_spec in Hi. exact (He Hi). Qed.

(** X28: The LED of [pre_flight_checks]: yellow first; when it returns the last
    colour is green and red was never shown; when it raises the last colour
    is red and green was never shown. *)
Theorem pre_flight_checks_colors (P : Params) (T : Q) (w : preflight_world)
    (tr : list event) (r : preflight_result) :
  pre_flight_checks P T w = (tr, r) ->
  hd_error tr = Some (Led 255 255 0) /\
  match r with
  | PfReturn _ => last_color tr = Some (0, 255, 0)%Z /\ ~ In (Led 255 0 0) tr
  | PfRaise _ => last_color tr = Some (255, 0, 0)%Z /\ ~ In (Led 0 255 0) tr
  end.
Proof.
  unfold pre_flight_checks. intros H.
  destruct (pre_flight_try P T w) as [tr1 r1] eqn:E.
  assert (Hr : match r1 with
               | PfReturn _ => exists n, tr1 = repeat (Sleep 1) n ++ [Led 0 255 0]
               | PfRaise _ => exists n m, tr1 = repeat (Sleep 1) n ++ repeat (Led 255 0 0) m
               end).
  { unfold pre_flight_try in E.
    destruct (REQUIRE_GLOBAL_POSITION P).
    - destruct (health_phase T (pf_start_time w) (pf_health w)) as [tr2 r2] eqn:E2.
      apply health_phase_trace in E2. destruct E2 as (n & E2).
      destruct r2 as [e|[|]].
      + injection E as <- <-.
        destruct E2 as [-> | [-> _]]; [exists n, 0%nat | exists n, 1%nat];
          cbn [repeat]; rewrite ?app_nil_r; reflexivity.
      + destruct E2 as [-> | [_ E2]]; [|discriminate E2].
        destruct (origin_phase w) as [e|[g|]]; injection E as <- <-.
        * exists n, 0%nat. cbn [repeat]. rewrite app_nil_r. reflexivity.
        * exists n. reflexivity.
        * exists n, 1%nat. reflexivity.
      + destruct E2 as [-> | [_ E2]]; [|discriminate E2].
        injection E as <- <-. exists n, 0%nat. cbn [repeat]. rewrite app_nil_r.
        reflexivity.
    - injection E as <- <-. exists 0%nat. reflexivity. }
  destruct r1 as [o|e]; injection H as <- <-.
  - destruct Hr as (n & ->). split; [reflexivity|]. split.
    + change (Led 255 255 0 :: repeat (Sleep 1) n ++ [Led 0 255 0])
        with ((Led 255 255 0 :: repeat (Sleep 1) n) ++ [Led 0 255 0]).
      apply last_color_app_led.
    + intros [Hi | Hi]; [discriminate Hi|].
      apply in_app_or in Hi. destruct Hi as [Hi | [Hi | []]]; [|discriminate Hi].
      revert Hi. apply not_in_sleeps. discriminate.
  - destruct Hr as (n & m & ->). split; [reflexivity|]. split.
    + change (Led 255 255 0 :: (repeat (Sleep 1) n ++ repeat (Led 255 0 0) m) ++ [Led 255 0 0])
        with ((Led 255 255 0 :: repeat (Sleep 1) n ++ repeat (Led 255 0 0) m)
                ++ [Led 255 0 0]).
      apply last_color_app_led.
    + intros [Hi | Hi]; [discriminate Hi|].
      apply in_app_or in Hi. destruct Hi as [Hi | [Hi | []]]; [|discriminate Hi].
      apply in_app_or in Hi. destruct Hi as [Hi | Hi].
      * revert Hi. apply not_in_sleeps. discriminate.
      * apply repeat_spec in Hi. discriminate Hi.
Qed.

Lemma pre_flight_checks_colors_witness :
  hd_error (fst (pre_flight_checks demo_params 30 sample_world)) = Some (Led 255 255 0) /\
  last_color (fst (pre_flight_checks demo_params 30 sample_world)) = Some (0, 255, 0)%Z /\
  ~ In (Led 255 0 0) (fst (pre_flight_checks demo_params 30 sample_world)).
Proof.
  apply (pre_flight_checks_colors demo_params 30 sample_world
           (fst (pre_flight_checks demo_params 30 sample_world))
           (snd (pre_flight_checks demo_params 30 sample_world))).
  vm_compute. reflexivity.
Defined.

(** ** The mission *)

Section MissionFacts.

Variable P : Params.
Variable ned2geodetic : Q -> Q -> Q -> Q -> Q -> Q -> Q * Q * Q.
Variable clamp_led_value : cell -> Z.

Lemma retry_loop_returns {A} (m : M A) (wait : Q) (Q' : session -> Prop) :
  (forall s a s', m s = (Ret a, s') -> Q' s') ->
  forall more s a s', retry_loop more wait m s = (Ret a, s') -> Q' s'.
Proof.
  intros Hm. induction more as [|more IH]; intros s a s' H; cbn [retry_loop] in H;
    apply try_except_inv in H;
    destruct H as [(e0 & s1 & _ & Hh) | (Hb & _)]; try exact (Hm _ _ _ Hb).
  - discriminate Hh.
  - unfold asyncio_sleep, emit in Hh. rewrite bind_modify in Hh.
    exact (IH _ _ _ Hh).
Qed.

Lemma arming_returns_armed (home : option (Q * Q * Q)) (s s' : session) :
  arming_and_starting_offboard_mode P home s = (Ret tt, s') ->
  exists tr, trace s' = tr ++ arming_commands.
Proof.
  unfold arming_and_starting_offboard_mode, retry.
  apply (retry_loop_returns (arming_attempt P home) 2
           (fun s' => exists tr, trace s' = tr ++ arming_commands)).
  intros s0 [] s1 H. apply arming_attempt_ret_inv in H.
  destruct H as (fetch & _ & H). eexists. rewrite H, !app_assoc. reflexivity.
Qed.

Lemma perform_trajectory_ends_green (waypoints : list waypoint) (start lat lon alt : Q)
    (s s' : session) :
  perform_trajectory P ned2geodetic waypoints start lat lon alt s = (Ret tt, s') ->
  waypoints <> [] /\ exists tr, trace s' = tr ++ [Led 0 255 0].
Proof.
  intros H. split.
  - intros ->. unfold perform_trajectory in H. rewrite !bind_modify in H.
    apply bind_inv in H.
    destruct H as [(now & s1 & _ & H) | [(e & _ & Hf) | (_ & Hf)]];
      [|discriminate Hf|discriminate Hf].
    rewrite !bind_modify in H. discriminate H.
  - unfold perform_trajectory in H. rewrite !bind_modify in H.
    inv_ret H. rewrite !bind_modify in H. inv_ret H. inv_ret H. inv_ret H.
    unfold post_trajectory in H. rewrite bind_get in H. inv_ret H.
    unfold set_color, emit, modify in H. injection H as <-.
    eexists. reflexivity.
Qed.

(** X29: [run_drone] lets no exception out, and its exit code is 0 or 1.  It is
    0 only when a trajectory with at least one waypoint was loaded and
    [perform_trajectory] returned, the LED green. *)
Theorem run_drone_exit_code (start : option Q) (files : show_files) (auto : bool)
    (home : option (Q * Q * Q)) (lat lon alt : Q) (s : session) (r : outcome Z)
    (s' : session) :
  run_drone P ned2geodetic clamp_led_value start files auto home lat lon alt s = (r, s') ->
  (forall e, r <> Raise e) /\
  (forall code, r = Ret code ->
     code = 1%Z \/
     (code = 0%Z /\
      exists waypoints tr,
        load_trajectory clamp_led_value files auto = Some waypoints /\
        waypoints <> [] /\
        trace s' = tr ++ [Led 0 255 0])).
Proof.
  intros H. unfold run_drone in H. apply try_except_inv in H.
  destruct H as [(e0 & s1 & _ & Hh) | (Hb & Hn)].
  - injection Hh as <- <-. split; [discriminate|].
    intros code E. injection E as <-. left. reflexivity.
  - split; [exact Hn|]. intros code ->.
    inv_ret Hb. inv_ret Hb. inv_ret Hb. inv_ret Hb.
    destruct (load_trajectory clamp_led_value files auto) as [wps|] eqn:El.
    + inv_ret Hb. injection Hb as <- <-. right. split; [reflexivity|].
      match goal with
      | Hp : perform_trajectory _ _ _ _ _ _ _ _ = (Ret ?u, _) |- _ =>
          destruct u; apply perform_trajectory_ends_green in Hp;
          destruct Hp as (Hne & tr & Ht)
      end.
      exists wps, tr. auto.
    + injection Hb as <- _. left. reflexivity.
Qed.

Lemma arming_gives_up_disarmed (home : option (Q * Q * Q)) (s : session) (e : exn)
    (s' : session) :
  arming_and_starting_offboard_mode P home s = (Raise e, s') ->
  e = RetryError /\
  exists tr, trace s' = tr ++ [Call action_disarm; Led 255 0 0] \/
             trace s' = tr ++ [Call action_disarm].
Proof.
  intros Ha. split.
  - unfold arming_and_starting_offboard_mode, retry in Ha.
    apply (retry_loop_outcomes (arming_attempt P home) 2
             (keeps_sleeps_arming_attempt P home)) in Ha.
    destruct Ha as [Ha _]. destruct (Ha e eq_refl) as [He _]. exact He.
  - unfold arming_and_starting_offboard_mode, retry in Ha.
    revert s Ha. generalize (Nat.pred (PREFLIGHT_MAX_RETRIES P)) as more.
    induction more as [|more IH]; intros s Ha; cbn [retry_loop] in Ha;
      apply try_except_inv in Ha;
      destruct Ha as [(e1 & s1 & Hm & Hh) | (Hm & Hn)].
    + injection Hh as _ <-. apply arming_attempt_raise_inv in Hm.
      destruct Hm as (pre & [Hm | Hm]); exists (trace s ++ pre);
        rewrite Hm, <- !app_assoc; auto.
    + exfalso. exact (Hn e eq_refl).
    + unfold asyncio_sleep, emit in Hh. rewrite bind_modify in Hh.
      exact (IH _ Hh).
    + exfalso. exact (Hn e eq_refl).
Qed.

(** X30: A trajectory that cannot be loaded is found out only after arming: with
    such files [run_drone] waits for the start time, runs the arming
    sequence, and exits with code 1 in the very state in which the arming
    sequence ended.  When the arming sequence returned, the last things
    done are the arming commands and the white LED: nothing is sent to
    land or to disarm.  When it gave up, with [RetryError], the last
    command is the disarm of the last attempt. *)
Theorem load_failure_after_arming (start : option Q) (files : show_files) (auto : bool)
    (home : option (Q * Q * Q)) (lat lon alt : Q) (s : session) (code : Z)
    (s' : session) :
  load_trajectory clamp_led_value files auto = None ->
  run_drone P ned2geodetic clamp_led_value start files auto home lat lon alt s
    = (Ret code, s') ->
  code = 1%Z /\
  exists (t0 : Q) (s0 : session),
    (synchronized_start_time <-
       (match start with
        | None => time_time
        | Some t => ret t
        end) ;;
     now <- time_time ;;
     (if Qltb now synchronized_start_time
      then asyncio_sleep (synchronized_start_time - now)
      else ret tt) ;;
     ret synchronized_start_time) s = (Ret t0, s0) /\
    ((arming_and_starting_offboard_mode P home s0 = (Ret tt, s') /\
      exists tr, trace s' = tr ++ arming_commands) \/
     (arming_and_starting_offboard_mode P home s0 = (Raise RetryError, s') /\
      exists tr, trace s' = tr ++ [Call action_disarm; Led 255 0 0] \/
                 trace s' = tr ++ [Call action_disarm])).
Proof.
  intros Hl H. unfold run_drone in H. rewrite Hl in H.
  apply try_except_inv in H.
  destruct H as [(e0 & s1 & Hb & Hh) | (Hb & _)].
  - injection Hh as <- <-. split; [reflexivity|].
    apply bind_inv in Hb.
    destruct Hb as [(t & s2 & Ht0 & Hb) | [(e & Ht & _) | (_ & Hf)]];
      [| |discriminate Hf].
    2:{ destruct start; [discriminate Ht|].
        exact (False_ind _ (time_time_no_raise _ _ _ Ht)). }
    apply bind_inv in Hb.
    destruct Hb as [(now & s3 & Ht1 & Hb) | [(e & Ht & _) | (_ & Hf)]];
      [| exact (False_ind _ (time_time_no_raise _ _ _ Ht)) | discriminate Hf].
    apply bind_inv in Hb.
    destruct Hb as [(u & s4 & Hw & Hb) | [(e & Ht & _) | (_ & Hf)]];
      [| destruct (Qltb now t); discriminate Ht | discriminate Hf].
    apply bind_inv in Hb.
    destruct Hb as [(u' & s5 & _ & Hb) | [(e & Ha & He) | (_ & Hf)]];
      [discriminate Hb | | discriminate Hf].
    injection He as <-.
    exists t, s4. split.
    + rewrite (bind_run _ _ _ _ _ Ht0). rewrite (bind_run _ _ _ _ _ Ht1).
      destruct u. rewrite (bind_run _ _ _ _ _ Hw). reflexivity.
    + right. destruct (arming_gives_up_disarmed _ _ _ _ Ha) as [-> Htr].
      split; [exact Ha | exact Htr].
  - apply bind_inv in Hb.
    destruct Hb as [(t & s2 & Ht0 & Hb) | [(e & _ & Hf) | (_ & Hf)]];
      [|discriminate Hf|discriminate Hf].
    apply bind_inv in Hb.
    destruct Hb as [(now & s3 & Ht1 & Hb) | [(e & _ & Hf) | (_ & Hf)]];
      [|discriminate Hf|discriminate Hf].
    apply bind_inv in Hb.
    destruct Hb as [(u & s4 & Hw & Hb) | [(e & _ & Hf) | (_ & Hf)]];
      [|discriminate Hf|discriminate Hf].
    apply bind_inv in Hb.
    destruct Hb as [(u' & s5 & Ha & Hb) | [(e & _ & Hf) | (_ & Hf)]];
      [|discriminate Hf|discriminate Hf].
    injection Hb as <- <-. split; [reflexivity|].
    exists t, s4. split.
    + rewrite (bind_run _ _ _ _ _ Ht0). rewrite (bind_run _ _ _ _ _ Ht1).
      destruct u. rewrite (bind_run _ _ _ _ _ Hw). reflexivity.
    + left. destruct u'. split; [exact Ha | exact (arming_returns_armed _ _ _ Ha)].
Qed.

End MissionFacts.

(** ** The landing timeout at any poll *)

Lemma bind_ext {A B} (m : M A) (k k' : A -> M B) (s : session) :
  (forall a s1, k a s1 = k' a s1) -> bind m k s = bind m k' s.
Proof. intros H. unfold bind. destruct (m s) as [[a|e|] s1]; auto. Qed.

Lemma bind_ext_sat {A B} (R : session -> session -> Prop) (m : M A)
    (k k' : A -> M B) (s : session) :
  sat R m -> (forall a s1, R s s1 -> k a s1 = k' a s1) -> bind m k s = bind m k' s.
Proof.
  intros Hm H. unfold bind. destruct (m s) as [[a|e|] s1] eqn:E; auto.
  apply H. exact (Hm _ _ _ E).
Qed.

Lemma bind_run_eq {A B} (m m' : M A) (k : A -> M B) (s s1 : session) :
  m s = m' s1 -> bind m k s = bind m' k s1.
Proof. intros H. unfold bind. rewrite H. reflexivity. Qed.

Lemma try_except_run_eq {A} (m m' : M A) (h : exn -> M A) (s s1 : session) :
  m s = m' s1 -> try_except m h s = try_except m' h s1.
Proof. intros H. unfold try_except. rewrite H. reflexivity. Qed.

Lemma try_except_no_raise {A} (m : M A) (h : exn -> M A) (s : session) :
  no_raise m -> try_except m h s = m s.
Proof.
  intros Hm. unfold try_except. destruct (m s) as [[a|e|] s1] eqn:E; try reflexivity.
  exfalso. exact (Hm _ _ _ E).
Qed.

Lemma keeps_cl_refl (s : session) : keeps_cl_landing_detected s s.
Proof. reflexivity. Qed.

Lemma keeps_cl_trans (s1 s2 s3 : session) :
  keeps_cl_landing_detected s1 s2 -> keeps_cl_landing_detected s2 s3 ->
  keeps_cl_landing_detected s1 s3.
Proof. unfold keeps_cl_landing_detected. congruence. Qed.

Ltac keeps_cl_base :=
  unfold keeps_cl_landing_detected;
  cbn [cl_landing_detected with_script with_trace]; reflexivity.

Ltac keeps_cl_go := sat_go keeps_cl_refl keeps_cl_trans keeps_cl_base.

Section LandingTimeout.

Variable P : Params.

Lemma keeps_cl_stop_offboard_mode : sat keeps_cl_landing_detected stop_offboard_mode.
Proof. unfold stop_offboard_mode. unfold_primitives. keeps_cl_go. Qed.

Lemma keeps_cl_landing_wait_loop (fuel : nat) (t0 : Q) :
  sat keeps_cl_landing_detected (landing_wait_loop P fuel t0).
Proof.
  induction fuel as [|fuel IH]; cbn [landing_wait_loop]; unfold_primitives; keeps_cl_go.
Qed.

Lemma keeps_cl_perform_landing : sat keeps_cl_landing_detected (perform_landing P).
Proof.
  pose proof keeps_cl_landing_wait_loop.
  unfold perform_landing. unfold_primitives. keeps_cl_go.
Qed.

(** One pass that finds the vehicle off the ground within the timeout:
    the setpoint, a wait of 0.1 s, and the loop goes on. *)
Lemma controlled_landing_loop_airborne_pass {B} (K : unit -> M B) (fuel : nat)
    (t0 : Q) (s : session) (st : LandedState) (t : Q) (rest : list response) :
  cl_landing_detected s = false ->
  script s = Done :: Landed st :: Clock t :: rest ->
  is_on_ground st = false ->
  t - t0 <= LANDING_TIMEOUT P ->
  bind (controlled_landing_loop P (S fuel) t0) K s
  = bind (controlled_landing_loop P fuel t0) K
      (with_trace (trace s ++ [Call (descent_setpoint P); Sleep (1 # 10)])
         (with_script rest s)).
Proof.
  intros Hc Hs Hg Ht.
  assert (Hq : Qltb (LANDING_TIMEOUT P) (t - t0) = false).
  { apply Qltb_false_iff. exact Ht. }
  cbn [controlled_landing_loop].
  rewrite bind_assoc, bind_get. rewrite Hc.
  rewrite bind_assoc.
  erewrite bind_run.
  2:{ apply try_except_ret. unfold controlled_landing_pass.
      erewrite bind_run by (apply await_call_done; exact Hs).
      erewrite bind_run by (apply first_landed_state_run; reflexivity).
      rewrite Hg, bind_ret.
      erewrite bind_run by (apply time_time_run; reflexivity).
      rewrite Hq. unfold asyncio_sleep, emit. rewrite bind_modify. reflexivity. }
  cbn beta iota.
  f_equal. destruct s. cbn. rewrite <- app_assoc. reflexivity.
Qed.

Lemma controlled_landing_loop_airborne_passes {B} (K : unit -> M B) (t0 : Q)
    (polls : list (LandedState * Q)) :
  Forall (fun p => is_on_ground (fst p) = false /\ snd p - t0 <= LANDING_TIMEOUT P)
         polls ->
  forall (fuel : nat) (s : session) (rest : list response),
    cl_landing_detected s = false ->
    script s = descent_polls polls ++ rest ->
    bind (controlled_landing_loop P (List.length polls + fuel) t0) K s
    = bind (controlled_landing_loop P fuel t0) K
        (with_trace (trace s ++ descent_events P polls) (with_script rest s)).
Proof.
  induction 1 as [|[st t] polls [Hg Ht] _ IH]; intros fuel s rest Hc Hs.
  - cbn in Hs. cbn [descent_events flat_map List.length Nat.add].
    f_equal. destruct s. cbn in *. subst. rewrite app_nil_r. reflexivity.
  - cbn [descent_polls flat_map app fst snd] in Hs. fold (descent_polls polls) in Hs.
    cbn [List.length Nat.add].
    rewrite (controlled_landing_loop_airborne_pass K _ t0 s st t
               (descent_polls polls ++ rest) Hc Hs Hg Ht).
    rewrite IH with (rest := rest); [|exact Hc|reflexivity].
    f_equal. destruct s. cbn. rewrite <- app_assoc. reflexivity.
Qed.

(** The pass that finds the vehicle off the ground after the timeout, and
    what follows the loop. *)
Lemma controlled_landing_loop_timeout (fuel : nat) (t0 : Q) (s : session)
    (st : LandedState) (t1 : Q) (rest : list response) :
  cl_landing_detected s = false ->
  script s = Done :: Landed st :: Clock t1 :: rest ->
  is_on_ground st = false ->
  LANDING_TIMEOUT P < t1 - t0 ->
  (controlled_landing_loop P (S fuel) t0 ;; controlled_landing_finish P) s
  = (stop_offboard_mode ;; perform_landing P ;;
     stop_offboard_mode ;; perform_landing P ;; set_color 0 255 0)
      (with_trace (trace s ++ [Call (descent_setpoint P)]) (with_script rest s)).
Proof.
  intros Hc Hs Hg Ht. apply Qltb_true in Ht.
  cbn [controlled_landing_loop].
  rewrite bind_assoc, bind_get. rewrite Hc.
  rewrite bind_assoc.
  erewrite bind_run_eq.
  2:{ apply try_except_run_eq. unfold controlled_landing_pass.
      erewrite bind_run by (apply await_call_done; exact Hs).
      erewrite bind_run by (apply first_landed_state_run; reflexivity).
      rewrite Hg, bind_ret.
      erewrite bind_run by (apply time_time_run; reflexivity).
      rewrite Ht. reflexivity. }
  erewrite bind_run_eq.
  2:{ apply try_except_no_raise.
      pose proof no_raise_stop_offboard_mode. pose proof (no_raise_perform_landing P).
      no_raise_go. }
  set (s1 := with_script rest _).
  assert (Hs1 : cl_landing_detected s1 = false) by exact Hc.
  replace (with_trace (trace s ++ [Call (descent_setpoint P)]) (with_script rest s))
    with s1 by (destruct s; reflexivity).
  clearbody s1.
  rewrite bind_assoc.
  apply (bind_ext_sat keeps_cl_landing_detected); [apply keeps_cl_stop_offboard_mode|].
  intros [] s2 H2. rewrite bind_assoc.
  apply (bind_ext_sat keeps_cl_landing_detected); [apply keeps_cl_perform_landing|].
  intros [] s3 H3. rewrite bind_ret. cbn iota. rewrite bind_ret.
  unfold controlled_landing_finish. rewrite bind_get.
  unfold keeps_cl_landing_detected in *.
  replace (cl_landing_detected s3) with false by congruence.
  rewrite bind_assoc. apply bind_ext. intros [] s4. reflexivity.
Qed.

End LandingTimeout.

Lemma descent_polls_length (polls : list (LandedState * Q)) :
  List.length (descent_polls polls) = (3 * List.length polls)%nat.
Proof. induction polls as [|p polls IH]; cbn [descent_polls flat_map List.length app] in *; [reflexivity|]. fold (descent_polls polls). lia. Qed.

Lemma calls_descent_events (P : Params) (polls : list (LandedState * Q)) :
  calls (descent_events P polls) = repeat (descent_setpoint P) (List.length polls).
Proof.
  induction polls as [|p polls IH]; [reflexivity|].
  cbn [descent_events flat_map app List.length repeat calls].
  f_equal. exact IH.
Qed.

Lemma controlled_landing_times_out (P : Params) (s : session) (t0 : Q)
    (polls : list (LandedState * Q)) (st : LandedState) (t1 : Q)
    (rest : list response) :
  Forall (fun p => is_on_ground (fst p) = false /\ snd p - t0 <= LANDING_TIMEOUT P)
         polls ->
  is_on_ground st = false ->
  LANDING_TIMEOUT P < t1 - t0 ->
  script s = Clock t0 :: Done :: descent_polls polls
               ++ Done :: Landed st :: Clock t1 :: rest ->
  controlled_landing P s
  = (stop_offboard_mode ;; perform_landing P ;;
     stop_offboard_mode ;; perform_landing P ;; set_color 0 255 0)
      (with_trace
         (trace s ++ Call (descent_setpoint P) :: descent_events P polls
            ++ [Call (descent_setpoint P)])
         (with_script rest (with_cl_landing_detected false s))).
Proof.
  intros Hp Hg Ht Hs.
  rewrite (controlled_landing_enters P s t0 _ Hs).
  rewrite bind_fueled.
  cbn [script with_script].
  rewrite length_app, descent_polls_length. cbn [List.length].
  replace (S (3 * List.length polls + S (S (S (List.length rest)))))
    with (List.length polls + S (2 * List.length polls + 3 + List.length rest))%nat by lia.
  rewrite (controlled_landing_loop_airborne_passes P _ t0 polls Hp _ _
             (Done :: Landed st :: Clock t1 :: rest)); [|reflexivity|reflexivity].
  rewrite (controlled_landing_loop_timeout P _ t0 _ st t1 rest);
    [|reflexivity|reflexivity|exact Hg|exact Ht].
  f_equal. destruct s. cbn. rewrite <- !app_assoc. reflexivity.
Qed.

(** X11: The landing timeout, at whichever poll it strikes.  After any
    number of polls that found the vehicle off the ground within
    [LANDING_TIMEOUT], a poll off the ground after the timeout makes
    [controlled_landing] stop offboard mode and command a native landing
    inside the loop, and then both once more after the loop, since no
    landing was detected; whatever the answers to these four commands, no
    exception leaves, and a run that returns has sent exactly these
    commands after the descent setpoints and has set the LED green last. *)
Theorem controlled_landing_timeout_lands_twice (P : Params) (s : session) (t0 : Q)
    (polls : list (LandedState * Q)) (st : LandedState) (t1 : Q)
    (rest : list response) :
  Forall (fun p => is_on_ground (fst p) = false /\ snd p - t0 <= LANDING_TIMEOUT P)
         polls ->
  is_on_ground st = false ->
  LANDING_TIMEOUT P < t1 - t0 ->
  script s = Clock t0 :: Done :: descent_polls polls
               ++ Done :: Landed st :: Clock t1 :: rest ->
  controlled_landing P s
  = (stop_offboard_mode ;; perform_landing P ;;
     stop_offboard_mode ;; perform_landing P ;; set_color 0 255 0)
      (with_trace
         (trace s ++ Call (descent_setpoint P) :: descent_events P polls
            ++ [Call (descent_setpoint P)])
         (with_script rest (with_cl_landing_detected false s))) /\
  (forall (e : exn) (s' : session), controlled_landing P s <> (Raise e, s')) /\
  (forall s' : session,
     controlled_landing P s = (Ret tt, s') ->
     calls (trace s')
     = calls (trace s) ++ repeat (descent_setpoint P) (List.length polls + 2)
       ++ [offboard_stop; action_land; offboard_stop; action_land] /\
     exists pre, trace s' = pre ++ [Led 0 255 0]).
Proof.
  intros Hp Hg Ht Hs.
  pose proof (controlled_landing_times_out P s t0 polls st t1 rest Hp Hg Ht Hs) as Hrun.
  split; [exact Hrun|]. rewrite Hrun. clear Hrun.
  set (s1 := with_trace _ _).
  assert (Hc1 : calls (trace s1)
                = calls (trace s) ++ repeat (descent_setpoint P) (List.length polls + 2)).
  { subst s1. cbn [trace with_trace]. rewrite calls_app. f_equal.
    change (Call (descent_setpoint P) :: descent_events P polls
              ++ [Call (descent_setpoint P)])
      with ([Call (descent_setpoint P)] ++ descent_events P polls
              ++ [Call (descent_setpoint P)]).
    rewrite !calls_app, calls_descent_events.
    cbn [calls flat_map app].
    replace (List.length polls + 2)%nat with (S (List.length polls + 1)) by lia.
    cbn [repeat]. f_equal. rewrite repeat_app. reflexivity. }
  clearbody s1. split.
  - intros e s'. 
    pose proof no_raise_stop_offboard_mode. pose proof (no_raise_perform_landing P).
    assert (Hn : no_raise (stop_offboard_mode ;; perform_landing P ;;
                           stop_offboard_mode ;; perform_landing P ;;
                           set_color 0 255 0)%monad).
    { unfold set_color, emit. no_raise_go. }
    apply Hn.
  - intros s' H.
    inv_ret H. inv_ret H. inv_ret H. inv_ret H.
    unfold set_color, emit, modify in H. injection H as <-.
    repeat match goal with
           | H : stop_offboard_mode _ = _ |- _ =>
               apply calls_stop_offboard_mode in H; destruct H as [H _]
           | H : perform_landing _ _ = _ |- _ =>
               apply (calls_perform_landing P) in H; destruct H as [H _]
           end.
    split; [|eexists; reflexivity].
    cbn [trace with_trace]. rewrite calls_app. cbn [calls flat_map app].
    rewrite app_nil_r.
    repeat match goal with
           | H : calls (trace _) = _ |- _ => rewrite H; clear H
           end.
    rewrite <- !app_assoc. reflexivity.
Qed.

Lemma controlled_landing_timeout_lands_twice_witness :
  controlled_landing demo_params timeout_session
  = (Ret tt,
     mkSession []
       [Call (descent_setpoint demo_params);
        Call (descent_setpoint demo_params); Sleep (1 # 10);
        Call (descent_setpoint demo_params); Sleep (1 # 10);
        Call (descent_setpoint demo_params);
        Call offboard_stop; Call action_land;
        Call offboard_stop; Call action_land; Led 0 255 0]
       None 0 0 false true false 0 None false) /\
  (forall (e : exn) (s' : session),
     controlled_landing demo_params timeout_session <> (Raise e, s')) /\
  (forall s' : session,
     controlled_landing demo_params timeout_session = (Ret tt, s') ->
     calls (trace s')
     = calls (trace timeout_session) ++ repeat (descent_setpoint demo_params) (2 + 2)
       ++ [offboard_stop; action_land; offboard_stop; action_land] /\
     exists pre, trace s' = pre ++ [Led 0 255 0]).
Proof.
  refine (controlled_landing_timeout_lands_twice demo_params timeout_session 0
            [(IN_AIR, 4); (LANDING, 9)] IN_AIR 11
            [Fails OffboardError; Done; Clock 12; Landed IN_AIR; Clock 23;
             Done; Fails ActionError] _ _ _ _).
  - repeat constructor; vm_compute; discriminate.
  - reflexivity.
  - vm_compute. reflexivity.
  - reflexivity.
Defined.

(** ** The landing helpers *)

(** X12: [stop_offboard_mode], [perform_landing] and [disarm_drone] never raise:
    each of them returns, or waits for an answer that does not come. *)
Theorem landing_helpers_never_raise (P : Params) (s : session) :
  (exists s', stop_offboard_mode s = (Ret tt, s') \/ stop_offboard_mode s = (Stuck, s')) /\
  (exists s', perform_landing P s = (Ret tt, s') \/ perform_landing P s = (Stuck, s')) /\
  (exists s', disarm_drone s = (Ret tt, s') \/ disarm_drone s = (Stuck, s')).
Proof.
  assert (H : forall m : M unit, no_raise m ->
                exists s', m s = (Ret tt, s') \/ m s = (Stuck, s')).
  { intros m Hm. destruct (m s) as [r s'] eqn:E. exists s'.
    destruct r as [[]|e|]; [left; reflexivity | | right; reflexivity].
    exfalso. exact (Hm _ _ _ E). }
  repeat split; apply H.
  - apply no_raise_stop_offboard_mode.
  - apply no_raise_perform_landing.
  - apply no_raise_disarm_drone.
Qed.

(** ** Sample runs *)

Lemma read_trajectory_file_loaded_witness :
  (List.length (adjust_waypoints (decodable no_clamp false mixed_rows) 1 2 0)
     <= List.length mixed_rows)%nat /\
  ((false = false /\
    adjust_waypoints (decodable no_clamp false mixed_rows) 1 2 0
    = adjust_waypoints (decodable no_clamp false mixed_rows) 1 2 0) \/
   (false = true /\
    exists first rest n e d,
      mixed_rows = first :: rest /\
      extract_initial_positions first = Ok (n, e, d) /\
      adjust_waypoints (decodable no_clamp false mixed_rows) 1 2 0
      = adjust_waypoints (decodable no_clamp true mixed_rows) n e d)).
Proof.
  apply (read_trajectory_file_loaded no_clamp mixed_rows false 1 2
           (adjust_waypoints (decodable no_clamp false mixed_rows) 1 2 0)).
  vm_compute. reflexivity.
Defined.

Lemma arming_attempt_success_witness :
  exists fetch,
    (fetch = [] \/ fetch = [HttpGet]) /\
    trace (snd (arming_attempt demo_params None arming_session))
    = trace arming_session ++ [Led 0 255 0] ++ fetch ++ arming_commands.
Proof.
  apply (arming_attempt_success demo_params None arming_session
           (snd (arming_attempt demo_params None arming_session))).
  vm_compute. reflexivity.
Defined.

Lemma arming_attempt_failure_disarms_witness :
  exists pre used,
    (script arming_refused_session = used ++ Done :: [] /\
     [Led 0 255 0; Call action_hold; Call action_arm; Call action_disarm; Led 255 0 0]
     = trace arming_refused_session ++ pre ++ [Call action_disarm; Led 255 0 0]) \/
    (script arming_refused_session = used ++ Fails ActionError :: [] /\
     [Led 0 255 0; Call action_hold; Call action_arm; Call action_disarm; Led 255 0 0]
     = trace arming_refused_session ++ pre ++ [Call action_disarm]).
Proof.
  apply (arming_attempt_failure_disarms demo_params None arming_refused_session
           ActionError
           (mkSession []
              [Led 0 255 0; Call action_hold; Call action_arm; Call action_disarm;
               Led 255 0 0]
              None 0 0 false true false 0 None false)).
  vm_compute. reflexivity.
Defined.

Lemma arming_retry_outcomes_witness :
  (forall e,
     @Raise unit RetryError = Raise e ->
     e = RetryError /\
     sleeps [Led 0 255 0; Call action_hold; Call action_disarm; Led 255 0 0; Sleep 2;
             Led 0 255 0; Call action_hold; Call action_disarm; Sleep 2;
             Led 0 255 0; Call action_hold; Call action_disarm; Led 255 0 0]
     = sleeps (trace arming_failing_session)
       ++ repeat 2 (Nat.pred (PREFLIGHT_MAX_RETRIES demo_params))) /\
  exists k, (k <= Nat.pred (PREFLIGHT_MAX_RETRIES demo_params))%nat /\
            sleeps [Led 0 255 0; Call action_hold; Call action_disarm; Led 255 0 0; Sleep 2;
                    Led 0 255 0; Call action_hold; Call action_disarm; Sleep 2;
                    Led 0 255 0; Call action_hold; Call action_disarm; Led 255 0 0]
            = sleeps (trace arming_failing_session) ++ repeat 2 k.
Proof.
  apply (arming_retry_outcomes demo_params None arming_failing_session
           (Raise RetryError)
           (mkSession []
              [Led 0 255 0; Call action_hold; Call action_disarm; Led 255 0 0; Sleep 2;
               Led 0 255 0; Call action_hold; Call action_disarm; Sleep 2;
               Led 0 255 0; Call action_hold; Call action_disarm; Led 255 0 0]
              None 0 0 false true false 0 None false)).
  vm_compute. reflexivity.
Defined.

Lemma climb_is_never_reentered_witness :
  (initial_climb_completed three_high_session = true ->
   initial_climb_completed (snd three_high_run) = true) /\
  (forall y, initial_climb_yaw three_high_session = Some y ->
             initial_climb_yaw (snd three_high_run) = Some y).
Proof.
  apply (climb_is_never_reentered demo_params flat_geodetic three_high 0 0 0 0 1 true 7
           three_high_session (fst three_high_run) (snd three_high_run)).
  vm_compute. reflexivity.
Defined.

Lemma ahead_of_schedule_waits_witness :
  exists d,
    iteration demo_params flat_geodetic three_high 0 0 0 0 1 true early_session
    = (Ret Next,
       with_trace (trace early_session ++ [Sleep d])
         (with_drift_delta (0 - 0 - wp_t (sample_waypoint 1 0 0 (- (5))))
            (with_script [] early_session))) /\
    0 < d /\ d <= AHEAD_SLEEP_STEP_SEC /\
    d <= wp_t (sample_waypoint 1 0 0 (- (5))) - (0 - 0).
Proof.
  apply (ahead_of_schedule_waits demo_params flat_geodetic three_high 0 0 0 0 1 true
           early_session 0 [] (sample_waypoint 1 0 0 (- (5)))).
  - reflexivity.
  - reflexivity.
  - vm_compute. reflexivity.
Defined.

Lemma skip_count_bounds_witness :
  (0 < tenth ->
   (0 <= 5)%Z /\
   (DRIFT_CATCHUP_MAX_SEC < tenth * inject_Z (2 ^ 53) ->
    inject_Z (5 - 1) * tenth <= 1 # 2 /\
    inject_Z (5 - 1) * tenth <= DRIFT_CATCHUP_MAX_SEC)) /\
  (tenth < 0 -> (5 <= 0)%Z).
Proof.
  apply (skip_count_bounds tenth (1 # 2) 5).
  - vm_compute. reflexivity.
  - vm_compute. discriminate.
Defined.

Lemma climb_iteration_never_skips_witness :
  (waypoint_index late_climb_session
   <= waypoint_index
        (snd (iteration climbing_params flat_geodetic three_high 0 0 0 0 1 true
                late_climb_session))
   <= waypoint_index late_climb_session + 1)%nat /\
  (dispatched (trace (snd (iteration climbing_params flat_geodetic three_high 0 0 0 0 1
                             true late_climb_session)))
   = dispatched (trace late_climb_session) \/
   dispatched (trace (snd (iteration climbing_params flat_geodetic three_high 0 0 0 0 1
                             true late_climb_session)))
   = dispatched (trace late_climb_session) ++ [waypoint_index late_climb_session]) /\
  (fst (iteration climbing_params flat_geodetic three_high 0 0 0 0 1 true
          late_climb_session) = Ret Next ->
   waypoint_index
     (snd (iteration climbing_params flat_geodetic three_high 0 0 0 0 1 true
             late_climb_session))
   = (waypoint_index late_climb_session + 1)%nat).
Proof.
  apply (climb_iteration_never_skips climbing_params flat_geodetic three_high 0 0 0 0 1
           true late_climb_session 10 [Done] (sample_waypoint 0 0 0 (- (5)))
           0 0 (- (5))).
  - reflexivity.
  - reflexivity.
  - vm_compute. discriminate.
  - reflexivity.
  - reflexivity.
  - right. vm_compute. reflexivity.
  - vm_compute. reflexivity.
Defined.

Lemma ends_high_loop_never_lands_witness :
  calls (trace (snd three_high_run)) = calls (trace three_high_session) /\
  landing_detected (snd three_high_run) = landing_detected three_high_session.
Proof.
  apply (ends_high_loop_never_lands demo_params flat_geodetic three_high 0 0 0 0 1 7
           three_high_session (fst three_high_run) (snd three_high_run)).
  vm_compute. reflexivity.
Defined.

Lemma loop_stop_reasons_witness :
  (total_waypoints three_high <= waypoint_index (snd three_high_run))%nat \/
  landing_detected (snd three_high_run) = true \/
  exists tr, trace (snd three_high_run) = tr ++ [Led 255 0 0].
Proof.
  apply (loop_stop_reasons demo_params flat_geodetic three_high 0 0 0 0 1 true 7
           three_high_session (snd three_high_run)).
  vm_compute. reflexivity.
Defined.

Lemma empty_trajectory_raises_witness :
  exists s',
    perform_trajectory demo_params flat_geodetic [] 0 0 0 0 clock_only_session
    = (Raise IndexError, s') /\
    trace s' = trace clock_only_session /\ script s' = [].
Proof.
  apply (empty_trajectory_raises demo_params flat_geodetic 0 0 0 0 clock_only_session
           0 []).
  reflexivity.
Defined.

Lemma ends_high_trajectory_lands_once_witness :
  calls (trace (snd whole_show_run))
  = calls (trace whole_show_session) ++ [offboard_stop; action_land].
Proof.
  apply (ends_high_trajectory_lands_once demo_params flat_geodetic three_high 0 0 0 0
           whole_show_session (snd whole_show_run)).
  - vm_compute. reflexivity.
  - vm_compute. reflexivity.
Defined.

Lemma perform_trajectory_raises_witness :
  (@nil waypoint = [] /\ IndexError = IndexError /\
   trace (snd (perform_trajectory demo_params flat_geodetic [] 0 0 0 0
                 clock_only_session))
   = trace clock_only_session) \/
  (trajectory_ends_high_of demo_params [] = Ok false /\ IndexError <> OffboardError /\
   exists tr,
     trace (snd (perform_trajectory demo_params flat_geodetic [] 0 0 0 0
                   clock_only_session))
     = tr ++ [Call (descent_setpoint demo_params)]) \/
  (trajectory_ends_high_of demo_params [] = Ok true /\
   calls (trace (snd (perform_trajectory demo_params flat_geodetic [] 0 0 0 0
                        clock_only_session)))
   = calls (trace clock_only_session) ++ [offboard_stop; action_land]).
Proof.
  apply (perform_trajectory_raises demo_params flat_geodetic [] 0 0 0 0
           clock_only_session IndexError
           (snd (perform_trajectory demo_params flat_geodetic [] 0 0 0 0
                   clock_only_session))).
  vm_compute. reflexivity.
Defined.

Lemma run_drone_exit_code_witness :
  (forall e, @Ret Z 0%Z <> Raise e) /\
  (forall code, Ret 0%Z = Ret code ->
     code = 1%Z \/
     (code = 0%Z /\
      exists waypoints tr,
        load_trajectory no_clamp (CustomCsv flown_show_rows) false = Some waypoints /\
        waypoints <> [] /\
        trace (snd flown_show_run) = tr ++ [Led 0 255 0])).
Proof.
  apply (run_drone_exit_code demo_params flat_geodetic no_clamp (Some 0)
           (CustomCsv flown_show_rows) false None 0 0 0 flown_show_session
           (Ret 0%Z) (snd flown_show_run)).
  vm_compute. reflexivity.
Defined.

Lemma load_failure_after_arming_witness :
  1%Z = 1%Z /\
  exists (t0 : Q) (s0 : session),
    (synchronized_start_time <- ret 0 ;;
     now <- time_time ;;
     (if Qltb now synchronized_start_time
      then asyncio_sleep (synchronized_start_time - now)
      else ret tt) ;;
     ret synchronized_start_time) unloadable_session = (Ret t0, s0) /\
    ((arming_and_starting_offboard_mode demo_params None s0
      = (Ret tt, mkSession [] (Led 0 255 0 :: arming_commands) None 0 0 false true
                   false 0 None false) /\
      exists tr, Led 0 255 0 :: arming_commands = tr ++ arming_commands) \/
     (arming_and_starting_offboard_mode demo_params None s0
      = (Raise RetryError,
         mkSession [] (Led 0 255 0 :: arming_commands) None 0 0 false true
           false 0 None false) /\
      exists tr, Led 0 255 0 :: arming_commands = tr ++ [Call action_disarm; Led 255 0 0] \/
                 Led 0 255 0 :: arming_commands = tr ++ [Call action_disarm])).
Proof.
  apply (load_failure_after_arming demo_params flat_geodetic no_clamp (Some 0)
           (CustomCsv []) false None 0 0 0 unloadable_session 1
           (mkSession [] (Led 0 255 0 :: arming_commands) None 0 0 false true
              false 0 None false)).
  - reflexivity.
  - vm_compute. reflexivity.
Defined.
